(** * The Habitica API client: retry loop, rate-limit state and entity caches

    A shallow embedding of [internal/client/client.go] and
    [internal/client/types.go].  The client is a Go struct whose methods
    mutate it and talk to the network; here every method is a function that
    takes the client and the world (clock and network log) and returns the
    result together with the new client and the new world.

    What the Go runtime and its standard library decide (JSON encoding and
    decoding, URL validation, the HTTP round trip, the choice a [select]
    makes between two ready channels) is gathered in one record, [Runtime];
    every statement below holds for every runtime.

    The mutexes of the client are not modelled: each method runs to its end
    before the next one starts.  Lookups by id are also run interleaved,
    one holding of the cache lock at a time (see [lookup_step]).

    Further down come the webhook methods that send no body, the
    configuration of the provider ([internal/provider/provider.go]), the
    user_tasks data source and the tag, daily, habit and webhook resources
    ([internal/resources]), each from the point where the plugin framework
    has decoded its input. *)

From Stdlib Require Import ZArith Floats Ascii String List Lia Bool.
From stdpp Require Import gmap strings list pretty.

Open Scope Z_scope.
Set Warnings "-register-all".

(* ===================================================================== *)
(** ** Go values: errors and results                                     *)
(* ===================================================================== *)

(** [context.Canceled] and [context.DeadlineExceeded]. *)
Inductive ctx_error := Canceled | DeadlineExceeded.

(** A Go [error] value, by the way it was built. *)
Inductive error :=
| LibError (msg : string)                      (* made by net/http, net/url, io or encoding/json *)
| CtxError (k : ctx_error)                     (* the value of [ctx.Err()] *)
| Errorf (text : string)                       (* [fmt.Errorf] without [%w] *)
| Wrapf (prefix : string) (inner : error)      (* [fmt.Errorf(prefix + ": %w", inner)] *)
| WrapfNil (prefix : string).                  (* the same, given a nil error *)

(** A Go pair [(value, error)] of which exactly one side is set. *)
Inductive result (A : Type) :=
| Ok (a : A)
| Err (e : error).
Arguments Ok {A} a.
Arguments Err {A} e.

Definition is_Ok {A} (r : result A) : bool :=
  match r with Ok _ => true | Err _ => false end.

(** [err.Error()]. *)
Fixpoint error_Error (e : error) : string :=
  match e with
  | LibError msg => msg
  | CtxError Canceled => "context canceled"
  | CtxError DeadlineExceeded => "context deadline exceeded"
  | Errorf text => text
  | Wrapf prefix inner => prefix +:+ ": " +:+ error_Error inner
  | WrapfNil prefix => prefix +:+ ": %!w(<nil>)"
  end.

(** [fmt.Errorf(prefix + ": %w", err)] for an [err] that may be nil. *)
Definition wrap (prefix : string) (err : option error) : error :=
  match err with
  | Some e => Wrapf prefix e
  | None => WrapfNil prefix
  end.

(** [errors.Unwrap]. *)
Definition error_Unwrap (e : error) : option error :=
  match e with
  | Wrapf _ inner => Some inner
  | _ => None
  end.

(** [strings.Contains(s, sub)], as a proposition. *)
Definition contains (s sub : string) : Prop :=
  exists pre post : string, s = pre +:+ sub +:+ post.

(* ===================================================================== *)
(** ** Machine integers                                                   *)
(* ===================================================================== *)

(** The value of an [int64] after an operation that overflowed. *)
Definition wrap64 (x : Z) : Z := (x + 2 ^ 63) mod 2 ^ 64 - 2 ^ 63.

(** [x << s] on [int64], for a shift count [0 <= s]. *)
Definition shl64 (x s : Z) : Z :=
  if s <? 64 then wrap64 (Z.shiftl x s) else 0.

(* ===================================================================== *)
(** ** The parts of the Go standard library the client calls              *)
(* ===================================================================== *)

Module strconv.

(** The platform's [int] is 64 bits wide. *)
Definition IntSize : Z := 64.

Definition digit (a : ascii) : option Z :=
  let n := Z.of_N (N_of_ascii a) in
  if (48 <=? n) && (n <=? 57) then Some (n - 48) else None.

Fixpoint digits (acc : Z) (s : string) : option Z :=
  match s with
  | EmptyString => Some acc
  | String a s' =>
      match digit a with
      | Some d => digits (10 * acc + d) s'
      | None => None
      end
  end.

(** The magnitude of a non-empty run of decimal digits. *)
Definition magnitude (s : string) : option Z :=
  match s with
  | EmptyString => None
  | _ => digits 0 s
  end.

(** [strconv.ParseInt(s, 10, bitSize)]: an optional sign, then decimal
    digits only, and the value must fit [bitSize] bits; [None] is a
    non-nil error (syntax or range). *)
Definition ParseInt10 (s : string) (bitSize : Z) : option Z :=
  match s with
  | EmptyString => None
  | String a rest =>
      let '(neg, body) :=
        if Ascii.eqb a "+" then (false, rest)
        else if Ascii.eqb a "-" then (true, rest)
        else (false, s) in
      match magnitude body with
      | None => None
      | Some un =>
          let cutoff := 2 ^ (bitSize - 1) in
          if negb neg && (cutoff <=? un) then None
          else if neg && (cutoff <? un) then None
          else Some (if neg then - un else un)
      end
  end.

(** [strconv.Atoi(s)] is [ParseInt(s, 10, 0)] narrowed to [int]. *)
Definition Atoi (s : string) : option Z := ParseInt10 s IntSize.

End strconv.

Module textproto.

Definition upper (a : ascii) : ascii :=
  let n := N_of_ascii a in
  if ((97 <=? n) && (n <=? 122))%N then ascii_of_N (n - 32) else a.

Definition lower (a : ascii) : ascii :=
  let n := N_of_ascii a in
  if ((65 <=? n) && (n <=? 90))%N then ascii_of_N (n + 32) else a.

Fixpoint canon (up : bool) (s : string) : string :=
  match s with
  | EmptyString => EmptyString
  | String a s' =>
      String (if up then upper a else lower a) (canon (Ascii.eqb a "-") s')
  end.

(** [textproto.CanonicalMIMEHeaderKey] on a key made of token bytes (the
    only keys the client uses): the first letter and every letter after
    a hyphen in upper case, the others in lower case. *)
Definition CanonicalMIMEHeaderKey (s : string) : string := canon true s.

End textproto.

Module http.

(** [http.Header]: canonical key to the values of that key. *)
Abbreviation Header := (gmap string (list string)).

(** [h.Get(key)]: the first value of the key, or the empty string. *)
Definition Header_Get (h : Header) (key : string) : string :=
  match h !! textproto.CanonicalMIMEHeaderKey key with
  | Some (v :: _) => v
  | _ => ""
  end.

(** [h.Set(key, value)]. *)
Definition Header_Set (h : Header) (key value : string) : Header :=
  <[textproto.CanonicalMIMEHeaderKey key := [value]]> h.

Definition MethodGet : string := "GET".
Definition MethodPost : string := "POST".
Definition MethodPut : string := "PUT".
Definition MethodDelete : string := "DELETE".
Definition StatusTooManyRequests : Z := 429.

(** [*http.Request], as far as the client fills it. *)
Record Request := {
  Method : string;
  URL : string;
  ReqHeader : Header;
  ReqBody : option string
}.

(** [*http.Response] together with what [io.ReadAll(resp.Body)] gives. *)
Record Response := {
  StatusCode : Z;
  RespHeader : Header;
  Body : result string
}.

End http.

Module time.

(** [time.Duration]: nanoseconds in an [int64]. *)
Definition Nanosecond : Z := 1.
Definition Millisecond : Z := 1000000.
Definition Second : Z := 1000000000.
Definition maxDuration : Z := 2 ^ 63 - 1.
Definition minDuration : Z := - 2 ^ 63.

(** [time.Time] is idealised as a number of nanoseconds since the Unix
    epoch, without the bounds of its internal seconds counter. *)
Definition Unix (sec nsec : Z) : Z := sec * Second + nsec.

(** The zero value [time.Time{}]: January 1, year 1, 00:00 UTC. *)
Definition zero : Z := Unix (-62135596800) 0.

(** [t.Before(u)]. *)
Definition Before (t u : Z) : bool := t <? u.

(** [t.Sub(u)]: the difference, saturated to a [Duration]. *)
Definition Sub (t u : Z) : Z := Z.min maxDuration (Z.max minDuration (t - u)).

(** [time.Until(t)] at clock reading [now]. *)
Definition Until (now t : Z) : Z := Sub t now.

End time.

Module context.

(** A [context.Context], by what becomes of it: the instant its [Done]
    channel is closed ([None]: never, as for [context.Background()]) and
    the error [Err()] reports from then on. *)
Record Context := {
  doneAt : option Z;
  cause : ctx_error
}.

Definition Background : Context := {| doneAt := None; cause := Canceled |}.

(** [context.WithDeadline(context.Background(), d)]. *)
Definition WithDeadline (d : Z) : Context :=
  {| doneAt := Some d; cause := DeadlineExceeded |}.

(** Is [ctx.Done()] closed at instant [t]? *)
Definition Done (ctx : Context) (t : Z) : bool :=
  match doneAt ctx with
  | Some d => d <=? t
  | None => false
  end.

End context.

(* ===================================================================== *)
(** ** types.go                                                           *)
(* ===================================================================== *)

(** [APIResponse[T]]: the envelope of every answer of the service. *)
Record APIResponse (T : Type) := {
  Success : bool;
  Data : T;
  Error : string;
  Message : string
}.
Arguments Success {T} _.
Arguments Data {T} _.
Arguments Error {T} _.
Arguments Message {T} _.

Record Tag := {
  Tag_ID : string;
  Tag_Name : string
}.

Record RepeatConfig := {
  Monday : bool;
  Tuesday : bool;
  Wednesday : bool;
  Thursday : bool;
  Friday : bool;
  Saturday : bool;
  Sunday : bool
}.

Record Task := {
  Task_ID : string;
  Task_Type : string;
  Task_Text : string;
  Notes : string;
  Alias : string;
  Tags : list string;
  Priority : float;
  Attribute : string;
  (* habits *)
  Up : option bool;
  Down : option bool;
  CounterUp : Z;
  CounterDown : Z;
  (* dailies *)
  Frequency : string;
  EveryX : Z;
  StartDate : option Z;
  Repeat : option RepeatConfig;
  DaysOfMonth : list Z;
  WeeksOfMonth : list Z;
  Streak : Z;
  IsDue : bool;
  NextDue : list string;
  (* computed by the service *)
  Value : float
}.

(** A value decoded into a Go [any]. *)
Inductive JSON :=
| JNull
| JBool (b : bool)
| JNumber (f : float)
| JString (s : string)
| JArray (items : list JSON)
| JObject (fields : list (string * JSON)).

(** What the client passes as the [body any] of a request. *)
Inductive Payload :=
| NameBody (name : string)       (* [map[string]string{"name": name}] *)
| TaskBody (task : Task).        (* a [*Task] *)

(* ===================================================================== *)
(** ** client.go: the client and its construction                         *)
(* ===================================================================== *)

Definition DefaultBaseURL : string := "https://habitica.com/api/v3".
Definition DefaultRateLimitBuf : Z := 5.
Definition DefaultMaxRetries : Z := 5.
Definition DefaultRetryDelay : Z := 2 * time.Second.

(** [Client].  [httpClient] is kept as its [Timeout]; a cache that is
    [None] is the Go [nil] map (not populated), [Some ∅] is a populated
    cache without entries. *)
Record Client := {
  baseURL : string;
  userID : string;
  apiKey : string;
  clientID : string;
  httpClient : Z;
  rateLimitBuffer : Z;
  maxRetries : Z;
  baseRetryDelay : Z;
  rateLimitRemaining : Z;
  rateLimitReset : Z;
  taskCache : option (gmap string Task);
  tagCache : option (gmap string Tag)
}.

Record Config := {
  UserID : string;
  APIKey : string;
  ClientAuthorID : string;
  ClientAppName : string;
  RateLimitBuffer : Z;
  MaxRetries : Z;
  BaseRetryDelay : Z
}.

Definition New (cfg : Config) : Client :=
  let appName :=
    if String.eqb (ClientAppName cfg) "" then "TerraformHabitica"
    else ClientAppName cfg in
  let rateLimitBuffer :=
    if RateLimitBuffer cfg <=? 0 then DefaultRateLimitBuf
    else RateLimitBuffer cfg in
  let maxRetries :=
    if MaxRetries cfg <=? 0 then DefaultMaxRetries else MaxRetries cfg in
  let baseRetryDelay :=
    if BaseRetryDelay cfg <=? 0 then DefaultRetryDelay
    else BaseRetryDelay cfg in
  {| baseURL := DefaultBaseURL;
     userID := UserID cfg;
     apiKey := APIKey cfg;
     clientID := ClientAuthorID cfg +:+ "-" +:+ appName;
     httpClient := 30 * time.Second;
     rateLimitBuffer := rateLimitBuffer;
     maxRetries := maxRetries;
     baseRetryDelay := baseRetryDelay;
     rateLimitRemaining := 30;
     rateLimitReset := time.zero;
     taskCache := None;
     tagCache := None |}.

(** Assignments to the fields the methods write. *)
Definition set_rateLimitRemaining (v : Z) (c : Client) : Client :=
  {| baseURL := baseURL c; userID := userID c; apiKey := apiKey c;
     clientID := clientID c; httpClient := httpClient c;
     rateLimitBuffer := rateLimitBuffer c; maxRetries := maxRetries c;
     baseRetryDelay := baseRetryDelay c;
     rateLimitRemaining := v;
     rateLimitReset := rateLimitReset c;
     taskCache := taskCache c; tagCache := tagCache c |}.

Definition set_rateLimitReset (t : Z) (c : Client) : Client :=
  {| baseURL := baseURL c; userID := userID c; apiKey := apiKey c;
     clientID := clientID c; httpClient := httpClient c;
     rateLimitBuffer := rateLimitBuffer c; maxRetries := maxRetries c;
     baseRetryDelay := baseRetryDelay c;
     rateLimitRemaining := rateLimitRemaining c;
     rateLimitReset := t;
     taskCache := taskCache c; tagCache := tagCache c |}.

Definition set_taskCache (m : option (gmap string Task)) (c : Client) : Client :=
  {| baseURL := baseURL c; userID := userID c; apiKey := apiKey c;
     clientID := clientID c; httpClient := httpClient c;
     rateLimitBuffer := rateLimitBuffer c; maxRetries := maxRetries c;
     baseRetryDelay := baseRetryDelay c;
     rateLimitRemaining := rateLimitRemaining c;
     rateLimitReset := rateLimitReset c;
     taskCache := m; tagCache := tagCache c |}.

Definition set_tagCache (m : option (gmap string Tag)) (c : Client) : Client :=
  {| baseURL := baseURL c; userID := userID c; apiKey := apiKey c;
     clientID := clientID c; httpClient := httpClient c;
     rateLimitBuffer := rateLimitBuffer c; maxRetries := maxRetries c;
     baseRetryDelay := baseRetryDelay c;
     rateLimitRemaining := rateLimitRemaining c;
     rateLimitReset := rateLimitReset c;
     taskCache := taskCache c; tagCache := m |}.

(** [updateRateLimits]: each header is looked at on its own; a header that
    is absent, empty or not a number leaves its field as it was. *)
Definition updateRateLimits (c : Client) (resp : http.Response) : Client :=
  let c1 :=
    let remaining := http.Header_Get (http.RespHeader resp) "X-RateLimit-Remaining" in
    if negb (String.eqb remaining "") then
      match strconv.Atoi remaining with
      | Some val => set_rateLimitRemaining val c
      | None => c
      end
    else c in
  let reset := http.Header_Get (http.RespHeader resp) "X-RateLimit-Reset" in
  if negb (String.eqb reset "") then
    match strconv.ParseInt10 reset 64 with
    | Some ts => set_rateLimitReset (time.Unix ts 0) c1
    | None => c1
    end
  else c1.

(* ===================================================================== *)
(** ** The runtime and the world                                          *)
(* ===================================================================== *)

(** One call of [c.httpClient.Do(req)], with the reading of the body. *)
Inductive RoundTrip :=
| DoErr (e : error)                (* [Do] returned an error *)
| DoResp (resp : http.Response).   (* [Do] returned a response *)

Record Exchange := {
  ex_req : http.Request;
  ex_res : RoundTrip
}.

(** The world a method runs in: the clock (nanoseconds since the Unix
    epoch) and the requests handed to the network so far, last one first. *)
Record World := {
  now : Z;
  exchanges : list Exchange
}.

Definition set_now (t : Z) (w : World) : World :=
  {| now := t; exchanges := exchanges w |}.

(** What the client does not decide itself. *)
Record Runtime := {
  (** [json.Marshal(body)] *)
  json_Marshal : Payload -> result string;
  (** [json.Unmarshal(data, &apiResp)] at the types the client decodes to *)
  json_Unmarshal_any : string -> result (APIResponse JSON);
  json_Unmarshal_Tag : string -> result (APIResponse Tag);
  json_Unmarshal_Tags : string -> result (APIResponse (list Tag));
  json_Unmarshal_Task : string -> result (APIResponse Task);
  json_Unmarshal_Tasks : string -> result (APIResponse (list Task));
  (** the error of [http.NewRequestWithContext] for a method and a URL *)
  http_NewRequest_err : string -> string -> option error;
  (** the network: from the exchanges so far, the clock, the context and
      the request, the time the round trip takes and what comes back *)
  httpClient_Do :
    list Exchange -> Z -> context.Context -> http.Request -> Z * RoundTrip;
  (** the branch a [select] takes when the context is done at the very
      instant the timer fires ([true]: the context's) *)
  select_tie : Z -> bool
}.

(** The two ways out of
    [select { case <-ctx.Done(): ...; case <-time.After(d): }],
    with the clock reading at which the branch is taken. *)
Inductive Woken :=
| TimerFired (t : Z)
| CtxDone (t : Z).

Definition select_Done_After (R : Runtime) (ctx : context.Context)
    (t d : Z) : Woken :=
  let fire := t + Z.max 0 d in
  match context.doneAt ctx with
  | None => TimerFired fire
  | Some tc =>
      if tc <? fire then CtxDone (Z.max t tc)
      else if fire <? tc then TimerFired fire
      else if select_tie R fire then CtxDone fire
      else TimerFired fire
  end.

(* ===================================================================== *)
(** ** client.go: [do]                                                    *)
(* ===================================================================== *)

(** [c.baseRetryDelay * time.Duration(1<<(attempt-1))], in [int64]. *)
Definition backoffDelay (c : Client) (attempt : Z) : Z :=
  wrap64 (baseRetryDelay c * shl64 1 (attempt - 1)).

(** The wait before a retry: none before attempt 0. *)
Definition backoffWait (R : Runtime) (ctx : context.Context) (c : Client)
    (attempt t : Z) : Woken :=
  if 0 <? attempt then select_Done_After R ctx t (backoffDelay c attempt)
  else TimerFired t.

(** The rate-limit gate in front of every attempt. *)
Definition rateLimitWait (R : Runtime) (ctx : context.Context) (c : Client)
    (t : Z) : Woken :=
  if (rateLimitRemaining c <? rateLimitBuffer c)
     && time.Before t (rateLimitReset c)
  then select_Done_After R ctx t (time.Until t (rateLimitReset c))
  else TimerFired t.

(** The request of one attempt: the body reader is made anew, the error of
    the second [json.Marshal] is dropped as in the source. *)
Definition newRequest (R : Runtime) (c : Client) (method path : string)
    (body : option Payload) : result http.Request :=
  let bodyReader :=
    match body with
    | Some b =>
        match json_Marshal R b with
        | Ok jsonBody => Some jsonBody
        | Err _ => Some ""
        end
    | None => None
    end in
  match http_NewRequest_err R method (baseURL c +:+ path) with
  | Some err => Err (Wrapf "creating request" err)
  | None =>
      let h := http.Header_Set ∅ "Content-Type" "application/json" in
      let h := http.Header_Set h "x-api-user" (userID c) in
      let h := http.Header_Set h "x-api-key" (apiKey c) in
      let h := http.Header_Set h "x-client" (clientID c) in
      Ok {| http.Method := method;
            http.URL := baseURL c +:+ path;
            http.ReqHeader := h;
            http.ReqBody := bodyReader |}
  end.

(** The error of a response with a status of 400 or more, other than 429. *)
Definition apiError (R : Runtime) (status : Z) (respBody : string) : error :=
  match json_Unmarshal_any R respBody with
  | Ok apiResp =>
      if negb (String.eqb (Message apiResp) "") then
        Errorf ("API error (" +:+ pretty status +:+ "): " +:+ Message apiResp)
      else Errorf ("API error (" +:+ pretty status +:+ "): " +:+ respBody)
  | Err _ => Errorf ("API error (" +:+ pretty status +:+ "): " +:+ respBody)
  end.

(** The loop [for attempt := 0; attempt <= c.maxRetries; attempt++] from
    iteration [attempt] on, with [n] iterations left: [n = 0] is the exit
    of the loop, where [attempt = c.maxRetries + 1].  (The body writes
    neither [attempt] nor [c.maxRetries]; the counter is not wrapped, as
    it could only be for [c.maxRetries] the largest [int].) *)
Fixpoint do_loop (R : Runtime) (ctx : context.Context) (method path : string)
    (body : option Payload) (n : nat) (attempt : Z) (lastErr : option error)
    (c : Client) (w : World) : result string * Client * World :=
  match n with
  | O => (Err (wrap "max retries exceeded" lastErr), c, w)
  | S n' =>
      match backoffWait R ctx c attempt (now w) with
      | CtxDone t => (Err (CtxError (context.cause ctx)), c, set_now t w)
      | TimerFired t1 =>
          match rateLimitWait R ctx c t1 with
          | CtxDone t => (Err (CtxError (context.cause ctx)), c, set_now t w)
          | TimerFired t2 =>
              match newRequest R c method path body with
              | Err e => (Err e, c, set_now t2 w)
              | Ok req =>
                  let '(elapsed, res) := httpClient_Do R (exchanges w) t2 ctx req in
                  let w' := {| now := t2 + elapsed;
                               exchanges := {| ex_req := req; ex_res := res |}
                                              :: exchanges w |} in
                  match res with
                  | DoErr err =>
                      do_loop R ctx method path body n' (attempt + 1)
                        (Some (Wrapf "executing request" err)) c w'
                  | DoResp resp =>
                      let c' := updateRateLimits c resp in
                      match http.Body resp with
                      | Err err =>
                          do_loop R ctx method path body n' (attempt + 1)
                            (Some (Wrapf "reading response body" err)) c' w'
                      | Ok respBody =>
                          if http.StatusCode resp =? http.StatusTooManyRequests then
                            do_loop R ctx method path body n' (attempt + 1)
                              (Some (Errorf "rate limited (429)")) c' w'
                          else if 400 <=? http.StatusCode resp then
                            (Err (apiError R (http.StatusCode resp) respBody), c', w')
                          else (Ok respBody, c', w')
                      end
                  end
              end
          end
      end
  end.

(** [do]: the body is marshalled once before the loop, where an error ends
    the call; the loop then runs for attempts [0 .. c.maxRetries]. *)
Definition do (R : Runtime) (c : Client) (w : World) (ctx : context.Context)
    (method path : string) (body : option Payload)
    : result string * Client * World :=
  match
    match body with
    | Some b =>
        match json_Marshal R b with
        | Err err => Some err
        | Ok _ => None
        end
    | None => None
    end
  with
  | Some err => (Err (Wrapf "marshaling request body" err), c, w)
  | None =>
      do_loop R ctx method path body (Z.to_nat (maxRetries c + 1)) 0 None c w
  end.

Definition Get (R : Runtime) (c : Client) (w : World) (ctx : context.Context)
    (path : string) :=
  do R c w ctx http.MethodGet path None.

Definition Post (R : Runtime) (c : Client) (w : World) (ctx : context.Context)
    (path : string) (body : Payload) :=
  do R c w ctx http.MethodPost path (Some body).

Definition Put (R : Runtime) (c : Client) (w : World) (ctx : context.Context)
    (path : string) (body : Payload) :=
  do R c w ctx http.MethodPut path (Some body).

Definition Delete (R : Runtime) (c : Client) (w : World) (ctx : context.Context)
    (path : string) :=
  do R c w ctx http.MethodDelete path None.

(* ===================================================================== *)
(** ** client.go: tags                                                    *)
(* ===================================================================== *)

(** [cache[id]] with its [ok]; reading a nil map finds nothing. *)
Definition cache_lookup {E : Type} (cache : option (gmap string E))
    (id : string) : option E :=
  match cache with
  | Some m => m !! id
  | None => None
  end.

(** [make(map[string]*E)] filled in the order of the list: a later entry
    with the same id replaces an earlier one. *)
Definition index_by {E : Type} (ID : E -> string) (data : list E)
    : gmap string E :=
  fold_left (fun m e => <[ID e := e]> m) data ∅.

Definition invalidateTagCache (c : Client) : Client := set_tagCache None c.

Definition CreateTag (R : Runtime) (c : Client) (w : World)
    (ctx : context.Context) (name : string) : result Tag * Client * World :=
  let '(r, c1, w1) := Post R c w ctx "/tags" (NameBody name) in
  match r with
  | Err err => (Err err, c1, w1)
  | Ok resp =>
      match json_Unmarshal_Tag R resp with
      | Err err => (Err (Wrapf "unmarshaling response" err), c1, w1)
      | Ok apiResp => (Ok (Data apiResp), invalidateTagCache c1, w1)
      end
  end.

(** [populateTagCache]; the result is the returned [error], [None] for nil. *)
Definition populateTagCache (R : Runtime) (c : Client) (w : World)
    (ctx : context.Context) : option error * Client * World :=
  match tagCache c with
  | Some _ => (None, c, w)
  | None =>
      let '(r, c1, w1) := Get R c w ctx "/tags" in
      match r with
      | Err err => (Some err, c1, w1)
      | Ok resp =>
          match json_Unmarshal_Tags R resp with
          | Err err => (Some (Wrapf "unmarshaling response" err), c1, w1)
          | Ok apiResp =>
              (None, set_tagCache (Some (index_by Tag_ID (Data apiResp))) c1, w1)
          end
      end
  end.

Definition GetTag (R : Runtime) (c : Client) (w : World)
    (ctx : context.Context) (id : string) : result Tag * Client * World :=
  match cache_lookup (tagCache c) id with
  | Some tag => (Ok tag, c, w)
  | None =>
      let '(perr, c1, w1) := populateTagCache R c w ctx in
      match perr with
      | Some err => (Err err, c1, w1)
      | None =>
          match cache_lookup (tagCache c1) id with
          | Some tag => (Ok tag, c1, w1)
          | None => (Err (Errorf ("tag not found: " +:+ id)), c1, w1)
          end
      end
  end.

Definition UpdateTag (R : Runtime) (c : Client) (w : World)
    (ctx : context.Context) (id name : string) : result Tag * Client * World :=
  let '(r, c1, w1) := Put R c w ctx ("/tags/" +:+ id) (NameBody name) in
  match r with
  | Err err => (Err err, c1, w1)
  | Ok resp =>
      match json_Unmarshal_Tag R resp with
      | Err err => (Err (Wrapf "unmarshaling response" err), c1, w1)
      | Ok apiResp => (Ok (Data apiResp), invalidateTagCache c1, w1)
      end
  end.

Definition DeleteTag (R : Runtime) (c : Client) (w : World)
    (ctx : context.Context) (id : string) : option error * Client * World :=
  let '(r, c1, w1) := Delete R c w ctx ("/tags/" +:+ id) in
  match r with
  | Ok _ => (None, invalidateTagCache c1, w1)
  | Err err => (Some err, c1, w1)
  end.

Definition GetAllTags (R : Runtime) (c : Client) (w : World)
    (ctx : context.Context) : result (list Tag) * Client * World :=
  let '(r, c1, w1) := Get R c w ctx "/tags" in
  match r with
  | Err err => (Err err, c1, w1)
  | Ok resp =>
      match json_Unmarshal_Tags R resp with
      | Err err => (Err (Wrapf "unmarshaling response" err), c1, w1)
      | Ok apiResp => (Ok (Data apiResp), c1, w1)
      end
  end.

(* ===================================================================== *)
(** ** client.go: tasks                                                   *)
(* ===================================================================== *)

Definition invalidateTaskCache (c : Client) : Client := set_taskCache None c.

Definition CreateTask (R : Runtime) (c : Client) (w : World)
    (ctx : context.Context) (task : Task) : result Task * Client * World :=
  let '(r, c1, w1) := Post R c w ctx "/tasks/user" (TaskBody task) in
  match r with
  | Err err => (Err err, c1, w1)
  | Ok resp =>
      match json_Unmarshal_Task R resp with
      | Err err => (Err (Wrapf "unmarshaling response" err), c1, w1)
      | Ok apiResp => (Ok (Data apiResp), invalidateTaskCache c1, w1)
      end
  end.

Definition populateTaskCache (R : Runtime) (c : Client) (w : World)
    (ctx : context.Context) : option error * Client * World :=
  match taskCache c with
  | Some _ => (None, c, w)
  | None =>
      let '(r, c1, w1) := Get R c w ctx "/tasks/user" in
      match r with
      | Err err => (Some err, c1, w1)
      | Ok resp =>
          match json_Unmarshal_Tasks R resp with
          | Err err => (Some (Wrapf "unmarshaling response" err), c1, w1)
          | Ok apiResp =>
              (None, set_taskCache (Some (index_by Task_ID (Data apiResp))) c1, w1)
          end
      end
  end.

Definition GetTask (R : Runtime) (c : Client) (w : World)
    (ctx : context.Context) (id : string) : result Task * Client * World :=
  match cache_lookup (taskCache c) id with
  | Some task => (Ok task, c, w)
  | None =>
      let '(perr, c1, w1) := populateTaskCache R c w ctx in
      match perr with
      | Some err => (Err err, c1, w1)
      | None =>
          match cache_lookup (taskCache c1) id with
          | Some task => (Ok task, c1, w1)
          | None => (Err (Errorf ("task not found: " +:+ id)), c1, w1)
          end
      end
  end.

Definition UpdateTask (R : Runtime) (c : Client) (w : World)
    (ctx : context.Context) (id : string) (task : Task)
    : result Task * Client * World :=
  let '(r, c1, w1) := Put R c w ctx ("/tasks/" +:+ id) (TaskBody task) in
  match r with
  | Err err => (Err err, c1, w1)
  | Ok resp =>
      match json_Unmarshal_Task R resp with
      | Err err => (Err (Wrapf "unmarshaling response" err), c1, w1)
      | Ok apiResp => (Ok (Data apiResp), invalidateTaskCache c1, w1)
      end
  end.

Definition DeleteTask (R : Runtime) (c : Client) (w : World)
    (ctx : context.Context) (id : string) : option error * Client * World :=
  let '(r, c1, w1) := Delete R c w ctx ("/tasks/" +:+ id) in
  match r with
  | Ok _ => (None, invalidateTaskCache c1, w1)
  | Err err => (Some err, c1, w1)
  end.

Definition GetAllTasks (R : Runtime) (c : Client) (w : World)
    (ctx : context.Context) : result (list Task) * Client * World :=
  let '(r, c1, w1) := Get R c w ctx "/tasks/user" in
  match r with
  | Err err => (Err err, c1, w1)
  | Ok resp =>
      match json_Unmarshal_Tasks R resp with
      | Err err => (Err (Wrapf "unmarshaling response" err), c1, w1)
      | Ok apiResp => (Ok (Data apiResp), c1, w1)
      end
  end.

(* ===================================================================== *)
(** ** Reading the outcome of a call                                      *)
(* ===================================================================== *)

Definition result_of {A : Type} (x : A * Client * World) : A := x.1.1.
Definition client_of {A : Type} (x : A * Client * World) : Client := x.1.2.
Definition world_of {A : Type} (x : A * Client * World) : World := x.2.

(** The requests a call added to the log: what [w'] has on top of [w]. *)
Definition made (w w' : World) (l : list Exchange) : Prop :=
  exchanges w' = l ++ exchanges w.

(** [c'] differs from [c] in the two rate-limit fields at most. *)
Definition same_but_rate (c c' : Client) : Prop :=
  c' = set_rateLimitReset (rateLimitReset c')
         (set_rateLimitRemaining (rateLimitRemaining c') c).

(** An outcome of a round trip after which the loop goes on: [Do] failed,
    the body could not be read, or the status is 429. *)
Definition retryable (rt : RoundTrip) : Prop :=
  match rt with
  | DoErr _ => True
  | DoResp resp =>
      match http.Body resp with
      | Err _ => True
      | Ok _ => http.StatusCode resp = 429
      end
  end.

(** The failure the loop records in [lastErr] for such an outcome. *)
Definition failure_of (rt : RoundTrip) : option error :=
  match rt with
  | DoErr err => Some (Wrapf "executing request" err)
  | DoResp resp =>
      match http.Body resp with
      | Err err => Some (Wrapf "reading response body" err)
      | Ok _ =>
          if http.StatusCode resp =? 429 then Some (Errorf "rate limited (429)")
          else None
      end
  end.

(** The network answers the [i]-th request sent once [n0] requests are in
    the log with [script !! i], whatever the request and the clock. *)
Definition answers (R : Runtime) (ctx : context.Context) (n0 : nat)
    (script : list RoundTrip) : Prop :=
  forall hist t req i rt,
    length hist = (n0 + i)%nat ->
    script !! i = Some rt ->
    (httpClient_Do R hist t ctx req).2 = rt.

(** The client after the responses among the outcomes, oldest first. *)
Fixpoint after_responses (c : Client) (l : list RoundTrip) : Client :=
  match l with
  | [] => c
  | DoErr _ :: l' => after_responses c l'
  | DoResp resp :: l' => after_responses (updateRateLimits c resp) l'
  end.


(** The value of [lastErr] after the outcomes of [l], oldest first. *)
Definition last_failure (lastErr : option error) (l : list RoundTrip)
    : option error :=
  fold_left (fun _ rt => failure_of rt) l lastErr.

(** The request can be built: the body marshals and
    [http.NewRequestWithContext] accepts the method and the URL. *)
Definition sendable (R : Runtime) (c : Client) (method path : string)
    (body : option Payload) : Prop :=
  match body with
  | Some b => is_Ok (json_Marshal R b) = true
  | None => True
  end /\
  http_NewRequest_err R method (baseURL c +:+ path) = None.

(** What [do] returns for a readable response that is not a 429. *)
Definition verdict (R : Runtime) (resp : http.Response) (respBody : string)
    : result string :=
  if 400 <=? http.StatusCode resp
  then Err (apiError R (http.StatusCode resp) respBody)
  else Ok respBody.

(* ===================================================================== *)
(** ** Concrete runtimes, for the examples                                *)
(* ===================================================================== *)

Definition envelope {T : Type} (data : T) : APIResponse T :=
  {| Success := true; Data := data; Error := ""; Message := "" |}.

Definition tag1 : Tag := {| Tag_ID := "tag-1"; Tag_Name := "work" |}.
Definition tag2 : Tag := {| Tag_ID := "tag-2"; Tag_Name := "exercise" |}.

(** [Task{ID: id, Type: type, Text: text}]. *)
Definition task_of (id type text : string) : Task :=
  {| Task_ID := id; Task_Type := type; Task_Text := text; Notes := "";
     Alias := ""; Tags := []; Priority := 0%float; Attribute := "";
     Up := None; Down := None; CounterUp := 0; CounterDown := 0;
     Frequency := ""; EveryX := 0; StartDate := None; Repeat := None;
     DaysOfMonth := []; WeeksOfMonth := []; Streak := 0; IsDue := false;
     NextDue := []; Value := 0%float |}.

Definition task1 : Task := task_of "task-1" "habit" "Exercise".
Definition task2 : Task := task_of "task-2" "daily" "Meditate".

(** A response without headers whose body can be read. *)
Definition response (status : Z) (body : string) : http.Response :=
  {| http.StatusCode := status; http.RespHeader := ∅; http.Body := Ok body |}.

(** A runtime over a service [serve] that decides, from the exchanges so
    far and the request, how long it takes and what it answers.  A context
    that is done before the answer arrives fails the round trip at that
    instant.  Bodies are named rather than spelled out in JSON: the
    decoders know the bodies the examples use and reject every other. *)
Definition toy_runtime (serve : list Exchange -> http.Request -> Z * RoundTrip)
    : Runtime :=
  {| json_Marshal := fun _ => Ok "{}";
     json_Unmarshal_any := fun s =>
       if String.eqb s "invalid-input" then
         Ok {| Success := false; Data := JNull; Error := "ValidationError";
               Message := "Invalid input" |}
       else if String.eqb s "bad-request" then
         Ok {| Success := false; Data := JNull; Error := "Bad request";
               Message := "" |}
       else Err (LibError "invalid character");
     json_Unmarshal_Tag := fun s =>
       if String.eqb s "tag-1" then Ok (envelope tag1)
       else Err (LibError "invalid character");
     json_Unmarshal_Tags := fun s =>
       if String.eqb s "tags" then Ok (envelope [tag1; tag2])
       else Err (LibError "invalid character");
     json_Unmarshal_Task := fun s =>
       if String.eqb s "task-1" then Ok (envelope task1)
       else Err (LibError "invalid character");
     json_Unmarshal_Tasks := fun s =>
       if String.eqb s "tasks" then Ok (envelope [task1; task2])
       else Err (LibError "invalid character");
     http_NewRequest_err := fun _ _ => None;
     httpClient_Do := fun hist t ctx req =>
       let '(latency, rt) := serve hist req in
       match context.doneAt ctx with
       | Some d =>
           if d <? t + latency
           then (Z.max 0 (d - t), DoErr (Wrapf "Get" (CtxError (context.cause ctx))))
           else (latency, rt)
       | None => (latency, rt)
       end;
     select_tie := fun _ => true |}.

(** The service that gives the same answer to every request, at once. *)
Definition always (rt : RoundTrip) : list Exchange -> http.Request -> Z * RoundTrip :=
  fun _ _ => (0, rt).

(** The service that plays a script, request after request, then [rt]. *)
Definition playing (script : list RoundTrip) (rt : RoundTrip)
    : list Exchange -> http.Request -> Z * RoundTrip :=
  fun hist _ => (0, nth (length hist) script rt).

Definition test_config (retries : Z) : Config :=
  {| UserID := "test-user"; APIKey := "test-key";
     ClientAuthorID := "test-author"; ClientAppName := "";
     RateLimitBuffer := 0; MaxRetries := retries;
     BaseRetryDelay := 10 * time.Millisecond |}.

(** The world at the start of a test: the clock at the given reading, in
    nanoseconds since the epoch, and no request sent yet. *)
Definition fresh_world (t : Z) : World := {| now := t; exchanges := [] |}.

(** The first value of a header of the response, when the header is there. *)
Definition header_value (resp : http.Response) (key : string) : option string :=
  match http.RespHeader resp !! textproto.CanonicalMIMEHeaderKey key with
  | Some (v :: _) => Some v
  | _ => None
  end.

(** The number a header of the response carries: [None] when the header is
    absent or its value does not parse. *)
Definition header_number (parse : string -> option Z) (resp : http.Response)
    (key : string) : option Z :=
  match header_value resp key with
  | Some v => parse v
  | None => None
  end.

(** The context is done before the timer of a wait of [d] that starts at
    [t] fires. *)
Definition cancelled_before (ctx : context.Context) (t d : Z) : Prop :=
  exists tc, context.doneAt ctx = Some tc /\ tc < t + Z.max 0 d.

(** The instant at which such a wait is left. *)
Definition cancelled_at (ctx : context.Context) (t : Z) : Z :=
  match context.doneAt ctx with
  | Some tc => Z.max t tc
  | None => t
  end.

(** The loop is in the backoff wait of iteration [attempt] when the context
    is done. *)
Definition cancelled_in_backoff (ctx : context.Context) (c : Client)
    (attempt t : Z) : Prop :=
  0 < attempt /\ cancelled_before ctx t (backoffDelay c attempt).

(** The loop is in the rate-limit wait that starts at [t1] when the context
    is done. *)
Definition cancelled_in_rate_wait (ctx : context.Context) (c : Client)
    (t1 : Z) : Prop :=
  rateLimitRemaining c < rateLimitBuffer c /\
  t1 < rateLimitReset c /\
  cancelled_before ctx t1 (time.Until t1 (rateLimitReset c)).

(* ===================================================================== *)
(** ** Mutations, by kind                                                 *)
(* ===================================================================== *)

Definition error_of {A : Type} (r : result A) : option error :=
  match r with
  | Ok _ => None
  | Err err => Some err
  end.

(** The three mutations of a tag, and the error each returns. *)
Inductive TagMutation :=
| TagCreate (name : string)
| TagUpdate (id name : string)
| TagDelete (id : string).

Definition tag_mutation (R : Runtime) (c : Client) (w : World)
    (ctx : context.Context) (m : TagMutation) : option error * Client * World :=
  match m with
  | TagCreate name =>
      let '(r, c', w') := CreateTag R c w ctx name in (error_of r, c', w')
  | TagUpdate id name =>
      let '(r, c', w') := UpdateTag R c w ctx id name in (error_of r, c', w')
  | TagDelete id => DeleteTag R c w ctx id
  end.

(** The three mutations of a task. *)
Inductive TaskMutation :=
| TaskCreate (task : Task)
| TaskUpdate (id : string) (task : Task)
| TaskDelete (id : string).

Definition task_mutation (R : Runtime) (c : Client) (w : World)
    (ctx : context.Context) (m : TaskMutation) : option error * Client * World :=
  match m with
  | TaskCreate task =>
      let '(r, c', w') := CreateTask R c w ctx task in (error_of r, c', w')
  | TaskUpdate id task =>
      let '(r, c', w') := UpdateTask R c w ctx id task in (error_of r, c', w')
  | TaskDelete id => DeleteTask R c w ctx id
  end.

(* ===================================================================== *)
(** ** Interleaved lookups                                                *)
(* ===================================================================== *)

(** A lookup by id takes the lock of its cache three times: to read, to
    populate, and to read again.  What runs under one holding of the lock
    is one step; steps of different lookups interleave in any order. *)

(** Where a lookup stands. *)
Inductive Phase (E : Type) :=
| AtCheck                  (* about to read the cache *)
| AtPopulate               (* missed: about to populate *)
| AtRecheck                (* populated: about to read again *)
| Returned (r : result E). (* back to the caller *)
Arguments AtCheck {E}.
Arguments AtPopulate {E}.
Arguments AtRecheck {E}.
Arguments Returned {E} r.

(** What a step did. *)
Inductive Event :=
| Read                     (* read the cache, or nothing left to do *)
| Skipped                  (* entered populate and found the cache populated *)
| Fetched (ok : bool).     (* made the bulk-list call; [ok]: the cache is populated *)

Definition is_fetch (e : Event) : bool :=
  match e with Fetched _ => true | _ => false end.

Section Lookups.

Variable E : Type.
(** the cache of the kind, its populate method and its not-found error *)
Variable cache : Client -> option (gmap string E).
Variable populate :
  Client -> World -> context.Context -> option error * Client * World.
Variable not_found : string -> error.

Definition lookup_step (ctx : context.Context) (id : string) (ph : Phase E)
    (c : Client) (w : World) : Phase E * Event * Client * World :=
  match ph with
  | AtCheck =>
      match cache_lookup (cache c) id with
      | Some e => (Returned (Ok e), Read, c, w)
      | None => (AtPopulate, Read, c, w)
      end
  | AtPopulate =>
      let '(perr, c1, w1) := populate c w ctx in
      let ev := match cache c with
                | Some _ => Skipped
                | None => Fetched (bool_decide (is_Some (cache c1)))
                end in
      match perr with
      | Some err => (Returned (Err err), ev, c1, w1)
      | None => (AtRecheck, ev, c1, w1)
      end
  | AtRecheck =>
      match cache_lookup (cache c) id with
      | Some e => (Returned (Ok e), Read, c, w)
      | None => (Returned (Err (not_found id)), Read, c, w)
      end
  | Returned r => (Returned r, Read, c, w)
  end.

(** A lookup in flight: its context, its id and where it stands. *)
Record Lookup := {
  lk_ctx : context.Context;
  lk_id : string;
  lk_phase : Phase E
}.

(** The lookups of [pool] run in the order [sched] names them (a name out
    of range is passed over); the events come out oldest first. *)
Fixpoint interleave (sched : list nat) (pool : list Lookup) (c : Client)
    (w : World) : list Event * list Lookup * Client * World :=
  match sched with
  | [] => ([], pool, c, w)
  | i :: sched' =>
      match pool !! i with
      | None => interleave sched' pool c w
      | Some lk =>
          let '(ph, ev, c1, w1) := lookup_step (lk_ctx lk) (lk_id lk) (lk_phase lk) c w in
          let '(evs, pool', c', w') :=
            interleave sched'
              (<[i := {| lk_ctx := lk_ctx lk; lk_id := lk_id lk; lk_phase := ph |}]> pool)
              c1 w1 in
          (ev :: evs, pool', c', w')
      end
  end.

(** One lookup run alone, from its first step to its return. *)
Definition lookup_alone (ctx : context.Context) (id : string) (c : Client)
    (w : World) : Phase E * Client * World :=
  let '(ph1, _, c1, w1) := lookup_step ctx id AtCheck c w in
  let '(ph2, _, c2, w2) := lookup_step ctx id ph1 c1 w1 in
  let '(ph3, _, c3, w3) := lookup_step ctx id ph2 c2 w2 in
  (ph3, c3, w3).

End Lookups.

Arguments lookup_step {E} cache populate not_found ctx id ph c w.
Arguments interleave {E} cache populate not_found sched pool c w.
Arguments lookup_alone {E} cache populate not_found ctx id c w.
Arguments lk_ctx {E} _.
Arguments lk_id {E} _.
Arguments lk_phase {E} _.

Definition tag_not_found (id : string) : error := Errorf ("tag not found: " +:+ id).
Definition task_not_found (id : string) : error := Errorf ("task not found: " +:+ id).

(** The steps of [GetTag] and of [GetTask]. *)
Definition GetTag_step (R : Runtime) :=
  lookup_step tagCache (populateTagCache R) tag_not_found.
Definition GetTask_step (R : Runtime) :=
  lookup_step taskCache (populateTaskCache R) task_not_found.

Definition GetTags_interleaved (R : Runtime) :=
  interleave tagCache (populateTagCache R) tag_not_found.
Definition GetTasks_interleaved (R : Runtime) :=
  interleave taskCache (populateTaskCache R) task_not_found.

(** Lookups one after the other, each run to its end: the results, oldest
    first, and the state they leave. *)
Fixpoint GetTag_each (R : Runtime) (calls : list (context.Context * string))
    (c : Client) (w : World) : list (result Tag) * Client * World :=
  match calls with
  | [] => ([], c, w)
  | (ctx, id) :: calls' =>
      let '(r, c1, w1) := GetTag R c w ctx id in
      let '(rs, c', w') := GetTag_each R calls' c1 w1 in
      (r :: rs, c', w')
  end.

Fixpoint GetTask_each (R : Runtime) (calls : list (context.Context * string))
    (c : Client) (w : World) : list (result Task) * Client * World :=
  match calls with
  | [] => ([], c, w)
  | (ctx, id) :: calls' =>
      let '(r, c1, w1) := GetTask R c w ctx id in
      let '(rs, c', w') := GetTask_each R calls' c1 w1 in
      (r :: rs, c', w')
  end.

(** The method and the URL of the requests in the log, last one first. *)
Definition sent (w : World) : list (string * string) :=
  map (fun e => (http.Method (ex_req e), http.URL (ex_req e))) (exchanges w).

(** The last request of the log was sent with this method to this URL and
    answered with a status below 400 and this body. *)
Definition answered_below_400 (w : World) (method url body : string) : Prop :=
  exists ex rest resp,
    exchanges w = ex :: rest /\
    ex_res ex = DoResp resp /\
    http.Body resp = Ok body /\
    http.StatusCode resp < 400 /\
    http.Method (ex_req ex) = method /\
    http.URL (ex_req ex) = url.

(** The lookup of a tag by a bulk-list call alone, reading no cache: what
    the call returns decides the result, and the list it returns becomes
    the cache. *)
Definition GetTag_by_fetch (R : Runtime) (c : Client) (w : World)
    (ctx : context.Context) (id : string) : result Tag * Client * World :=
  let '(r, c1, w1) := Get R c w ctx "/tags" in
  match r with
  | Err err => (Err err, c1, w1)
  | Ok resp =>
      match json_Unmarshal_Tags R resp with
      | Err err => (Err (Wrapf "unmarshaling response" err), c1, w1)
      | Ok apiResp =>
          (match index_by Tag_ID (Data apiResp) !! id with
           | Some tag => Ok tag
           | None => Err (tag_not_found id)
           end,
           set_tagCache (Some (index_by Tag_ID (Data apiResp))) c1, w1)
      end
  end.

Definition GetTask_by_fetch (R : Runtime) (c : Client) (w : World)
    (ctx : context.Context) (id : string) : result Task * Client * World :=
  let '(r, c1, w1) := Get R c w ctx "/tasks/user" in
  match r with
  | Err err => (Err err, c1, w1)
  | Ok resp =>
      match json_Unmarshal_Tasks R resp with
      | Err err => (Err (Wrapf "unmarshaling response" err), c1, w1)
      | Ok apiResp =>
          (match index_by Task_ID (Data apiResp) !! id with
           | Some task => Ok task
           | None => Err (task_not_found id)
           end,
           set_taskCache (Some (index_by Task_ID (Data apiResp))) c1, w1)
      end
  end.

(** A service for the cache examples: it lists two tags or two tasks on a
    GET and answers every other request with the first tag or task. *)
Definition habitica : list Exchange -> http.Request -> Z * RoundTrip :=
  fun _ req =>
    if String.eqb (http.Method req) "GET" then
      if String.eqb (http.URL req) (DefaultBaseURL +:+ "/tags")
      then (0, DoResp (response 200 "tags"))
      else (0, DoResp (response 200 "tasks"))
    else if String.prefix (DefaultBaseURL +:+ "/tags") (http.URL req)
      then (0, DoResp (response 200 "tag-1"))
      else (0, DoResp (response 200 "task-1")).

(** The same service behind a proxy that cuts every body short. *)
Definition habitica_truncated : list Exchange -> http.Request -> Z * RoundTrip :=
  fun _ _ => (0, DoResp (response 200 "{")).

(** The errors [do] can return. *)
Inductive do_error (R : Runtime) : error -> Prop :=
| do_error_marshal err : do_error R (Wrapf "marshaling request body" err)
| do_error_ctx k : do_error R (CtxError k)
| do_error_request err : do_error R (Wrapf "creating request" err)
| do_error_api status respBody : do_error R (apiError R status respBody)
| do_error_exhausted lastErr : do_error R (wrap "max retries exceeded" lastErr).

(** A client whose tag cache holds the two tags of the examples. *)
Definition client_with_tags : Client :=
  set_tagCache (Some (index_by Tag_ID [tag1; tag2])) (New (test_config 0)).

(** Two lookups in flight, for two ids, neither of them started. *)
Definition two_lookups : list (Lookup Tag) :=
  [ {| lk_ctx := context.Background; lk_id := "tag-1"; lk_phase := AtCheck |};
    {| lk_ctx := context.Background; lk_id := "tag-2"; lk_phase := AtCheck |} ].

(** What a lookup served from a populated cache returns. *)
Definition served {E : Type} (cache : option (gmap string E))
    (not_found : string -> error) (id : string) : result E :=
  match cache_lookup cache id with
  | Some e => Ok e
  | None => Err (not_found id)
  end.

(** The service answers every request for the list at [url] that is made
    under a context that is never done with a status below 400 and a body
    that [decodes]. *)
Definition lists (R : Runtime) (url : string) (decodes : string -> Prop) : Prop :=
  forall hist t ctx req,
    context.doneAt ctx = None ->
    http.Method req = "GET" ->
    http.URL req = url ->
    exists resp body,
      (httpClient_Do R hist t ctx req).2 = DoResp resp /\
      http.StatusCode resp < 400 /\
      http.Body resp = Ok body /\
      decodes body.

Definition decodes_Tags (R : Runtime) (body : string) : Prop :=
  is_Ok (json_Unmarshal_Tags R body) = true.

Definition decodes_Tasks (R : Runtime) (body : string) : Prop :=
  is_Ok (json_Unmarshal_Tasks R body) = true.

(** The contexts of the lookups of a pool are never done. *)
Definition never_cancelled {E : Type} (pool : list (Lookup E)) : Prop :=
  Forall (fun lk => context.doneAt (lk_ctx lk) = None) pool.
(* ===================================================================== *)
(** ** client.go: webhooks                                                *)
(* ===================================================================== *)

(** [WebhookOptions] and [Webhook] of types.go. *)
Record WebhookOptions := {
  Created : bool;
  Updated : bool;
  Deleted : bool;
  Scored : bool;
  ChecklistScored : bool
}.

Record Webhook := {
  Webhook_ID : string;
  Webhook_URL : string;
  Label : string;
  Webhook_Type : string;
  Enabled : bool;
  Options : WebhookOptions
}.

(** The webhook methods that send no body.  ([CreateWebhook] and
    [UpdateWebhook] hand a [*Webhook] to [do] as the body, which [Payload]
    does not cover.)  The decoder of the list of webhooks is a decision of
    the runtime, like those of [Runtime]. *)
Section Webhooks.

Variable json_Unmarshal_Webhooks : string -> result (APIResponse (list Webhook)).

Definition GetWebhooks (R : Runtime) (c : Client) (w : World)
    (ctx : context.Context) : result (list Webhook) * Client * World :=
  let '(r, c1, w1) := Get R c w ctx "/user/webhook" in
  match r with
  | Err err => (Err err, c1, w1)
  | Ok resp =>
      match json_Unmarshal_Webhooks resp with
      | Err err => (Err (Wrapf "unmarshaling response" err), c1, w1)
      | Ok apiResp => (Ok (Data apiResp), c1, w1)
      end
  end.

(** [GetWebhook]: the list is fetched on every call and scanned from its
    first entry; the first webhook with the id is returned. *)
Definition GetWebhook (R : Runtime) (c : Client) (w : World)
    (ctx : context.Context) (id : string) : result Webhook * Client * World :=
  let '(r, c1, w1) := GetWebhooks R c w ctx in
  match r with
  | Err err => (Err err, c1, w1)
  | Ok webhooks =>
      match find (fun wh => String.eqb (Webhook_ID wh) id) webhooks with
      | Some wh => (Ok wh, c1, w1)
      | None => (Err (Errorf ("webhook not found: " +:+ id)), c1, w1)
      end
  end.

End Webhooks.

Definition DeleteWebhook (R : Runtime) (c : Client) (w : World)
    (ctx : context.Context) (id : string) : option error * Client * World :=
  let '(r, c1, w1) := Delete R c w ctx ("/user/webhook/" +:+ id) in
  (error_of r, c1, w1).

(* ===================================================================== *)
(** ** The values and diagnostics of the plugin framework                 *)
(* ===================================================================== *)

Module types.

(** A [types.String], [types.Bool], [types.Int64] or [types.Float64]:
    null, unknown, or a known value. *)
Inductive Value (A : Type) :=
| Null
| Unknown
| Known (a : A).
Arguments Null {A}.
Arguments Unknown {A}.
Arguments Known {A} a.

Definition IsNull {A : Type} (v : Value A) : bool :=
  match v with Null => true | _ => false end.

Definition IsUnknown {A : Type} (v : Value A) : bool :=
  match v with Unknown => true | _ => false end.

(** [v.ValueString()] and the like: the known value, or the zero value of
    the Go type when [v] is null or unknown. *)
Definition ValueString (v : Value string) : string :=
  match v with Known s => s | _ => "" end.

Definition ValueBool (v : Value bool) : bool :=
  match v with Known b => b | _ => false end.

Definition ValueInt64 (v : Value Z) : Z :=
  match v with Known n => n | _ => 0 end.

Definition ValueFloat64 (v : Value float) : float :=
  match v with Known f => f | _ => 0%float end.

Definition StringValue (s : string) : Value string := Known s.
Definition BoolValue (b : bool) : Value bool := Known b.
Definition Int64Value (n : Z) : Value Z := Known n.
Definition Float64Value (f : float) : Value float := Known f.

End types.

Module diag.

(** A diagnostic, by its severity, summary and detail (the attribute path
    some diagnostics of the framework carry is left out). *)
Inductive Diagnostic :=
| ErrorDiagnostic (summary detail : string)
| WarningDiagnostic (summary detail : string).

Definition is_error (d : Diagnostic) : bool :=
  match d with ErrorDiagnostic _ _ => true | WarningDiagnostic _ _ => false end.

Definition eqb (d1 d2 : Diagnostic) : bool :=
  match d1, d2 with
  | ErrorDiagnostic s1 t1, ErrorDiagnostic s2 t2 => String.eqb s1 s2 && String.eqb t1 t2
  | WarningDiagnostic s1 t1, WarningDiagnostic s2 t2 => String.eqb s1 s2 && String.eqb t1 t2
  | _, _ => false
  end.

(** [diag.Diagnostics], oldest first. *)
Definition Diagnostics := list Diagnostic.

Definition HasError (diags : Diagnostics) : bool := existsb is_error diags.

(** [diags.Contains(d)]: some diagnostic of [diags] equals [d]. *)
Definition Contains (diags : Diagnostics) (d : Diagnostic) : bool :=
  existsb (eqb d) diags.

(** [diags.Append(in...)]: a diagnostic already present is not added again. *)
Definition Append (diags : Diagnostics) (new : Diagnostics) : Diagnostics :=
  fold_left (fun acc d => if Contains acc d then acc else acc ++ [d]) new diags.

Definition AddError (diags : Diagnostics) (summary detail : string) : Diagnostics :=
  Append diags [ErrorDiagnostic summary detail].

End diag.

(* ===================================================================== *)
(** ** provider.go: the configuration of the provider                     *)
(* ===================================================================== *)

Record HabiticaProviderModel := {
  pm_UserID : types.Value string;
  pm_APIToken : types.Value string;
  pm_ClientAuthorID : types.Value string;
  pm_ClientAppName : types.Value string;
  pm_RateLimitBuffer : types.Value Z
}.

Section Provider.

(** [os.Getenv]: the value of a variable of the environment, empty when it
    is not set. *)
Variable os_Getenv : string -> string.

Definition getConfigOrEnv (configValue : types.Value string) (envVar : string)
    : string :=
  if negb (types.IsNull configValue)
     && negb (String.eqb (types.ValueString configValue) "")
  then types.ValueString configValue
  else os_Getenv envVar.

(** [Configure], from the result of [req.Config.Get]: the diagnostics of
    the response and the client handed to the resources and data sources
    ([None]: [Configure] returned before it made one). *)
Definition Configure (got : diag.Diagnostics) (config : HabiticaProviderModel)
    : diag.Diagnostics * option Client :=
  let diags := diag.Append [] got in
  if diag.HasError diags then (diags, None)
  else
    let userID := getConfigOrEnv (pm_UserID config) "HABITICA_USER_ID" in
    let apiToken := getConfigOrEnv (pm_APIToken config) "HABITICA_API_TOKEN" in
    let clientAuthorID :=
      getConfigOrEnv (pm_ClientAuthorID config) "HABITICA_CLIENT_AUTHOR_ID" in
    let diags :=
      if String.eqb userID "" then
        diag.AddError diags "Missing User ID"
          "The provider requires a user_id to be set in the configuration or via the HABITICA_USER_ID environment variable."
      else diags in
    let diags :=
      if String.eqb apiToken "" then
        diag.AddError diags "Missing API Token"
          "The provider requires an api_token to be set in the configuration or via the HABITICA_API_TOKEN environment variable."
      else diags in
    let diags :=
      if String.eqb clientAuthorID "" then
        diag.AddError diags "Missing Client Author ID"
          "The provider requires a client_author_id to be set in the configuration or via the HABITICA_CLIENT_AUTHOR_ID environment variable."
      else diags in
    if diag.HasError diags then (diags, None)
    else
      let clientAppName :=
        if negb (types.IsNull (pm_ClientAppName config))
        then types.ValueString (pm_ClientAppName config) else "" in
      let rateLimitBuffer :=
        if negb (types.IsNull (pm_RateLimitBuffer config))
        then types.ValueInt64 (pm_RateLimitBuffer config) else 0 in
      (diags,
       Some (New {| UserID := userID;
                    APIKey := apiToken;
                    ClientAuthorID := clientAuthorID;
                    ClientAppName := clientAppName;
                    RateLimitBuffer := rateLimitBuffer;
                    MaxRetries := 0;
                    BaseRetryDelay := 2 * time.Second |})).

End Provider.

(* ===================================================================== *)
(** ** The user_tasks data source                                         *)
(* ===================================================================== *)

Record dailyOutput := {
  daily_ID : string;
  daily_Text : string;
  daily_Notes : string;
  daily_Completed : bool;
  daily_IsDue : bool;
  daily_Tags : list string;
  daily_Streak : Z;
  daily_Frequency : string
}.

Record habitOutput := {
  habit_ID : string;
  habit_Text : string;
  habit_Notes : string;
  habit_CounterUp : Z;
  habit_CounterDown : Z;
  habit_Tags : list string
}.

Record todoOutput := {
  todo_ID : string;
  todo_Text : string;
  todo_Notes : string;
  todo_Completed : bool;
  todo_Tags : list string
}.

Record tasksOutput := {
  Dailies : list dailyOutput;
  Habits : list habitOutput;
  Todos : list todoOutput
}.

(** What [Read] leaves in the response: the diagnostics, and the [json]
    attribute of the state when it was set. *)
Record ReadResponse := {
  Diagnostics : diag.Diagnostics;
  State : option string
}.

Section UserTasks.

(** [task.Completed]: [Read] uses this field of [client.Task], which
    types.go does not declare. *)
Variable Completed : Task -> bool.
(** [json.MarshalIndent(output, "", "  ")] *)
Variable json_MarshalIndent : tasksOutput -> result string.
(** the diagnostics of [resp.State.Set] for the value of the attribute *)
Variable State_Set : string -> diag.Diagnostics.

(** The tag id to name map: a later tag with the same id replaces the name
    of an earlier one. *)
Definition tagMap_of (tags : list Tag) : gmap string string :=
  fold_left (fun m tag => <[Tag_ID tag := Tag_Name tag]> m) tags ∅.

(** The inner loop: the names of the ids the map knows, in their order. *)
Definition resolveTags (tagMap : gmap string string) (ids : list string)
    : list string :=
  fold_left (fun resolved tagID =>
               match tagMap !! tagID with
               | Some name => resolved ++ [name]
               | None => resolved
               end) ids [].

(** One turn of the loop over the tasks. *)
Definition categorize (tagMap : gmap string string) (output : tasksOutput)
    (task : Task) : tasksOutput :=
  let resolvedTags := resolveTags tagMap (Tags task) in
  if String.eqb (Task_Type task) "daily" then
    {| Dailies := Dailies output ++
         [{| daily_ID := Task_ID task;
             daily_Text := Task_Text task;
             daily_Notes := Notes task;
             daily_Completed := Completed task;
             daily_IsDue := IsDue task;
             daily_Tags := resolvedTags;
             daily_Streak := Streak task;
             daily_Frequency := Frequency task |}];
       Habits := Habits output;
       Todos := Todos output |}
  else if String.eqb (Task_Type task) "habit" then
    {| Dailies := Dailies output;
       Habits := Habits output ++
         [{| habit_ID := Task_ID task;
             habit_Text := Task_Text task;
             habit_Notes := Notes task;
             habit_CounterUp := CounterUp task;
             habit_CounterDown := CounterDown task;
             habit_Tags := resolvedTags |}];
       Todos := Todos output |}
  else if String.eqb (Task_Type task) "todo" then
    {| Dailies := Dailies output;
       Habits := Habits output;
       Todos := Todos output ++
         [{| todo_ID := Task_ID task;
             todo_Text := Task_Text task;
             todo_Notes := Notes task;
             todo_Completed := Completed task;
             todo_Tags := resolvedTags |}] |}
  else output.

(** The output [Read] serializes, from the tasks and the tags fetched. *)
Definition output_of (tasks : list Task) (tags : list Tag) : tasksOutput :=
  fold_left (categorize (tagMap_of tags)) tasks
    {| Dailies := []; Habits := []; Todos := [] |}.

(** [Read] of the data source. *)
Definition userTasks_Read (R : Runtime) (c : Client) (w : World)
    (ctx : context.Context) : ReadResponse * Client * World :=
  let '(r1, c1, w1) := GetAllTasks R c w ctx in
  match r1 with
  | Err err =>
      ({| Diagnostics := diag.AddError [] "Error fetching tasks" (error_Error err);
          State := None |}, c1, w1)
  | Ok tasks =>
      let '(r2, c2, w2) := GetAllTags R c1 w1 ctx in
      match r2 with
      | Err err =>
          ({| Diagnostics := diag.AddError [] "Error fetching tags" (error_Error err);
              State := None |}, c2, w2)
      | Ok tags =>
          match json_MarshalIndent (output_of tasks tags) with
          | Err err =>
              ({| Diagnostics :=
                    diag.AddError [] "Error serializing to JSON" (error_Error err);
                  State := None |}, c2, w2)
          | Ok jsonBytes =>
              ({| Diagnostics := diag.Append [] (State_Set jsonBytes);
                  State := Some jsonBytes |}, c2, w2)
          end
      end
  end.

End UserTasks.

(* ===================================================================== *)
(** ** The resources                                                      *)
(* ===================================================================== *)

(** What a method of a resource leaves in its response: the diagnostics,
    and the model it handed to [resp.State.Set] when it came that far.
    Each method is taken from the point where the framework has decoded the
    plan or the state into the model; the diagnostics of that decoding are
    an argument ([got]), and so are those of [resp.State.Set]. *)
Record ResourceResponse (M : Type) := {
  res_Diagnostics : diag.Diagnostics;
  res_State : option M
}.
Arguments res_Diagnostics {M} _.
Arguments res_State {M} _.

(** [getBoolWithDefault], the same in the daily and the habit package. *)
Definition getBoolWithDefault (val : types.Value bool) (defaultVal : bool) : bool :=
  if types.IsNull val || types.IsUnknown val then defaultVal
  else types.ValueBool val.

(** *** The tag resource *)

Record tagResourceModel := {
  tm_ID : types.Value string;
  tm_Name : types.Value string
}.

Section TagResource.

Variable State_Set : tagResourceModel -> diag.Diagnostics.

Definition tag_Create (R : Runtime) (c : Client) (w : World)
    (ctx : context.Context) (got : diag.Diagnostics) (plan : tagResourceModel)
    : ResourceResponse tagResourceModel * Client * World :=
  let diags := diag.Append [] got in
  if diag.HasError diags then
    ({| res_Diagnostics := diags; res_State := None |}, c, w)
  else
    let '(r, c1, w1) := CreateTag R c w ctx (types.ValueString (tm_Name plan)) in
    match r with
    | Err err =>
        ({| res_Diagnostics :=
              diag.AddError diags "Error creating tag" (error_Error err);
            res_State := None |}, c1, w1)
    | Ok tag =>
        let plan := {| tm_ID := types.StringValue (Tag_ID tag);
                       tm_Name := types.StringValue (Tag_Name tag) |} in
        ({| res_Diagnostics := diag.Append diags (State_Set plan);
            res_State := Some plan |}, c1, w1)
    end.

Definition tag_Read (R : Runtime) (c : Client) (w : World)
    (ctx : context.Context) (got : diag.Diagnostics) (state : tagResourceModel)
    : ResourceResponse tagResourceModel * Client * World :=
  let diags := diag.Append [] got in
  if diag.HasError diags then
    ({| res_Diagnostics := diags; res_State := None |}, c, w)
  else
    let '(r, c1, w1) := GetTag R c w ctx (types.ValueString (tm_ID state)) in
    match r with
    | Err err =>
        ({| res_Diagnostics :=
              diag.AddError diags "Error reading tag" (error_Error err);
            res_State := None |}, c1, w1)
    | Ok tag =>
        let state := {| tm_ID := tm_ID state;
                        tm_Name := types.StringValue (Tag_Name tag) |} in
        ({| res_Diagnostics := diag.Append diags (State_Set state);
            res_State := Some state |}, c1, w1)
    end.

Definition tag_Update (R : Runtime) (c : Client) (w : World)
    (ctx : context.Context) (gotPlan : diag.Diagnostics) (plan : tagResourceModel)
    (gotState : diag.Diagnostics) (state : tagResourceModel)
    : ResourceResponse tagResourceModel * Client * World :=
  let diags := diag.Append [] gotPlan in
  if diag.HasError diags then
    ({| res_Diagnostics := diags; res_State := None |}, c, w)
  else
    let diags := diag.Append diags gotState in
    if diag.HasError diags then
      ({| res_Diagnostics := diags; res_State := None |}, c, w)
    else
      let '(r, c1, w1) :=
        UpdateTag R c w ctx (types.ValueString (tm_ID state))
          (types.ValueString (tm_Name plan)) in
      match r with
      | Err err =>
          ({| res_Diagnostics :=
                diag.AddError diags "Error updating tag" (error_Error err);
              res_State := None |}, c1, w1)
      | Ok tag =>
          let plan := {| tm_ID := tm_ID state;
                         tm_Name := types.StringValue (Tag_Name tag) |} in
          ({| res_Diagnostics := diag.Append diags (State_Set plan);
              res_State := Some plan |}, c1, w1)
      end.

End TagResource.

(** [Delete] sets no state. *)
Definition tag_Delete (R : Runtime) (c : Client) (w : World)
    (ctx : context.Context) (got : diag.Diagnostics) (state : tagResourceModel)
    : ResourceResponse tagResourceModel * Client * World :=
  let diags := diag.Append [] got in
  if diag.HasError diags then
    ({| res_Diagnostics := diags; res_State := None |}, c, w)
  else
    let '(r, c1, w1) := DeleteTag R c w ctx (types.ValueString (tm_ID state)) in
    match r with
    | Some err =>
        ({| res_Diagnostics :=
              diag.AddError diags "Error deleting tag" (error_Error err);
            res_State := None |}, c1, w1)
    | None => ({| res_Diagnostics := diags; res_State := None |}, c1, w1)
    end.

(** *** The webhook resource: the two conversions *)

Record optionsModel := {
  om_Created : types.Value bool;
  om_Updated : types.Value bool;
  om_Deleted : types.Value bool;
  om_Scored : types.Value bool;
  om_ChecklistScored : types.Value bool
}.

Record webhookResourceModel := {
  wm_ID : types.Value string;
  wm_URL : types.Value string;
  wm_Label : types.Value string;
  wm_Type : types.Value string;
  wm_Enabled : types.Value bool;
  wm_Options : option optionsModel
}.

Definition modelToWebhook (model : webhookResourceModel) : Webhook :=
  {| Webhook_ID := "";
     Webhook_URL := types.ValueString (wm_URL model);
     Label := types.ValueString (wm_Label model);
     Webhook_Type := types.ValueString (wm_Type model);
     Enabled := types.ValueBool (wm_Enabled model);
     Options :=
       match wm_Options model with
       | Some o =>
           {| Created := types.ValueBool (om_Created o);
              Updated := types.ValueBool (om_Updated o);
              Deleted := types.ValueBool (om_Deleted o);
              Scored := types.ValueBool (om_Scored o);
              ChecklistScored := types.ValueBool (om_ChecklistScored o) |}
       | None =>
           {| Created := false; Updated := false; Deleted := false;
              Scored := false; ChecklistScored := false |}
       end |}.

Definition updateModelFromWebhook (model : webhookResourceModel)
    (webhook : Webhook) : webhookResourceModel :=
  {| wm_ID := wm_ID model;
     wm_URL := types.StringValue (Webhook_URL webhook);
     wm_Label := types.StringValue (Label webhook);
     wm_Type := types.StringValue (Webhook_Type webhook);
     wm_Enabled := types.BoolValue (Enabled webhook);
     wm_Options :=
       Some {| om_Created := types.BoolValue (Created (Options webhook));
               om_Updated := types.BoolValue (Updated (Options webhook));
               om_Deleted := types.BoolValue (Deleted (Options webhook));
               om_Scored := types.BoolValue (Scored (Options webhook));
               om_ChecklistScored :=
                 types.BoolValue (ChecklistScored (Options webhook)) |} |}.

(** [Read] and [Delete] of the webhook resource.  ([Create] and [Update]
    call [CreateWebhook] and [UpdateWebhook].) *)
Section WebhookResource.

Variable json_Unmarshal_Webhooks : string -> result (APIResponse (list Webhook)).
Variable State_Set : webhookResourceModel -> diag.Diagnostics.

Definition webhook_Read (R : Runtime) (c : Client) (w : World)
    (ctx : context.Context) (got : diag.Diagnostics)
    (state : webhookResourceModel)
    : ResourceResponse webhookResourceModel * Client * World :=
  let diags := diag.Append [] got in
  if diag.HasError diags then
    ({| res_Diagnostics := diags; res_State := None |}, c, w)
  else
    let '(r, c1, w1) :=
      GetWebhook json_Unmarshal_Webhooks R c w ctx
        (types.ValueString (wm_ID state)) in
    match r with
    | Err err =>
        ({| res_Diagnostics :=
              diag.AddError diags "Error reading webhook" (error_Error err);
            res_State := None |}, c1, w1)
    | Ok webhook =>
        let state := updateModelFromWebhook state webhook in
        ({| res_Diagnostics := diag.Append diags (State_Set state);
            res_State := Some state |}, c1, w1)
    end.

End WebhookResource.

Definition webhook_Delete (R : Runtime) (c : Client) (w : World)
    (ctx : context.Context) (got : diag.Diagnostics)
    (state : webhookResourceModel)
    : ResourceResponse webhookResourceModel * Client * World :=
  let diags := diag.Append [] got in
  if diag.HasError diags then
    ({| res_Diagnostics := diags; res_State := None |}, c, w)
  else
    let '(r, c1, w1) := DeleteWebhook R c w ctx (types.ValueString (wm_ID state)) in
    match r with
    | Some err =>
        ({| res_Diagnostics :=
              diag.AddError diags "Error deleting webhook" (error_Error err);
            res_State := None |}, c1, w1)
    | None => ({| res_Diagnostics := diags; res_State := None |}, c1, w1)
    end.

(** *** The daily resource *)

Record repeatModel := {
  rm_Monday : types.Value bool;
  rm_Tuesday : types.Value bool;
  rm_Wednesday : types.Value bool;
  rm_Thursday : types.Value bool;
  rm_Friday : types.Value bool;
  rm_Saturday : types.Value bool;
  rm_Sunday : types.Value bool
}.

(** The lists of the framework ([types.List]) and the dates of the Go
    library are not modelled: their operations are parameters. *)
Section TaskResources.

(** [types.List] *)
Variable List : Type.
Variable List_IsNull : List -> bool.
(** [types.ListNull(types.Int64Type)] and [types.ListNull(types.StringType)] *)
Variable ListNull_Int64 : List.
Variable ListNull_String : List.
(** [l.ElementsAs(ctx, &target, false)]: what the target holds after the
    call, and the diagnostics *)
Variable ElementsAs_Int64 : List -> list Z * diag.Diagnostics.
Variable ElementsAs_String : List -> list string * diag.Diagnostics.
(** [types.ListValueFrom(ctx, elemType, elems)] *)
Variable ListValueFrom_Int64 : list Z -> List * diag.Diagnostics.
Variable ListValueFrom_String : list string -> List * diag.Diagnostics.
(** [time.Parse("2006-01-02", s)], [None] for an error, and
    [t.Format("2006-01-02")] *)
Variable time_Parse_date : string -> option Z.
Variable time_Format_date : Z -> string.

Record dailyResourceModel := {
  dm_ID : types.Value string;
  dm_Text : types.Value string;
  dm_Notes : types.Value string;
  dm_Priority : types.Value float;
  dm_Frequency : types.Value string;
  dm_EveryX : types.Value Z;
  dm_StartDate : types.Value string;
  dm_Repeat : option repeatModel;
  dm_DaysOfMonth : List;
  dm_WeeksOfMonth : List;
  dm_Tags : List
}.

(** [modelToTask]: the task, and the diagnostics with those of the lists
    appended. *)
Definition modelToTask (model : dailyResourceModel) (diags : diag.Diagnostics)
    : Task * diag.Diagnostics :=
  let startDate :=
    if negb (types.IsNull (dm_StartDate model))
       && negb (types.IsUnknown (dm_StartDate model))
    then time_Parse_date (types.ValueString (dm_StartDate model))
    else None in
  let repeat :=
    match dm_Repeat model with
    | Some r =>
        {| Monday := getBoolWithDefault (rm_Monday r) true;
           Tuesday := getBoolWithDefault (rm_Tuesday r) true;
           Wednesday := getBoolWithDefault (rm_Wednesday r) true;
           Thursday := getBoolWithDefault (rm_Thursday r) true;
           Friday := getBoolWithDefault (rm_Friday r) true;
           Saturday := getBoolWithDefault (rm_Saturday r) false;
           Sunday := getBoolWithDefault (rm_Sunday r) false |}
    | None =>
        {| Monday := true; Tuesday := true; Wednesday := true;
           Thursday := true; Friday := true;
           Saturday := false; Sunday := false |}
    end in
  let '(daysOfMonth, diags) :=
    if negb (List_IsNull (dm_DaysOfMonth model)) then
      let '(days, d) := ElementsAs_Int64 (dm_DaysOfMonth model) in
      (days, diag.Append diags d)
    else ([], diags) in
  let '(weeksOfMonth, diags) :=
    if negb (List_IsNull (dm_WeeksOfMonth model)) then
      let '(weeks, d) := ElementsAs_Int64 (dm_WeeksOfMonth model) in
      (weeks, diag.Append diags d)
    else ([], diags) in
  let '(tags, diags) :=
    if negb (List_IsNull (dm_Tags model)) then
      let '(tags, d) := ElementsAs_String (dm_Tags model) in
      (tags, diag.Append diags d)
    else ([], diags) in
  ({| Task_ID := "";
      Task_Type := "daily";
      Task_Text := types.ValueString (dm_Text model);
      Notes := types.ValueString (dm_Notes model);
      Alias := "";
      Tags := tags;
      Priority := types.ValueFloat64 (dm_Priority model);
      Attribute := "";
      Up := None;
      Down := None;
      CounterUp := 0;
      CounterDown := 0;
      Frequency := types.ValueString (dm_Frequency model);
      EveryX := types.ValueInt64 (dm_EveryX model);
      StartDate := startDate;
      Repeat := Some repeat;
      DaysOfMonth := daysOfMonth;
      WeeksOfMonth := weeksOfMonth;
      Streak := 0;
      IsDue := false;
      NextDue := [];
      Value := 0%float |}, diags).

(** [updateModelFromTask] of the daily resource. *)
Definition updateModelFromTask (model : dailyResourceModel) (task : Task)
    (diags : diag.Diagnostics) : dailyResourceModel * diag.Diagnostics :=
  let startDate :=
    match StartDate task with
    | Some t => types.StringValue (time_Format_date t)
    | None => dm_StartDate model
    end in
  let repeat :=
    match Repeat task with
    | Some r =>
        Some {| rm_Monday := types.BoolValue (Monday r);
                rm_Tuesday := types.BoolValue (Tuesday r);
                rm_Wednesday := types.BoolValue (Wednesday r);
                rm_Thursday := types.BoolValue (Thursday r);
                rm_Friday := types.BoolValue (Friday r);
                rm_Saturday := types.BoolValue (Saturday r);
                rm_Sunday := types.BoolValue (Sunday r) |}
    | None => dm_Repeat model
    end in
  let '(daysOfMonth, diags) :=
    if (0 <? length (DaysOfMonth task))%nat then
      let '(daysList, d) := ListValueFrom_Int64 (DaysOfMonth task) in
      (daysList, diag.Append diags d)
    else (ListNull_Int64, diags) in
  let '(weeksOfMonth, diags) :=
    if (0 <? length (WeeksOfMonth task))%nat then
      let '(weeksList, d) := ListValueFrom_Int64 (WeeksOfMonth task) in
      (weeksList, diag.Append diags d)
    else (ListNull_Int64, diags) in
  let '(tags, diags) :=
    if (0 <? length (Tags task))%nat then
      let '(tagList, d) := ListValueFrom_String (Tags task) in
      (tagList, diag.Append diags d)
    else (ListNull_String, diags) in
  ({| dm_ID := dm_ID model;
      dm_Text := types.StringValue (Task_Text task);
      dm_Notes := types.StringValue (Notes task);
      dm_Priority := types.Float64Value (Priority task);
      dm_Frequency := types.StringValue (Frequency task);
      dm_EveryX := types.Int64Value (EveryX task);
      dm_StartDate := startDate;
      dm_Repeat := repeat;
      dm_DaysOfMonth := daysOfMonth;
      dm_WeeksOfMonth := weeksOfMonth;
      dm_Tags := tags |}, diags).

Definition set_dm_ID (id : types.Value string) (model : dailyResourceModel)
    : dailyResourceModel :=
  {| dm_ID := id;
     dm_Text := dm_Text model;
     dm_Notes := dm_Notes model;
     dm_Priority := dm_Priority model;
     dm_Frequency := dm_Frequency model;
     dm_EveryX := dm_EveryX model;
     dm_StartDate := dm_StartDate model;
     dm_Repeat := dm_Repeat model;
     dm_DaysOfMonth := dm_DaysOfMonth model;
     dm_WeeksOfMonth := dm_WeeksOfMonth model;
     dm_Tags := dm_Tags model |}.

Section DailyResource.

Variable State_Set : dailyResourceModel -> diag.Diagnostics.

Definition daily_Create (R : Runtime) (c : Client) (w : World)
    (ctx : context.Context) (got : diag.Diagnostics) (plan : dailyResourceModel)
    : ResourceResponse dailyResourceModel * Client * World :=
  let diags := diag.Append [] got in
  if diag.HasError diags then
    ({| res_Diagnostics := diags; res_State := None |}, c, w)
  else
    let '(task, diags) := modelToTask plan diags in
    if diag.HasError diags then
      ({| res_Diagnostics := diags; res_State := None |}, c, w)
    else
      let '(r, c1, w1) := CreateTask R c w ctx task in
      match r with
      | Err err =>
          ({| res_Diagnostics :=
                diag.AddError diags "Error creating daily" (error_Error err);
              res_State := None |}, c1, w1)
      | Ok created =>
          let plan := set_dm_ID (types.StringValue (Task_ID created)) plan in
          let '(plan, diags) := updateModelFromTask plan created diags in
          ({| res_Diagnostics := diag.Append diags (State_Set plan);
              res_State := Some plan |}, c1, w1)
      end.

Definition daily_Read (R : Runtime) (c : Client) (w : World)
    (ctx : context.Context) (got : diag.Diagnostics) (state : dailyResourceModel)
    : ResourceResponse dailyResourceModel * Client * World :=
  let diags := diag.Append [] got in
  if diag.HasError diags then
    ({| res_Diagnostics := diags; res_State := None |}, c, w)
  else
    let '(r, c1, w1) := GetTask R c w ctx (types.ValueString (dm_ID state)) in
    match r with
    | Err err =>
        ({| res_Diagnostics :=
              diag.AddError diags "Error reading daily" (error_Error err);
            res_State := None |}, c1, w1)
    | Ok task =>
        let '(state, diags) := updateModelFromTask state task diags in
        ({| res_Diagnostics := diag.Append diags (State_Set state);
            res_State := Some state |}, c1, w1)
    end.

Definition daily_Update (R : Runtime) (c : Client) (w : World)
    (ctx : context.Context) (gotPlan : diag.Diagnostics)
    (plan : dailyResourceModel) (gotState : diag.Diagnostics)
    (state : dailyResourceModel)
    : ResourceResponse dailyResourceModel * Client * World :=
  let diags := diag.Append [] gotPlan in
  if diag.HasError diags then
    ({| res_Diagnostics := diags; res_State := None |}, c, w)
  else
    let diags := diag.Append diags gotState in
    if diag.HasError diags then
      ({| res_Diagnostics := diags; res_State := None |}, c, w)
    else
      let '(task, diags) := modelToTask plan diags in
      if diag.HasError diags then
        ({| res_Diagnostics := diags; res_State := None |}, c, w)
      else
        let '(r, c1, w1) :=
          UpdateTask R c w ctx (types.ValueString (dm_ID state)) task in
        match r with
        | Err err =>
            ({| res_Diagnostics :=
                  diag.AddError diags "Error updating daily" (error_Error err);
                res_State := None |}, c1, w1)
        | Ok updated =>
            let plan := set_dm_ID (dm_ID state) plan in
            let '(plan, diags) := updateModelFromTask plan updated diags in
            ({| res_Diagnostics := diag.Append diags (State_Set plan);
                res_State := Some plan |}, c1, w1)
        end.

Definition daily_Delete (R : Runtime) (c : Client) (w : World)
    (ctx : context.Context) (got : diag.Diagnostics) (state : dailyResourceModel)
    : ResourceResponse dailyResourceModel * Client * World :=
  let diags := diag.Append [] got in
  if diag.HasError diags then
    ({| res_Diagnostics := diags; res_State := None |}, c, w)
  else
    let '(r, c1, w1) := DeleteTask R c w ctx (types.ValueString (dm_ID state)) in
    match r with
    | Some err =>
        ({| res_Diagnostics :=
              diag.AddError diags "Error deleting daily" (error_Error err);
            res_State := None |}, c1, w1)
    | None => ({| res_Diagnostics := diags; res_State := None |}, c1, w1)
    end.

End DailyResource.

(** *** The habit resource *)

Record habitResourceModel := {
  hm_ID : types.Value string;
  hm_Text : types.Value string;
  hm_Notes : types.Value string;
  hm_Priority : types.Value float;
  hm_Up : types.Value bool;
  hm_Down : types.Value bool;
  hm_Tags : List
}.

(** [updateModelFromTask] of the habit resource. *)
Definition habit_updateModelFromTask (model : habitResourceModel) (task : Task)
    (diags : diag.Diagnostics) : habitResourceModel * diag.Diagnostics :=
  let up :=
    match Up task with
    | Some b => types.BoolValue b
    | None => hm_Up model
    end in
  let down :=
    match Down task with
    | Some b => types.BoolValue b
    | None => hm_Down model
    end in
  let '(tags, diags) :=
    if (0 <? length (Tags task))%nat then
      let '(tagList, d) := ListValueFrom_String (Tags task) in
      (tagList, diag.Append diags d)
    else (ListNull_String, diags) in
  ({| hm_ID := hm_ID model;
      hm_Text := types.StringValue (Task_Text task);
      hm_Notes := types.StringValue (Notes task);
      hm_Priority := types.Float64Value (Priority task);
      hm_Up := up;
      hm_Down := down;
      hm_Tags := tags |}, diags).

Definition set_hm_ID (id : types.Value string) (model : habitResourceModel)
    : habitResourceModel :=
  {| hm_ID := id;
     hm_Text := hm_Text model;
     hm_Notes := hm_Notes model;
     hm_Priority := hm_Priority model;
     hm_Up := hm_Up model;
     hm_Down := hm_Down model;
     hm_Tags := hm_Tags model |}.

(** The task [Create] and [Update] of the habit resource build from the
    plan and the tags read from it.  [Create] names the type "habit" and
    [Update] names none; without tags in the plan [Create] leaves
    [task.Tags] nil and [Update] sets it to an empty slice, which are both
    the empty list here. *)
Definition habit_task (type : string) (plan : habitResourceModel)
    (tags : list string) : Task :=
  {| Task_ID := "";
     Task_Type := type;
     Task_Text := types.ValueString (hm_Text plan);
     Notes := types.ValueString (hm_Notes plan);
     Alias := "";
     Tags := tags;
     Priority := types.ValueFloat64 (hm_Priority plan);
     Attribute := "";
     Up := Some (getBoolWithDefault (hm_Up plan) true);
     Down := Some (getBoolWithDefault (hm_Down plan) false);
     CounterUp := 0;
     CounterDown := 0;
     Frequency := "";
     EveryX := 0;
     StartDate := None;
     Repeat := None;
     DaysOfMonth := [];
     WeeksOfMonth := [];
     Streak := 0;
     IsDue := false;
     NextDue := [];
     Value := 0%float |}.

Section HabitResource.

Variable State_Set : habitResourceModel -> diag.Diagnostics.

Definition habit_Create (R : Runtime) (c : Client) (w : World)
    (ctx : context.Context) (got : diag.Diagnostics) (plan : habitResourceModel)
    : ResourceResponse habitResourceModel * Client * World :=
  let diags := diag.Append [] got in
  if diag.HasError diags then
    ({| res_Diagnostics := diags; res_State := None |}, c, w)
  else
    (* the method from the call of the client on, with [task.Tags] set *)
    let create (tags : list string) (diags : diag.Diagnostics) :=
      let '(r, c1, w1) := CreateTask R c w ctx (habit_task "habit" plan tags) in
      match r with
      | Err err =>
          ({| res_Diagnostics :=
                diag.AddError diags "Error creating habit" (error_Error err);
              res_State := None |}, c1, w1)
      | Ok created =>
          let plan := set_hm_ID (types.StringValue (Task_ID created)) plan in
          let '(plan, diags) := habit_updateModelFromTask plan created diags in
          ({| res_Diagnostics := diag.Append diags (State_Set plan);
              res_State := Some plan |}, c1, w1)
      end in
    if negb (List_IsNull (hm_Tags plan)) then
      let '(tags, d) := ElementsAs_String (hm_Tags plan) in
      let diags := diag.Append diags d in
      if diag.HasError diags then
        ({| res_Diagnostics := diags; res_State := None |}, c, w)
      else create tags diags
    else create [] diags.

Definition habit_Read (R : Runtime) (c : Client) (w : World)
    (ctx : context.Context) (got : diag.Diagnostics) (state : habitResourceModel)
    : ResourceResponse habitResourceModel * Client * World :=
  let diags := diag.Append [] got in
  if diag.HasError diags then
    ({| res_Diagnostics := diags; res_State := None |}, c, w)
  else
    let '(r, c1, w1) := GetTask R c w ctx (types.ValueString (hm_ID state)) in
    match r with
    | Err err =>
        ({| res_Diagnostics :=
              diag.AddError diags "Error reading habit" (error_Error err);
            res_State := None |}, c1, w1)
    | Ok task =>
        let '(state, diags) := habit_updateModelFromTask state task diags in
        ({| res_Diagnostics := diag.Append diags (State_Set state);
            res_State := Some state |}, c1, w1)
    end.

Definition habit_Update (R : Runtime) (c : Client) (w : World)
    (ctx : context.Context) (gotPlan : diag.Diagnostics)
    (plan : habitResourceModel) (gotState : diag.Diagnostics)
    (state : habitResourceModel)
    : ResourceResponse habitResourceModel * Client * World :=
  let diags := diag.Append [] gotPlan in
  if diag.HasError diags then
    ({| res_Diagnostics := diags; res_State := None |}, c, w)
  else
    let diags := diag.Append diags gotState in
    if diag.HasError diags then
      ({| res_Diagnostics := diags; res_State := None |}, c, w)
    else
      (* the method from the call of the client on, with [task.Tags] set *)
      let update (tags : list string) (diags : diag.Diagnostics) :=
        let '(r, c1, w1) :=
          UpdateTask R c w ctx (types.ValueString (hm_ID state))
            (habit_task "" plan tags) in
        match r with
        | Err err =>
            ({| res_Diagnostics :=
                  diag.AddError diags "Error updating habit" (error_Error err);
                res_State := None |}, c1, w1)
        | Ok updated =>
            let plan := set_hm_ID (hm_ID state) plan in
            let '(plan, diags) := habit_updateModelFromTask plan updated diags in
            ({| res_Diagnostics := diag.Append diags (State_Set plan);
                res_State := Some plan |}, c1, w1)
        end in
      if negb (List_IsNull (hm_Tags plan)) then
        let '(tags, d) := ElementsAs_String (hm_Tags plan) in
        let diags := diag.Append diags d in
        if diag.HasError diags then
          ({| res_Diagnostics := diags; res_State := None |}, c, w)
        else update tags diags
      else update [] diags.

Definition habit_Delete (R : Runtime) (c : Client) (w : World)
    (ctx : context.Context) (got : diag.Diagnostics) (state : habitResourceModel)
    : ResourceResponse habitResourceModel * Client * World :=
  let diags := diag.Append [] got in
  if diag.HasError diags then
    ({| res_Diagnostics := diags; res_State := None |}, c, w)
  else
    let '(r, c1, w1) := DeleteTask R c w ctx (types.ValueString (hm_ID state)) in
    match r with
    | Some err =>
        ({| res_Diagnostics :=
              diag.AddError diags "Error deleting habit" (error_Error err);
            res_State := None |}, c1, w1)
    | None => ({| res_Diagnostics := diags; res_State := None |}, c1, w1)
    end.

End HabitResource.

End TaskResources.

Arguments dm_ID {List} _.
Arguments dm_Text {List} _.
Arguments dm_Notes {List} _.
Arguments dm_Priority {List} _.
Arguments dm_Frequency {List} _.
Arguments dm_EveryX {List} _.
Arguments dm_StartDate {List} _.
Arguments dm_Repeat {List} _.
Arguments dm_DaysOfMonth {List} _.
Arguments dm_WeeksOfMonth {List} _.
Arguments dm_Tags {List} _.
Arguments hm_ID {List} _.
Arguments hm_Text {List} _.
Arguments hm_Notes {List} _.
Arguments hm_Priority {List} _.
Arguments hm_Up {List} _.
Arguments hm_Down {List} _.
Arguments hm_Tags {List} _.
(* ===================================================================== *)
(** ** Reading requests                                                   *)
(* ===================================================================== *)

(** The request is the one the client builds for the call: method, URL and
    the four headers, and no header besides. *)
Definition as_configured (R : Runtime) (c : Client) (method path : string)
    (body : option Payload) (req : http.Request) : Prop :=
  http.Method req = method /\
  http.URL req = baseURL c +:+ path /\
  http.Header_Get (http.ReqHeader req) "Content-Type" = "application/json" /\
  http.Header_Get (http.ReqHeader req) "x-api-user" = userID c /\
  http.Header_Get (http.ReqHeader req) "x-api-key" = apiKey c /\
  http.Header_Get (http.ReqHeader req) "x-client" = clientID c /\
  dom (http.ReqHeader req)
  = ({["Content-Type"]} ∪ {["X-Api-User"]} ∪ {["X-Api-Key"]} ∪ {["X-Client"]} : gset string).

(** The body of a request is the JSON text of the body of the call. *)
Definition body_sent (R : Runtime) (body : option Payload)
    (sent : option string) : Prop :=
  match body, sent with
  | None, None => True
  | Some b, Some s => json_Marshal R b = Ok s
  | _, _ => False
  end.

(** A runtime like that of the examples whose [http.NewRequestWithContext]
    refuses a URL with a malformed escape. *)
Definition strict_runtime : Runtime :=
  let R := toy_runtime (always (DoResp (response 200 "tag-1"))) in
  {| json_Marshal := json_Marshal R;
     json_Unmarshal_any := json_Unmarshal_any R;
     json_Unmarshal_Tag := json_Unmarshal_Tag R;
     json_Unmarshal_Tags := json_Unmarshal_Tags R;
     json_Unmarshal_Task := json_Unmarshal_Task R;
     json_Unmarshal_Tasks := json_Unmarshal_Tasks R;
     http_NewRequest_err := fun _ url =>
       if String.eqb url (DefaultBaseURL +:+ "/tags/%zz")
       then Some (LibError "invalid URL escape") else None;
     httpClient_Do := httpClient_Do R;
     select_tie := select_tie R |}.

(** How the loop of [do] can end when it is entered with [n] attempts
    left and [lastErr] recorded: the requests it added to the log, last one
    first, and what it returns.  Every request but a deciding one had a
    retryable outcome. *)
Inductive loop_outcome (R : Runtime) (ctx : context.Context) (c : Client)
    (method path : string) (n : nat) (lastErr : option error)
    : list Exchange -> result string -> Prop :=
| out_cancelled l :
    (* the context was done during a wait *)
    is_Some (context.doneAt ctx) ->
    Forall retryable (map ex_res l) ->
    (length l < n)%nat ->
    loop_outcome R ctx c method path n lastErr l
      (Err (CtxError (context.cause ctx)))
| out_unbuildable err :
    (* the request could not be created *)
    http_NewRequest_err R method (baseURL c +:+ path) = Some err ->
    (0 < n)%nat ->
    loop_outcome R ctx c method path n lastErr []
      (Err (Wrapf "creating request" err))
| out_decided ex l resp respBody :
    (* a readable response other than a 429 *)
    ex_res ex = DoResp resp ->
    http.Body resp = Ok respBody ->
    http.StatusCode resp <> 429 ->
    Forall retryable (map ex_res l) ->
    (length l < n)%nat ->
    loop_outcome R ctx c method path n lastErr (ex :: l)
      (verdict R resp respBody)
| out_exhausted l :
    (* every attempt was made and had a retryable outcome *)
    length l = n ->
    Forall retryable (map ex_res l) ->
    loop_outcome R ctx c method path n lastErr l
      (Err (wrap "max retries exceeded"
              (last_failure lastErr (rev (map ex_res l))))).

(** How [do] can end: the body did not marshal, or the loop ended. *)
Definition do_outcome_of (R : Runtime) (ctx : context.Context) (c : Client)
    (method path : string) (body : option Payload) (l : list Exchange)
    (r : result string) : Prop :=
  (exists b err,
      body = Some b /\ json_Marshal R b = Err err /\ l = [] /\
      r = Err (Wrapf "marshaling request body" err)) \/
  loop_outcome R ctx c method path (Z.to_nat (maxRetries c + 1)) None l r.

(** The last entry of a list that carries the id. *)
Definition last_with {E : Type} (ID : E -> string) (id : string)
    (data : list E) : option E :=
  find (fun e => String.eqb (ID e) id) (rev data).

(** The client with its two caches replaced. *)
Definition with_caches (tasks : option (gmap string Task))
    (tags : option (gmap string Tag)) (c : Client) : Client :=
  set_tagCache tags (set_taskCache tasks c).

(** The call that took the world from [w] to [w'] fetched the list [whs]
    of webhooks: the last request it sent was a GET to
    [baseURL + "/user/webhook"], answered with a status below 400 and a body
    that decodes to the list. *)
Definition fetched_webhooks
    (decode : string -> result (APIResponse (list Webhook)))
    (c : Client) (w w' : World) (whs : list Webhook) : Prop :=
  exists body apiResp ex l resp,
    decode body = Ok apiResp /\
    whs = Data apiResp /\
    made w w' (ex :: l) /\
    ex_res ex = DoResp resp /\
    http.Body resp = Ok body /\
    http.StatusCode resp < 400 /\
    http.Method (ex_req ex) = "GET" /\
    http.URL (ex_req ex) = baseURL c +:+ "/user/webhook".

(** [x] is the first entry of [l] that carries the id. *)
Definition first_with {E : Type} (ID : E -> string) (id : string)
    (l : list E) (x : E) : Prop :=
  exists pre post,
    l = pre ++ x :: post /\
    Forall (fun y => ID y <> id) pre /\
    ID x = id.

(* ===================================================================== *)
(** ** Reading the output of the data source                              *)
(* ===================================================================== *)

(** The names of the tags a task carries: for each of its tag ids, in their
    order, the name of the last listed tag with that id; an id no listed
    tag has gives no name. *)
Definition tag_names (tags : list Tag) (ids : list string) : list string :=
  omap (fun id => Tag_Name <$> last_with Tag_ID id tags) ids.

Definition shows_daily (Completed : Task -> bool) (tags : list Tag)
    (task : Task) (o : dailyOutput) : Prop :=
  daily_ID o = Task_ID task /\
  daily_Text o = Task_Text task /\
  daily_Notes o = Notes task /\
  daily_Completed o = Completed task /\
  daily_IsDue o = IsDue task /\
  daily_Tags o = tag_names tags (Tags task) /\
  daily_Streak o = Streak task /\
  daily_Frequency o = Frequency task.

Definition shows_habit (tags : list Tag) (task : Task) (o : habitOutput) : Prop :=
  habit_ID o = Task_ID task /\
  habit_Text o = Task_Text task /\
  habit_Notes o = Notes task /\
  habit_CounterUp o = CounterUp task /\
  habit_CounterDown o = CounterDown task /\
  habit_Tags o = tag_names tags (Tags task).

Definition shows_todo (Completed : Task -> bool) (tags : list Tag)
    (task : Task) (o : todoOutput) : Prop :=
  todo_ID o = Task_ID task /\
  todo_Text o = Task_Text task /\
  todo_Notes o = Notes task /\
  todo_Completed o = Completed task /\
  todo_Tags o = tag_names tags (Tags task).

(** The tasks of a type, in the order of the list. *)
Definition of_type (type : string) (tasks : list Task) : list Task :=
  filter (fun task => Task_Type task = type) tasks.

(* ===================================================================== *)
(** ** Reading the configuration of the provider                          *)
(* ===================================================================== *)

(** A credential: the value of the configuration when it is known and not
    empty, the variable of the environment otherwise. *)
Definition credential (os_Getenv : string -> string) (v : types.Value string)
    (envVar : string) : string :=
  match v with
  | types.Known s => if String.eqb s "" then os_Getenv envVar else s
  | _ => os_Getenv envVar
  end.

(** The errors for the credentials that are empty, in the order user id,
    API token, client author id. *)
Definition missing_credentials (userID apiToken clientAuthorID : string)
    : diag.Diagnostics :=
  (if String.eqb userID "" then
     [diag.ErrorDiagnostic "Missing User ID"
        "The provider requires a user_id to be set in the configuration or via the HABITICA_USER_ID environment variable."]
   else []) ++
  (if String.eqb apiToken "" then
     [diag.ErrorDiagnostic "Missing API Token"
        "The provider requires an api_token to be set in the configuration or via the HABITICA_API_TOKEN environment variable."]
   else []) ++
  (if String.eqb clientAuthorID "" then
     [diag.ErrorDiagnostic "Missing Client Author ID"
        "The provider requires a client_author_id to be set in the configuration or via the HABITICA_CLIENT_AUTHOR_ID environment variable."]
   else []).

(** The application name and the buffer the client is made with. *)
Definition configured_app_name (v : types.Value string) : string :=
  match v with
  | types.Known s => if String.eqb s "" then "TerraformHabitica" else s
  | _ => "TerraformHabitica"
  end.

Definition configured_buffer (v : types.Value Z) : Z :=
  match v with
  | types.Known n => if n <=? 0 then 5 else n
  | _ => 5
  end.

(** An environment and a configuration for the examples: the user id
    comes from the configuration, the token from the environment, and the
    author id is set in neither. *)
Definition example_env (name : string) : string :=
  if String.eqb name "HABITICA_API_TOKEN" then "token-from-env"
  else if String.eqb name "HABITICA_USER_ID" then "user-from-env"
  else "".

Definition example_provider_config (author : types.Value string)
    : HabiticaProviderModel :=
  {| pm_UserID := types.Known "user-from-config";
     pm_APIToken := types.Known "";
     pm_ClientAuthorID := author;
     pm_ClientAppName := types.Unknown;
     pm_RateLimitBuffer := types.Known (-1) |}.

(* ===================================================================== *)
(** ** Reading what a resource did                                        *)
(* ===================================================================== *)

(** Between [w] and [w'] nothing was sent but requests with this method to
    this path under the base URL of the client, at most [maxRetries + 1]
    of them. *)
Definition sends_only (c : Client) (w w' : World) (method path : string) : Prop :=
  exists l,
    made w w' l /\
    Z.of_nat (length l) <= Z.max 0 (maxRetries c + 1) /\
    Forall (fun e => http.Method (ex_req e) = method /\
                     http.URL (ex_req e) = baseURL c +:+ path) l.

(** The method reported exactly the error [summary]: [detail] after the
    diagnostics of the decoding and set no state; or it reported no error
    of its own and handed [st] to [State.Set]. *)
Definition failed_with {M : Type} (resp : ResourceResponse M)
    (got : diag.Diagnostics) (summary detail : string) : Prop :=
  res_State resp = None /\
  res_Diagnostics resp = got ++ [diag.ErrorDiagnostic summary detail].

(** Lists of the framework for the examples: a list is null or holds its
    elements, and every conversion succeeds. *)
Inductive ExampleList :=
| ExNull
| ExInts (l : list Z)
| ExStrings (l : list string).

Definition ex_IsNull (l : ExampleList) : bool :=
  match l with ExNull => true | _ => false end.

Definition ex_ElementsAs_Int64 (l : ExampleList) : list Z * diag.Diagnostics :=
  match l with
  | ExInts xs => (xs, [])
  | _ => ([], [diag.ErrorDiagnostic "Value Conversion Error" "not a list of numbers"])
  end.

Definition ex_ElementsAs_String (l : ExampleList) : list string * diag.Diagnostics :=
  match l with
  | ExStrings xs => (xs, [])
  | _ => ([], [diag.ErrorDiagnostic "Value Conversion Error" "not a list of strings"])
  end.

Definition ex_modelToTask :=
  modelToTask ExampleList ex_IsNull ex_ElementsAs_Int64 ex_ElementsAs_String
    (fun _ => None).

Definition ex_updateModelFromTask :=
  updateModelFromTask ExampleList ExNull ExNull
    (fun xs => (ExInts xs, [])) (fun xs => (ExStrings xs, [])) (fun _ => "").

(** A plan for a daily that names its text and two of the seven days. *)
Definition example_daily_plan : dailyResourceModel ExampleList :=
  {| dm_ID := types.Unknown;
     dm_Text := types.Known "Meditate";
     dm_Notes := types.Null;
     dm_Priority := types.Known 1%float;
     dm_Frequency := types.Known "weekly";
     dm_EveryX := types.Known 1;
     dm_StartDate := types.Null;
     dm_Repeat :=
       Some {| rm_Monday := types.Known false;
               rm_Tuesday := types.Null;
               rm_Wednesday := types.Unknown;
               rm_Thursday := types.Null;
               rm_Friday := types.Null;
               rm_Saturday := types.Known true;
               rm_Sunday := types.Null |};
     dm_DaysOfMonth := ExNull;
     dm_WeeksOfMonth := ExNull;
     dm_Tags := ExStrings ["tag-1"] |}.

(** A day of the repeat of a daily follows the value of the plan when that
    is known, and the default when it is null or unknown. *)
Definition follows (v : types.Value bool) (default day : bool) : Prop :=
  match v with
  | types.Known b => day = b
  | _ => day = default
  end.

(** Monday to Friday. *)
Definition weekdays : RepeatConfig :=
  {| Monday := true; Tuesday := true; Wednesday := true; Thursday := true;
     Friday := true; Saturday := false; Sunday := false |}.

(** The webhook without its id. *)
Definition without_id (wh : Webhook) : Webhook :=
  {| Webhook_ID := "";
     Webhook_URL := Webhook_URL wh;
     Label := Label wh;
     Webhook_Type := Webhook_Type wh;
     Enabled := Enabled wh;
     Options := Options wh |}.

(** A method of a resource is all-or-nothing: either it hands a model to
    [State.Set] and has reported no error before, or it sets no state and
    reports an error. *)
Definition all_or_nothing {M : Type} (State_Set : M -> diag.Diagnostics)
    (resp : ResourceResponse M) : Prop :=
  match res_State resp with
  | Some st =>
      exists diags,
        diag.HasError diags = false /\
        res_Diagnostics resp = diag.Append diags (State_Set st)
  | None => diag.HasError (res_Diagnostics resp) = true
  end.

(** The lists of the framework give back the elements they were made of,
    and only the null list is null. *)
Definition lists_round_trip {List : Type} (List_IsNull : List -> bool)
    (ListNull_Int64 ListNull_String : List)
    (ElementsAs_Int64 : List -> list Z * diag.Diagnostics)
    (ElementsAs_String : List -> list string * diag.Diagnostics)
    (ListValueFrom_Int64 : list Z -> List * diag.Diagnostics)
    (ListValueFrom_String : list string -> List * diag.Diagnostics) : Prop :=
  List_IsNull ListNull_Int64 = true /\
  List_IsNull ListNull_String = true /\
  (forall xs, List_IsNull (ListValueFrom_Int64 xs).1 = false /\
              (ElementsAs_Int64 (ListValueFrom_Int64 xs).1).1 = xs) /\
  (forall xs, List_IsNull (ListValueFrom_String xs).1 = false /\
              (ElementsAs_String (ListValueFrom_String xs).1).1 = xs).

(** Making a list of the framework from elements reports nothing. *)
Definition lists_made_clean {List : Type}
    (ListValueFrom_Int64 : list Z -> List * diag.Diagnostics)
    (ListValueFrom_String : list string -> List * diag.Diagnostics) : Prop :=
  (forall xs, (ListValueFrom_Int64 xs).2 = []) /\
  (forall xs, (ListValueFrom_String xs).2 = []).

(** A daily as the service returns it, for the examples. *)
Definition example_daily_task : Task :=
  {| Task_ID := "daily-1"; Task_Type := "daily"; Task_Text := "Meditate";
     Notes := "ten minutes"; Alias := ""; Tags := ["tag-1"; "tag-2"];
     Priority := 1.5%float; Attribute := "str";
     Up := None; Down := None; CounterUp := 0; CounterDown := 0;
     Frequency := "monthly"; EveryX := 2; StartDate := None;
     Repeat := Some {| Monday := false; Tuesday := true; Wednesday := false;
                       Thursday := true; Friday := false; Saturday := true;
                       Sunday := false |};
     DaysOfMonth := [1; 15]; WeeksOfMonth := []; Streak := 4; IsDue := true;
     NextDue := []; Value := 2.5%float |}.

(** A plan for a habit that leaves both directions to their defaults. *)
Definition example_habit_plan : habitResourceModel ExampleList :=
  {| hm_ID := types.Unknown;
     hm_Text := types.Known "Exercise";
     hm_Notes := types.Null;
     hm_Priority := types.Known 1%float;
     hm_Up := types.Null;
     hm_Down := types.Unknown;
     hm_Tags := ExNull |}.

(** [Create] of the daily resource over the lists of the examples. *)
Definition ex_daily_Create :=
  daily_Create ExampleList ex_IsNull ExNull ExNull
    ex_ElementsAs_Int64 ex_ElementsAs_String
    (fun xs => (ExInts xs, [])) (fun xs => (ExStrings xs, []))
    (fun _ => None) (fun _ => "") (fun _ => []).
(* ===================================================================== *)
(** ** Facts about [do]                                                   *)
(* ===================================================================== *)

Lemma same_but_rate_refl c : same_but_rate c c.
Proof. destruct c; reflexivity. Qed.

Lemma same_but_rate_trans c1 c2 c3 :
  same_but_rate c1 c2 -> same_but_rate c2 c3 -> same_but_rate c1 c3.
Proof.
  unfold same_but_rate; intros H12 H23.
  rewrite H23 at 1. rewrite H12 at 1. destruct c1; reflexivity.
Qed.

Lemma updateRateLimits_frame c resp : same_but_rate c (updateRateLimits c resp).
Proof.
  unfold updateRateLimits.
  repeat match goal with
         | |- context [if ?b then _ else _] => destruct b
         | |- context [match ?x with Some _ => _ | None => _ end] => destruct x
         end; destruct c; reflexivity.
Qed.

Lemma same_but_rate_fields c c' :
  same_but_rate c c' ->
  baseURL c' = baseURL c /\ userID c' = userID c /\ apiKey c' = apiKey c /\
  clientID c' = clientID c /\ httpClient c' = httpClient c /\
  rateLimitBuffer c' = rateLimitBuffer c /\ maxRetries c' = maxRetries c /\
  baseRetryDelay c' = baseRetryDelay c /\
  taskCache c' = taskCache c /\ tagCache c' = tagCache c.
Proof. intros ->. repeat split. Qed.

Lemma made_refl w : made w w [].
Proof. reflexivity. Qed.

Lemma made_set_now t w : made w (set_now t w) [].
Proof. reflexivity. Qed.

Lemma made_trans w1 w2 w3 l1 l2 :
  made w1 w2 l1 -> made w2 w3 l2 -> made w1 w3 (l2 ++ l1).
Proof. unfold made; intros H1 H2. rewrite H2, H1, app_assoc. reflexivity. Qed.

(** [do] writes nothing but the rate-limit fields, and only adds to the log. *)
Lemma do_loop_frame R ctx method path body n :
  forall attempt lastErr c w,
    let out := do_loop R ctx method path body n attempt lastErr c w in
    same_but_rate c (client_of out) /\
    exists l, made w (world_of out) l /\ (length l <= n)%nat.
Proof.
  induction n as [|n IH]; intros attempt lastErr c w; simpl.
  - split; [apply same_but_rate_refl | exists []; split; [apply made_refl | simpl; lia]].
  - destruct (backoffWait R ctx c attempt (now w)) as [t1|t];
      [|split; [apply same_but_rate_refl | exists []; split; [apply made_set_now | simpl; lia]]].
    destruct (rateLimitWait R ctx c t1) as [t2|t];
      [|split; [apply same_but_rate_refl | exists []; split; [apply made_set_now | simpl; lia]]].
    destruct (newRequest R c method path body) as [req|e];
      [|split; [apply same_but_rate_refl | exists []; split; [apply made_set_now | simpl; lia]]].
    destruct (httpClient_Do R (exchanges w) t2 ctx req) as [elapsed res].
    set (w' := {| now := t2 + elapsed; exchanges := _ |}).
    assert (Hw : made w w' [{| ex_req := req; ex_res := res |}]) by reflexivity.
    assert (Hstep : forall le c1, same_but_rate c c1 ->
              let out := do_loop R ctx method path body n (attempt + 1) le c1 w' in
              same_but_rate c (client_of out) /\
              exists l, made w (world_of out) l /\ (length l <= S n)%nat).
    { intros le c1 Hc1. destruct (IH (attempt + 1) le c1 w') as [Hc [l [Hl Hn]]].
      split; [eapply same_but_rate_trans; eauto|].
      exists (l ++ [{| ex_req := req; ex_res := res |}]). split.
      - eapply made_trans; eauto.
      - rewrite length_app; simpl; lia. }
    destruct res as [err|resp].
    + apply Hstep, same_but_rate_refl.
    + pose proof (updateRateLimits_frame c resp) as Hu.
      destruct (http.Body resp) as [respBody|err]; [|apply Hstep, Hu].
      destruct (http.StatusCode resp =? http.StatusTooManyRequests); [apply Hstep, Hu|].
      destruct (400 <=? http.StatusCode resp);
        (split; [exact Hu | eexists; split; [exact Hw | simpl; lia]]).
Qed.

Lemma do_frame R c w ctx method path body :
  let out := do R c w ctx method path body in
  same_but_rate c (client_of out) /\ exists l, made w (world_of out) l.
Proof.
  unfold do.
  destruct (match body with Some b => _ | None => None end).
  - split; [apply same_but_rate_refl | exists []; apply made_refl].
  - destruct (do_loop_frame R ctx method path body (Z.to_nat (maxRetries c + 1)) 0 None c w)
      as [Hc [l [Hl _]]].
    split; [exact Hc | exists l; exact Hl].
Qed.

Section NoCancellation.

Variable R : Runtime.
Variable ctx : context.Context.
Hypothesis never_done : context.doneAt ctx = None.

Lemma select_never_done t d :
  select_Done_After R ctx t d = TimerFired (t + Z.max 0 d).
Proof. unfold select_Done_After. rewrite never_done. reflexivity. Qed.

Lemma backoffWait_never_done c attempt t :
  exists t1, backoffWait R ctx c attempt t = TimerFired t1.
Proof.
  unfold backoffWait. destruct (0 <? attempt); [|eauto].
  rewrite select_never_done. eauto.
Qed.

Lemma rateLimitWait_never_done c t :
  exists t2, rateLimitWait R ctx c t = TimerFired t2.
Proof.
  unfold rateLimitWait.
  destruct (_ && _); [|eauto]. rewrite select_never_done. eauto.
Qed.

End NoCancellation.

Lemma newRequest_same R c c' method path body :
  same_but_rate c c' ->
  newRequest R c' method path body = newRequest R c method path body.
Proof.
  intros H. apply same_but_rate_fields in H.
  destruct H as (Hb & Hu & Hk & Hi & _).
  unfold newRequest. rewrite Hb, Hu, Hk, Hi. reflexivity.
Qed.

Lemma newRequest_Ok R c method path body :
  http_NewRequest_err R method (baseURL c +:+ path) = None ->
  exists req, newRequest R c method path body = Ok req /\
              http.Method req = method /\ http.URL req = baseURL c +:+ path.
Proof.
  intros H. unfold newRequest. rewrite H. eexists; split; [reflexivity|]. split; reflexivity.
Qed.

Lemma answers_head R ctx n0 rt script hist t req :
  answers R ctx n0 (rt :: script) ->
  length hist = n0 ->
  (httpClient_Do R hist t ctx req).2 = rt.
Proof.
  intros H Hl. apply (H hist t req 0%nat rt); [lia | reflexivity].
Qed.

Lemma answers_tail R ctx n0 rt script :
  answers R ctx n0 (rt :: script) -> answers R ctx (S n0) script.
Proof.
  intros H hist t req i rt' Hl Hi.
  apply (H hist t req (S i) rt'); [lia | exact Hi].
Qed.

Lemma after_responses_frame c l : same_but_rate c (after_responses c l).
Proof.
  revert c; induction l as [|[err|resp] l IH]; intros c; simpl.
  - apply same_but_rate_refl.
  - apply IH.
  - eapply same_but_rate_trans; [apply updateRateLimits_frame | apply IH].
Qed.

Lemma retryable_failure rt : retryable rt -> is_Some (failure_of rt).
Proof.
  destruct rt as [err|resp]; simpl; [eauto|].
  destruct (http.Body resp); [|eauto].
  intros ->. simpl. eauto.
Qed.

(** While the outcomes are retryable and the context is never done, the
    loop goes through them one attempt each. *)
Lemma do_loop_retries R ctx method path body :
  context.doneAt ctx = None ->
  forall pre rest m attempt lastErr c w,
    http_NewRequest_err R method (baseURL c +:+ path) = None ->
    answers R ctx (length (exchanges w)) (pre ++ rest) ->
    Forall retryable pre ->
    exists w' l,
      do_loop R ctx method path body (length pre + m) attempt lastErr c w
      = do_loop R ctx method path body m (attempt + Z.of_nat (length pre))
          (last_failure lastErr pre) (after_responses c pre) w' /\
      made w w' l /\
      map ex_res l = rev pre /\
      Forall (fun e => newRequest R c method path body = Ok (ex_req e)) l /\
      answers R ctx (length (exchanges w')) rest.
Proof.
  intros Hctx pre. induction pre as [|rt pre IH]; intros rest m attempt lastErr c w Hreq Hans Hpre.
  - exists w, []. simpl. rewrite Z.add_0_r.
    repeat split; [apply Forall_nil; exact I | exact Hans].
  - apply Forall_cons in Hpre as [Hrt Hpre].
    simpl length. simpl Nat.add. cbn [do_loop].
    destruct (backoffWait_never_done R ctx Hctx c attempt (now w)) as [t1 ->].
    destruct (rateLimitWait_never_done R ctx Hctx c t1) as [t2 ->].
    destruct (newRequest_Ok R c method path body Hreq) as (req & Hnew & _).
    rewrite Hnew.
    pose proof (answers_head R ctx _ rt (pre ++ rest) (exchanges w) t2 req Hans eq_refl) as Hrt'.
    destruct (httpClient_Do R (exchanges w) t2 ctx req) as [elapsed res].
    simpl in Hrt'. subst res.
    set (w1 := {| now := t2 + elapsed; exchanges := _ |}).
    assert (Hans1 : answers R ctx (length (exchanges w1)) (pre ++ rest)).
    { simpl. eapply answers_tail; exact Hans. }
    assert (Hgo : forall c1,
      same_but_rate c c1 ->
      after_responses c (rt :: pre) = after_responses c1 pre ->
      exists w' l,
        do_loop R ctx method path body (length pre + m) (attempt + 1) (failure_of rt) c1 w1
        = do_loop R ctx method path body m (attempt + Z.of_nat (S (length pre)))
            (last_failure lastErr (rt :: pre)) (after_responses c (rt :: pre)) w' /\
        made w w' l /\ map ex_res l = rev (rt :: pre) /\
        Forall (fun e => newRequest R c method path body = Ok (ex_req e)) l /\
        answers R ctx (length (exchanges w')) rest).
    { intros c1 Hc1 Hafter.
      assert (Hreq1 : http_NewRequest_err R method (baseURL c1 +:+ path) = None).
      { apply same_but_rate_fields in Hc1 as (-> & _). exact Hreq. }
      destruct (IH rest m (attempt + 1) (failure_of rt) c1 w1 Hreq1 Hans1 Hpre)
        as (w' & l & Heq & Hl & Hmap & Hall & Hrest).
      exists w', (l ++ [{| ex_req := req; ex_res := rt |}]).
      split; [|split; [|split; [|split]]].
      - rewrite Heq, Hafter. unfold last_failure. simpl.
        replace (attempt + 1 + Z.of_nat (length pre))
          with (attempt + Z.pos (Pos.of_succ_nat (length pre))) by lia.
        reflexivity.
      - apply (made_trans w w1 w' _ _ (eq_refl : made w w1 [{| ex_req := req; ex_res := rt |}]) Hl).
      - rewrite map_app, Hmap. reflexivity.
      - apply Forall_app; split.
        + eapply Forall_impl; [exact Hall|]. intros e He.
          rewrite <- He. symmetry. apply newRequest_same, Hc1.
        + apply Forall_cons; split; [exact Hnew | apply Forall_nil; exact I].
      - exact Hrest. }
    rewrite Hnew in Hgo.
    destruct rt as [err|resp]; simpl in Hrt.
    + apply Hgo; [apply same_but_rate_refl | reflexivity].
    + simpl failure_of in Hgo.
      destruct (http.Body resp) as [respBody|err].
      * rewrite Hrt in *. simpl in *.
        apply Hgo; [apply updateRateLimits_frame | reflexivity].
      * apply Hgo; [apply updateRateLimits_frame | reflexivity].
Qed.

(** A readable response that is not a 429 ends the loop at once. *)
Lemma do_loop_decisive R ctx method path body :
  context.doneAt ctx = None ->
  forall m attempt lastErr c w resp respBody rest,
    http_NewRequest_err R method (baseURL c +:+ path) = None ->
    answers R ctx (length (exchanges w)) (DoResp resp :: rest) ->
    http.Body resp = Ok respBody ->
    http.StatusCode resp <> 429 ->
    exists w' req,
      do_loop R ctx method path body (S m) attempt lastErr c w
      = (verdict R resp respBody, updateRateLimits c resp, w') /\
      made w w' [{| ex_req := req; ex_res := DoResp resp |}] /\
      newRequest R c method path body = Ok req.
Proof.
  intros Hctx m attempt lastErr c w resp respBody rest Hreq Hans Hbody Hst.
  cbn [do_loop].
  destruct (backoffWait_never_done R ctx Hctx c attempt (now w)) as [t1 ->].
  destruct (rateLimitWait_never_done R ctx Hctx c t1) as [t2 ->].
  destruct (newRequest_Ok R c method path body Hreq) as (req & Hnew & _).
  rewrite Hnew.
  pose proof (answers_head R ctx _ _ rest (exchanges w) t2 req Hans eq_refl) as Hrt.
  destruct (httpClient_Do R (exchanges w) t2 ctx req) as [elapsed res].
  simpl in Hrt; subst res. rewrite Hbody.
  apply Z.eqb_neq in Hst. unfold http.StatusTooManyRequests. rewrite Hst.
  eexists; exists req.
  split; [unfold verdict; destruct (400 <=? http.StatusCode resp); reflexivity|].
  split; reflexivity.
Qed.

Lemma do_marshals R c w ctx method path body :
  sendable R c method path body ->
  do R c w ctx method path body
  = do_loop R ctx method path body (Z.to_nat (maxRetries c + 1)) 0 None c w.
Proof.
  intros [Hm _]. unfold do. destruct body as [b|]; [|reflexivity].
  destruct (json_Marshal R b); [reflexivity | discriminate].
Qed.

Lemma last_failure_snoc lastErr l rt :
  last_failure lastErr (l ++ [rt]) = failure_of rt.
Proof. unfold last_failure. rewrite fold_left_app. reflexivity. Qed.

Lemma after_responses_app c l1 l2 :
  after_responses c (l1 ++ l2) = after_responses (after_responses c l1) l2.
Proof.
  revert c; induction l1 as [|[err|resp] l1 IH]; intros c; simpl; auto.
Qed.

(** Retryable outcomes, then a readable response that is not a 429, all
    within the attempts the loop has: [do] stops at that response. *)
Lemma do_script_decisive R c w ctx method path body pre resp respBody :
  context.doneAt ctx = None ->
  sendable R c method path body ->
  answers R ctx (length (exchanges w)) (pre ++ [DoResp resp]) ->
  Forall retryable pre ->
  Z.of_nat (length pre) <= maxRetries c ->
  http.Body resp = Ok respBody ->
  http.StatusCode resp <> 429 ->
  exists w' l,
    do R c w ctx method path body
    = (verdict R resp respBody, after_responses c (pre ++ [DoResp resp]), w') /\
    made w w' l /\
    map ex_res l = rev (pre ++ [DoResp resp]) /\
    Forall (fun e => newRequest R c method path body = Ok (ex_req e)) l.
Proof.
  intros Hctx Hsend Hans Hpre Hk Hbody Hst.
  rewrite (do_marshals R c w ctx method path body Hsend).
  destruct Hsend as [_ Hreq].
  replace (Z.to_nat (maxRetries c + 1))
    with (length pre + S (Z.to_nat (maxRetries c) - length pre))%nat by lia.
  destruct (do_loop_retries R ctx method path body Hctx pre [DoResp resp]
              (S (Z.to_nat (maxRetries c) - length pre)) 0 None c w Hreq Hans Hpre)
    as (w1 & l1 & Heq & Hl1 & Hmap1 & Hall1 & Hans1).
  rewrite Heq.
  assert (Hreq1 : http_NewRequest_err R method (baseURL (after_responses c pre) +:+ path) = None).
  { pose proof (after_responses_frame c pre) as Hf.
    apply same_but_rate_fields in Hf as (-> & _). exact Hreq. }
  destruct (do_loop_decisive R ctx method path body Hctx
              (Z.to_nat (maxRetries c) - length pre) (0 + Z.of_nat (length pre))
              (last_failure None pre) (after_responses c pre) w1 resp respBody []
              Hreq1 Hans1 Hbody Hst)
    as (w' & req & Heq' & Hl' & Hnew').
  exists w', ([{| ex_req := req; ex_res := DoResp resp |}] ++ l1).
  split; [|split; [|split]].
  - rewrite Heq', after_responses_app. reflexivity.
  - eapply made_trans; eauto.
  - rewrite rev_app_distr. simpl. rewrite Hmap1. reflexivity.
  - apply Forall_cons; split; [|exact Hall1].
    simpl ex_req. rewrite <- Hnew'. symmetry.
    apply newRequest_same, after_responses_frame.
Qed.

(** Retryable outcomes for every attempt the loop has: [do] gives up. *)
Lemma do_script_exhausted R c w ctx method path body script :
  context.doneAt ctx = None ->
  sendable R c method path body ->
  answers R ctx (length (exchanges w)) script ->
  Forall retryable script ->
  Z.of_nat (length script) = maxRetries c + 1 ->
  exists w' l,
    do R c w ctx method path body
    = (Err (wrap "max retries exceeded" (last_failure None script)),
       after_responses c script, w') /\
    made w w' l /\
    map ex_res l = rev script /\
    Forall (fun e => newRequest R c method path body = Ok (ex_req e)) l.
Proof.
  intros Hctx Hsend Hans Hall Hlen.
  rewrite (do_marshals R c w ctx method path body Hsend).
  destruct Hsend as [_ Hreq].
  replace (Z.to_nat (maxRetries c + 1)) with (length script + 0)%nat by lia.
  rewrite <- (app_nil_r script) in Hans.
  destruct (do_loop_retries R ctx method path body Hctx script [] 0%nat 0 None c w
              Hreq Hans Hall)
    as (w' & l & Heq & Hl & Hmap & Hreqs & _).
  exists w', l. rewrite Heq. simpl. auto.
Qed.

(* ===================================================================== *)
(** ** Facts about the caches                                             *)
(* ===================================================================== *)

Lemma do_caches R c w ctx method path body :
  tagCache (client_of (do R c w ctx method path body)) = tagCache c /\
  taskCache (client_of (do R c w ctx method path body)) = taskCache c.
Proof.
  destruct (do_frame R c w ctx method path body) as [H _].
  apply same_but_rate_fields in H. tauto.
Qed.

Lemma do_tagCache R c w ctx method path body r c1 w1 :
  do R c w ctx method path body = (r, c1, w1) -> tagCache c1 = tagCache c.
Proof.
  intros H. pose proof (do_caches R c w ctx method path body) as [Ht _].
  rewrite H in Ht. exact Ht.
Qed.

Lemma do_taskCache R c w ctx method path body r c1 w1 :
  do R c w ctx method path body = (r, c1, w1) -> taskCache c1 = taskCache c.
Proof.
  intros H. pose proof (do_caches R c w ctx method path body) as [_ Ht].
  rewrite H in Ht. exact Ht.
Qed.

Lemma index_by_lookup {E : Type} (ID : E -> string) (data : list E) id e :
  index_by ID data !! id = Some e -> In e data /\ ID e = id.
Proof.
  unfold index_by.
  assert (H : forall (m : gmap string E),
             fold_left (fun m e => <[ID e := e]> m) data m !! id = Some e ->
             (In e data /\ ID e = id) \/ m !! id = Some e).
  { induction data as [|x data IH]; intros m Hm; simpl in *.
    - right; exact Hm.
    - destruct (IH _ Hm) as [[Hin Hid] | Hx].
      + left; split; [right; exact Hin | exact Hid].
      + destruct (decide (ID x = id)) as [Heq|Hne].
        * rewrite <- Heq, lookup_insert_eq in Hx. injection Hx as ->.
          left; split; [left; reflexivity | exact Heq].
        * rewrite lookup_insert_ne in Hx by exact Hne. right; exact Hx. }
  intros Hm. destruct (H ∅ Hm) as [Hd | Hempty]; [exact Hd|].
  rewrite lookup_empty in Hempty. discriminate.
Qed.

(** [populateTagCache], case by case. *)
Lemma populateTagCache_skip R c w ctx :
  is_Some (tagCache c) -> populateTagCache R c w ctx = (None, c, w).
Proof. intros [m Hm]. unfold populateTagCache. rewrite Hm. reflexivity. Qed.

Lemma populateTagCache_cold R c w ctx :
  tagCache c = None ->
  exists r c1 w1,
    Get R c w ctx "/tags" = (r, c1, w1) /\
    tagCache c1 = None /\
    populateTagCache R c w ctx
    = match r with
      | Err err => (Some err, c1, w1)
      | Ok resp =>
          match json_Unmarshal_Tags R resp with
          | Err err => (Some (Wrapf "unmarshaling response" err), c1, w1)
          | Ok apiResp =>
              (None, set_tagCache (Some (index_by Tag_ID (Data apiResp))) c1, w1)
          end
      end.
Proof.
  intros Hc. unfold populateTagCache. rewrite Hc.
  destruct (Get R c w ctx "/tags") as [[r c1] w1] eqn:HG.
  exists r, c1, w1. split; [reflexivity|]. split; [|reflexivity].
  unfold Get in HG. rewrite (do_tagCache _ _ _ _ _ _ _ _ _ _ HG). exact Hc.
Qed.

Lemma populateTagCache_ok R c w ctx c1 w1 :
  populateTagCache R c w ctx = (None, c1, w1) -> is_Some (tagCache c1).
Proof.
  destruct (tagCache c) as [m|] eqn:Hc.
  - rewrite populateTagCache_skip by (rewrite Hc; eauto).
    intros [= <- <-]. rewrite Hc; eauto.
  - destruct (populateTagCache_cold R c w ctx Hc) as (r & c2 & w2 & _ & _ & ->).
    destruct r as [resp|err]; [|discriminate].
    destruct (json_Unmarshal_Tags R resp); [|discriminate].
    intros [= <- <-]. simpl. eauto.
Qed.

Lemma populateTagCache_err R c w ctx err c1 w1 :
  populateTagCache R c w ctx = (Some err, c1, w1) ->
  tagCache c = None /\ tagCache c1 = None.
Proof.
  destruct (tagCache c) as [m|] eqn:Hc.
  - rewrite populateTagCache_skip by (rewrite Hc; eauto). discriminate.
  - destruct (populateTagCache_cold R c w ctx Hc) as (r & c2 & w2 & _ & Hc2 & ->).
    destruct r as [resp|e]; [destruct (json_Unmarshal_Tags R resp)|];
      intros [= ? <- <-]; auto.
Qed.

(** [populateTaskCache], case by case. *)
Lemma populateTaskCache_skip R c w ctx :
  is_Some (taskCache c) -> populateTaskCache R c w ctx = (None, c, w).
Proof. intros [m Hm]. unfold populateTaskCache. rewrite Hm. reflexivity. Qed.

Lemma populateTaskCache_cold R c w ctx :
  taskCache c = None ->
  exists r c1 w1,
    Get R c w ctx "/tasks/user" = (r, c1, w1) /\
    taskCache c1 = None /\
    populateTaskCache R c w ctx
    = match r with
      | Err err => (Some err, c1, w1)
      | Ok resp =>
          match json_Unmarshal_Tasks R resp with
          | Err err => (Some (Wrapf "unmarshaling response" err), c1, w1)
          | Ok apiResp =>
              (None, set_taskCache (Some (index_by Task_ID (Data apiResp))) c1, w1)
          end
      end.
Proof.
  intros Hc. unfold populateTaskCache. rewrite Hc.
  destruct (Get R c w ctx "/tasks/user") as [[r c1] w1] eqn:HG.
  exists r, c1, w1. split; [reflexivity|]. split; [|reflexivity].
  unfold Get in HG. rewrite (do_taskCache _ _ _ _ _ _ _ _ _ _ HG). exact Hc.
Qed.

Lemma populateTaskCache_ok R c w ctx c1 w1 :
  populateTaskCache R c w ctx = (None, c1, w1) -> is_Some (taskCache c1).
Proof.
  destruct (taskCache c) as [m|] eqn:Hc.
  - rewrite populateTaskCache_skip by (rewrite Hc; eauto).
    intros [= <- <-]. rewrite Hc; eauto.
  - destruct (populateTaskCache_cold R c w ctx Hc) as (r & c2 & w2 & _ & _ & ->).
    destruct r as [resp|err]; [|discriminate].
    destruct (json_Unmarshal_Tasks R resp); [|discriminate].
    intros [= <- <-]. simpl. eauto.
Qed.

Lemma populateTaskCache_err R c w ctx err c1 w1 :
  populateTaskCache R c w ctx = (Some err, c1, w1) ->
  taskCache c = None /\ taskCache c1 = None.
Proof.
  destruct (taskCache c) as [m|] eqn:Hc.
  - rewrite populateTaskCache_skip by (rewrite Hc; eauto). discriminate.
  - destruct (populateTaskCache_cold R c w ctx Hc) as (r & c2 & w2 & _ & Hc2 & ->).
    destruct r as [resp|e]; [destruct (json_Unmarshal_Tasks R resp)|];
      intros [= ? <- <-]; auto.
Qed.

(** [GetTag] and [GetTask] are their three steps run in a row. *)
Lemma GetTag_steps R c w ctx id :
  lookup_alone tagCache (populateTagCache R) tag_not_found ctx id c w
  = let '(r, c', w') := GetTag R c w ctx id in (Returned r, c', w').
Proof.
  unfold lookup_alone, GetTag, lookup_step.
  destruct (cache_lookup (tagCache c) id) as [tag|]; [reflexivity|].
  destruct (populateTagCache R c w ctx) as [[[err|] c1] w1]; [reflexivity|].
  destruct (cache_lookup (tagCache c1) id); reflexivity.
Qed.

Lemma GetTask_steps R c w ctx id :
  lookup_alone taskCache (populateTaskCache R) task_not_found ctx id c w
  = let '(r, c', w') := GetTask R c w ctx id in (Returned r, c', w').
Proof.
  unfold lookup_alone, GetTask, lookup_step.
  destruct (cache_lookup (taskCache c) id) as [task|]; [reflexivity|].
  destruct (populateTaskCache R c w ctx) as [[[err|] c1] w1]; [reflexivity|].
  destruct (cache_lookup (taskCache c1) id); reflexivity.
Qed.

Section LookupFacts.

Variable E : Type.
Variable cache : Client -> option (gmap string E).
Variable populate :
  Client -> World -> context.Context -> option error * Client * World.
Variable not_found : string -> error.

Hypothesis populate_skip :
  forall c w ctx, is_Some (cache c) -> populate c w ctx = (None, c, w).

Let step := lookup_step cache populate not_found.
Let run := interleave cache populate not_found.

(** A step that does not fetch leaves the client and the world alone; a
    step that reports a populated cache leaves one. *)
Lemma lookup_step_event ctx id ph c w ph' ev c' w' :
  step ctx id ph c w = (ph', ev, c', w') ->
  (is_fetch ev = false -> c' = c /\ w' = w) /\
  (ev = Fetched true -> is_Some (cache c')) /\
  (is_fetch ev = true -> cache c = None).
Proof.
  unfold step, lookup_step. destruct ph as [| | |r].
  - destruct (cache_lookup (cache c) id); intros [= <- <- <- <-];
      repeat split; discriminate.
  - destruct (cache c) as [m|] eqn:Hc.
    + rewrite populate_skip by (rewrite Hc; eauto).
      intros [= <- <- <- <-]. repeat split; discriminate.
    + destruct (populate c w ctx) as [[[err|] c1] w1]; intros [= <- <- <- <-].
      all: split; [discriminate|]; split; [|reflexivity].
      all: intros [= H]; apply bool_decide_eq_true in H; exact H.
  - destruct (cache_lookup (cache c) id); intros [= <- <- <- <-];
      repeat split; discriminate.
  - intros [= <- <- <- <-]. repeat split; discriminate.
Qed.

(** A fetch that does not populate the cache leaves it unpopulated. *)
Lemma lookup_step_failed ctx id ph c w ph' c' w' :
  step ctx id ph c w = (ph', Fetched false, c', w') -> cache c' = None.
Proof.
  unfold step, lookup_step. destruct ph as [| | |r].
  - destruct (cache_lookup (cache c) id); discriminate.
  - destruct (cache c) as [m|] eqn:Hc.
    + rewrite populate_skip by (rewrite Hc; eauto). discriminate.
    + destruct (populate c w ctx) as [[[err|] c1] w1]; intros [= _ H <- _];
        apply bool_decide_eq_false in H;
        (destruct (cache c1); [exfalso; apply H; eauto | reflexivity]).
  - destruct (cache_lookup (cache c) id); discriminate.
  - discriminate.
Qed.

(** While the cache is populated, steps neither fetch nor change anything. *)
Lemma interleave_populated sched :
  forall pool c w evs pool' c' w',
    is_Some (cache c) ->
    run sched pool c w = (evs, pool', c', w') ->
    c' = c /\ w' = w /\ Forall (fun e => is_fetch e = false) evs.
Proof.
  unfold run.
  induction sched as [|i sched IH]; intros pool c w evs pool' c' w' Hc; simpl.
  - intros [= <- <- <- <-]. auto.
  - destruct (pool !! i) as [lk|]; [|apply IH; exact Hc].
    destruct (lookup_step cache populate not_found (lk_ctx lk) (lk_id lk) (lk_phase lk) c w)
      as [[[ph ev] c1] w1] eqn:Hstep.
    destruct (interleave cache populate not_found sched _ c1 w1)
      as [[[evs0 pool0] c0] w0] eqn:Hrun.
    intros [= <- <- <- <-].
    destruct (lookup_step_event _ _ _ _ _ _ _ _ _ Hstep) as (Hno & _ & Hf).
    assert (Hev : is_fetch ev = false).
    { destruct (is_fetch ev) eqn:He; [|reflexivity].
      rewrite (Hf eq_refl) in Hc. destruct Hc as [? Hc]; discriminate. }
    destruct (Hno Hev) as [-> ->].
    destruct (IH _ _ _ _ _ _ _ Hc Hrun) as (-> & -> & Hall).
    repeat split. constructor; assumption.
Qed.

(** In any interleaving, a fetch that populates the cache is the last
    fetch, and the first that populates it. *)
Lemma interleave_one_success sched :
  forall pool c w evs pool' c' w',
    run sched pool c w = (evs, pool', c', w') ->
    forall evs1 evs2,
      evs = evs1 ++ Fetched true :: evs2 ->
      Forall (fun e => e <> Fetched true) evs1 /\
      Forall (fun e => is_fetch e = false) evs2.
Proof.
  unfold run.
  induction sched as [|i sched IH]; intros pool c w evs pool' c' w'; simpl.
  - intros [= <- <- <- <-] evs1 evs2 H. destruct evs1; discriminate.
  - destruct (pool !! i) as [lk|]; [|apply IH].
    destruct (lookup_step cache populate not_found (lk_ctx lk) (lk_id lk) (lk_phase lk) c w)
      as [[[ph ev] c1] w1] eqn:Hstep.
    destruct (interleave cache populate not_found sched _ c1 w1)
      as [[[evs0 pool0] c0] w0] eqn:Hrun.
    intros [= <- <- <- <-] evs1 evs2 Hsplit.
    destruct (lookup_step_event _ _ _ _ _ _ _ _ _ Hstep) as (_ & Hpop & _).
    destruct evs1 as [|e evs1]; simpl in Hsplit; injection Hsplit as -> ->.
    + split; [constructor|].
      destruct (interleave_populated _ _ _ _ _ _ _ _ (Hpop eq_refl) Hrun) as (_ & _ & H).
      exact H.
    + destruct (IH _ _ _ _ _ _ _ Hrun evs1 evs2 eq_refl) as [H1 H2].
      split; [|exact H2]. constructor; [|exact H1].
      intros ->.
      destruct (interleave_populated _ _ _ _ _ _ _ _ (Hpop eq_refl) Hrun) as (_ & _ & H).
      apply Forall_app in H as [_ H]. apply Forall_cons in H as [H _]. discriminate.
Qed.

(** The client and the world change in steps that fetch, and only there. *)
Lemma interleave_no_fetch sched :
  forall pool c w evs pool' c' w',
    run sched pool c w = (evs, pool', c', w') ->
    Forall (fun e => is_fetch e = false) evs ->
    c' = c /\ w' = w.
Proof.
  unfold run.
  induction sched as [|i sched IH]; intros pool c w evs pool' c' w'; simpl.
  - intros [= <- <- <- <-] _. auto.
  - destruct (pool !! i) as [lk|]; [|apply IH].
    destruct (lookup_step cache populate not_found (lk_ctx lk) (lk_id lk) (lk_phase lk) c w)
      as [[[ph ev] c1] w1] eqn:Hstep.
    destruct (interleave cache populate not_found sched _ c1 w1)
      as [[[evs0 pool0] c0] w0] eqn:Hrun.
    intros [= <- <- <- <-] Hall. apply Forall_cons in Hall as [Hev Hall].
    destruct (lookup_step_event _ _ _ _ _ _ _ _ _ Hstep) as (Hno & _ & _).
    destruct (Hno Hev) as [-> ->]. eapply IH; eauto.
Qed.

End LookupFacts.

(** A call of [do] that returns a body was answered with a status below
    400, by a response that is the last of the log. *)
Lemma do_loop_Ok_inv R ctx method path body n :
  forall attempt lastErr c w b c1 w1,
    do_loop R ctx method path body n attempt lastErr c w = (Ok b, c1, w1) ->
    answered_below_400 w1 method (baseURL c +:+ path) b.
Proof.
  induction n as [|n IH]; intros attempt lastErr c w b c1 w1; cbn [do_loop].
  - discriminate.
  - destruct (backoffWait R ctx c attempt (now w)) as [t1|t]; [|discriminate].
    destruct (rateLimitWait R ctx c t1) as [t2|t]; [|discriminate].
    destruct (newRequest R c method path body) as [req|e] eqn:Hnew; [|discriminate].
    assert (Hreq : http.Method req = method /\ http.URL req = baseURL c +:+ path).
    { unfold newRequest in Hnew.
      destruct (http_NewRequest_err R method (baseURL c +:+ path)); [discriminate|].
      injection Hnew as <-. split; reflexivity. }
    destruct (httpClient_Do R (exchanges w) t2 ctx req) as [elapsed res].
    assert (Hb : baseURL (updateRateLimits c match res with DoResp r => r | _ => response 0 "" end)
                 = baseURL c).
    { pose proof (updateRateLimits_frame c match res with DoResp r => r | _ => response 0 "" end) as Hf.
      apply same_but_rate_fields in Hf as (-> & _). reflexivity. }
    destruct res as [err|resp].
    + intros H. apply IH in H. exact H.
    + destruct (http.Body resp) as [respBody|err] eqn:Hbody.
      * destruct (http.StatusCode resp =? http.StatusTooManyRequests) eqn:H429.
        { intros H. apply IH in H. rewrite Hb in H. exact H. }
        destruct (400 <=? http.StatusCode resp) eqn:H400; [discriminate|].
        intros [= <- <- <-]. apply Z.leb_gt in H400.
        eexists _, _, resp. simpl. destruct Hreq. repeat split; auto.
      * intros H. apply IH in H. rewrite Hb in H. exact H.
Qed.

Lemma do_Ok_inv R c w ctx method path body b c1 w1 :
  do R c w ctx method path body = (Ok b, c1, w1) ->
  answered_below_400 w1 method (baseURL c +:+ path) b.
Proof.
  unfold do. destruct (match body with Some _ => _ | None => None end); [discriminate|].
  apply do_loop_Ok_inv.
Qed.

Lemma do_loop_Err_inv R ctx method path body n :
  forall attempt lastErr c w e c1 w1,
    do_loop R ctx method path body n attempt lastErr c w = (Err e, c1, w1) ->
    do_error R e.
Proof.
  induction n as [|n IH]; intros attempt lastErr c w e c1 w1; cbn [do_loop].
  - intros [= <- _ _]. constructor.
  - destruct (backoffWait R ctx c attempt (now w)) as [t1|t];
      [|intros [= <- _ _]; constructor].
    destruct (rateLimitWait R ctx c t1) as [t2|t];
      [|intros [= <- _ _]; constructor].
    unfold newRequest.
    destruct (http_NewRequest_err R method (baseURL c +:+ path));
      [intros [= <- _ _]; constructor|].
    destruct (httpClient_Do R (exchanges w) t2 ctx _) as [elapsed [err|resp]].
    + apply IH.
    + destruct (http.Body resp) as [respBody|err]; [|apply IH].
      destruct (http.StatusCode resp =? http.StatusTooManyRequests); [apply IH|].
      destruct (400 <=? http.StatusCode resp); [|discriminate].
      intros [= <- _ _]. constructor.
Qed.

Lemma do_Err_inv R c w ctx method path body e c1 w1 :
  do R c w ctx method path body = (Err e, c1, w1) -> do_error R e.
Proof.
  unfold do. destruct (match body with Some _ => _ | None => None end).
  - intros [= <- _ _]. constructor.
  - apply do_loop_Err_inv.
Qed.

(** No error of [do] reads as a not-found error of a cache. *)
Lemma do_error_not_found R e kind id :
  do_error R e ->
  (kind = "tag" \/ kind = "task") ->
  e <> Errorf (kind +:+ " not found: " +:+ id).
Proof.
  intros He Hk Heq. subst e. inversion He as [| | |status respBody H|lastErr H].
  - unfold apiError in H.
    assert (Hne : forall x, Errorf ("API error (" +:+ x)
                            <> Errorf (kind +:+ " not found: " +:+ id)).
    { intros x Hx. destruct Hk; subst kind; discriminate. }
    destruct (json_Unmarshal_any R respBody) as [a|];
      [destruct (negb (String.eqb (Message a) ""))|]; exact (Hne _ H).
  - destruct lastErr; discriminate.
Qed.

(** Lookups one after the other on a populated cache: every one is served
    from the cache, and the client and the world stay as they are. *)
Lemma GetTag_each_populated R calls c w :
  is_Some (tagCache c) ->
  GetTag_each R calls c w
  = (map (fun call => served (tagCache c) tag_not_found call.2) calls, c, w).
Proof.
  intros Hc. induction calls as [|[ctx id] calls IH]; [reflexivity|].
  simpl. unfold GetTag, served.
  destruct (cache_lookup (tagCache c) id) eqn:Hl.
  - rewrite IH. unfold served. reflexivity.
  - rewrite (populateTagCache_skip R c w ctx Hc), Hl, IH. reflexivity.
Qed.

Lemma GetTask_each_populated R calls c w :
  is_Some (taskCache c) ->
  GetTask_each R calls c w
  = (map (fun call => served (taskCache c) task_not_found call.2) calls, c, w).
Proof.
  intros Hc. induction calls as [|[ctx id] calls IH]; [reflexivity|].
  simpl. unfold GetTask, served.
  destruct (cache_lookup (taskCache c) id) eqn:Hl.
  - rewrite IH. unfold served. reflexivity.
  - rewrite (populateTaskCache_skip R c w ctx Hc), Hl, IH. reflexivity.
Qed.

Lemma index_by_In {E : Type} (ID : E -> string) (data : list E) e :
  In e data -> is_Some (index_by ID data !! ID e).
Proof.
  unfold index_by.
  assert (H : forall (m : gmap string E),
             In e data \/ is_Some (m !! ID e) ->
             is_Some (fold_left (fun m e => <[ID e := e]> m) data m !! ID e)).
  { induction data as [|x data IH]; intros m Hm; simpl in *.
    - destruct Hm as [[]|Hm]; exact Hm.
    - apply IH. destruct Hm as [[->|Hin]|Hm].
      + right. rewrite lookup_insert_eq. eauto.
      + left; exact Hin.
      + right. destruct (decide (ID x = ID e)) as [Heq|Hne].
        * rewrite Heq, lookup_insert_eq. eauto.
        * rewrite lookup_insert_ne by exact Hne. exact Hm. }
  intros Hin. apply H. left; exact Hin.
Qed.

(** Against a service that lists at once, a [Get] of the list sends one
    request and returns a body that decodes, or sends none and fails. *)
Lemma Get_listed R c w ctx path decodes :
  context.doneAt ctx = None ->
  lists R (baseURL c +:+ path) decodes ->
  let out := Get R c w ctx path in
  (exchanges (world_of out) = exchanges w /\ exists e, result_of out = Err e) \/
  (exists ex body,
      exchanges (world_of out) = ex :: exchanges w /\
      result_of out = Ok body /\ decodes body).
Proof.
  intros Hctx Hl. unfold Get, do.
  destruct (Z.to_nat (maxRetries c + 1)) as [|n]; cbn [do_loop].
  { left. split; [reflexivity | eauto]. }
  destruct (backoffWait R ctx c 0 (now w)) as [t1|t]; [|left; split; [reflexivity | eauto]].
  destruct (rateLimitWait R ctx c t1) as [t2|t]; [|left; split; [reflexivity | eauto]].
  unfold newRequest.
  destruct (http_NewRequest_err R http.MethodGet (baseURL c +:+ path));
    [left; split; [reflexivity | eauto]|].
  match goal with |- context [httpClient_Do R ?h ?t ctx ?req] =>
    destruct (Hl h t ctx req Hctx eq_refl eq_refl) as (resp & b & Hres & Hst & Hb & Hdec);
    destruct (httpClient_Do R h t ctx req) as [elapsed res]
  end.
  simpl in Hres. subst res. rewrite Hb.
  unfold http.StatusTooManyRequests.
  destruct (http.StatusCode resp =? 429) eqn:H429; [apply Z.eqb_eq in H429; lia|].
  destruct (400 <=? http.StatusCode resp) eqn:H400; [apply Z.leb_le in H400; lia|].
  right. eexists _, b. repeat split; auto.
Qed.

Lemma populateTagCache_baseURL R c w ctx perr c1 w1 :
  populateTagCache R c w ctx = (perr, c1, w1) -> baseURL c1 = baseURL c.
Proof.
  unfold populateTagCache. destruct (tagCache c); [intros [= _ <- _]; reflexivity|].
  pose proof (do_frame R c w ctx http.MethodGet "/tags" None) as [Hf _].
  apply same_but_rate_fields in Hf as (Hb & _). unfold Get.
  destruct (do R c w ctx http.MethodGet "/tags" None) as [[[resp|e] c2] w2];
    [destruct (json_Unmarshal_Tags R resp)|]; intros [= _ <- _]; exact Hb.
Qed.

Lemma populateTaskCache_baseURL R c w ctx perr c1 w1 :
  populateTaskCache R c w ctx = (perr, c1, w1) -> baseURL c1 = baseURL c.
Proof.
  unfold populateTaskCache. destruct (taskCache c); [intros [= _ <- _]; reflexivity|].
  pose proof (do_frame R c w ctx http.MethodGet "/tasks/user" None) as [Hf _].
  apply same_but_rate_fields in Hf as (Hb & _). unfold Get.
  destruct (do R c w ctx http.MethodGet "/tasks/user" None) as [[[resp|e] c2] w2];
    [destruct (json_Unmarshal_Tasks R resp)|]; intros [= _ <- _]; exact Hb.
Qed.

(** Against such a service, a populate of an unpopulated cache sends no
    request and leaves it unpopulated, or sends one and populates it. *)
Lemma populateTagCache_listed R c w ctx perr c1 w1 :
  context.doneAt ctx = None ->
  lists R (baseURL c +:+ "/tags") (decodes_Tags R) ->
  tagCache c = None ->
  populateTagCache R c w ctx = (perr, c1, w1) ->
  (tagCache c1 = None /\ exchanges w1 = exchanges w) \/
  (is_Some (tagCache c1) /\ exists ex, exchanges w1 = ex :: exchanges w).
Proof.
  intros Hctx Hl Hc.
  destruct (populateTagCache_cold R c w ctx Hc) as (r & c2 & w2 & HG & Hc2 & ->).
  pose proof (Get_listed R c w ctx "/tags" _ Hctx Hl) as H. rewrite HG in H.
  unfold result_of, world_of in H; simpl in H.
  destruct H as [[Hw [e ->]] | (ex & b & Hw & -> & Hdec)].
  - intros [= _ <- <-]. left; auto.
  - unfold decodes_Tags in Hdec.
    destruct (json_Unmarshal_Tags R b); [|discriminate].
    intros [= _ <- <-]. right. simpl. eauto.
Qed.

Lemma populateTaskCache_listed R c w ctx perr c1 w1 :
  context.doneAt ctx = None ->
  lists R (baseURL c +:+ "/tasks/user") (decodes_Tasks R) ->
  taskCache c = None ->
  populateTaskCache R c w ctx = (perr, c1, w1) ->
  (taskCache c1 = None /\ exchanges w1 = exchanges w) \/
  (is_Some (taskCache c1) /\ exists ex, exchanges w1 = ex :: exchanges w).
Proof.
  intros Hctx Hl Hc.
  destruct (populateTaskCache_cold R c w ctx Hc) as (r & c2 & w2 & HG & Hc2 & ->).
  pose proof (Get_listed R c w ctx "/tasks/user" _ Hctx Hl) as H. rewrite HG in H.
  unfold result_of, world_of in H; simpl in H.
  destruct H as [[Hw [e ->]] | (ex & b & Hw & -> & Hdec)].
  - intros [= _ <- <-]. left; auto.
  - unfold decodes_Tasks in Hdec.
    destruct (json_Unmarshal_Tasks R b); [|discriminate].
    intros [= _ <- <-]. right. simpl. eauto.
Qed.

Section LookupsListed.

Variable E : Type.
Variable cache : Client -> option (gmap string E).
Variable populate :
  Client -> World -> context.Context -> option error * Client * World.
Variable not_found : string -> error.
Variable base : string.

Hypothesis populate_skip :
  forall c w ctx, is_Some (cache c) -> populate c w ctx = (None, c, w).
Hypothesis populate_base :
  forall c w ctx perr c1 w1,
    populate c w ctx = (perr, c1, w1) -> baseURL c1 = baseURL c.
Hypothesis populate_listed :
  forall c w ctx perr c1 w1,
    context.doneAt ctx = None ->
    baseURL c = base ->
    cache c = None ->
    populate c w ctx = (perr, c1, w1) ->
    (cache c1 = None /\ exchanges w1 = exchanges w) \/
    (is_Some (cache c1) /\ exists ex, exchanges w1 = ex :: exchanges w).

(** Against a service that lists, any interleaving of lookups whose
    contexts are never done sends one request at most, and none unless it
    populates the cache. *)
Lemma interleave_listed sched :
  forall pool c w evs pool' c' w',
    never_cancelled pool ->
    baseURL c = base ->
    interleave cache populate not_found sched pool c w = (evs, pool', c', w') ->
    (cache c' = None /\ exchanges w' = exchanges w) \/
    (is_Some (cache c') /\ exists l, made w w' l /\ (length l <= 1)%nat).
Proof.
  induction sched as [|i sched IH]; intros pool c w evs pool' c' w' Hpool Hb; simpl.
  - intros [= <- <- <- <-]. destruct (cache c) eqn:Hc; [right | left; auto].
    split; [eauto | exists []; split; [reflexivity | simpl; lia]].
  - destruct (pool !! i) as [lk|] eqn:Hlk; [|apply IH; assumption].
    pose proof (Forall_lookup_1 _ _ _ _ Hpool Hlk) as Hlkctx. simpl in Hlkctx.
    assert (Hpool1 : forall ph, never_cancelled
              (<[i := {| lk_ctx := lk_ctx lk; lk_id := lk_id lk; lk_phase := ph |}]> pool)).
    { intros ph. apply Forall_insert; [exact Hpool | exact Hlkctx]. }
    destruct (lookup_step cache populate not_found (lk_ctx lk) (lk_id lk) (lk_phase lk) c w)
      as [[[ph ev] c1] w1] eqn:Hstep.
    destruct (interleave cache populate not_found sched _ c1 w1)
      as [[[evs0 pool0] c0] w0] eqn:Hrun.
    intros [= <- <- <- <-].
    destruct (cache c) as [m|] eqn:Hc.
    + assert (Hs : is_Some (cache c)) by (rewrite Hc; eauto).
      destruct (interleave_populated E cache populate not_found populate_skip
                  (i :: sched) pool c w (ev :: evs0) pool0 c0 w0 Hs) as (-> & -> & _).
      { simpl. rewrite Hlk, Hstep, Hrun. reflexivity. }
      right. split; [exact Hs | exists []; split; [reflexivity | simpl; lia]].
    + assert (Hone : (c1 = c /\ w1 = w) \/
                     (baseURL c1 = base /\
                      ((cache c1 = None /\ exchanges w1 = exchanges w) \/
                       (is_Some (cache c1) /\ exists ex, exchanges w1 = ex :: exchanges w)))).
      { unfold lookup_step in Hstep. destruct (lk_phase lk) as [| | |r].
        - destruct (cache_lookup (cache c) (lk_id lk)); injection Hstep as _ _ <- <-; auto.
        - destruct (populate c w (lk_ctx lk)) as [[perr c2] w2] eqn:Hpop.
          assert (c1 = c2 /\ w1 = w2) as [-> ->]
            by (destruct perr; injection Hstep as _ _ <- <-; auto).
          right. split.
          + rewrite (populate_base _ _ _ _ _ _ Hpop). exact Hb.
          + eapply populate_listed; eauto.
        - destruct (cache_lookup (cache c) (lk_id lk)); injection Hstep as _ _ <- <-; auto.
        - injection Hstep as _ _ <- <-; auto. }
      destruct Hone as [[-> ->] | [Hb1 [[Hc1 Hw1] | [Hc1 [ex Hw1]]]]].
      * exact (IH _ _ _ _ _ _ _ (Hpool1 _) Hb Hrun).
      * destruct (IH _ _ _ _ _ _ _ (Hpool1 _) Hb1 Hrun) as [[H0 Hw0] | [H0 (l & Hl & Hlen)]].
        -- left. split; [exact H0 | congruence].
        -- right. split; [exact H0|]. exists l. split; [|exact Hlen].
           unfold made in *. congruence.
      * destruct (interleave_populated E cache populate not_found populate_skip
                    sched _ c1 w1 evs0 pool0 c0 w0 Hc1 Hrun) as (-> & -> & _).
        right. split; [exact Hc1|]. exists [ex]. split; [exact Hw1 | simpl; lia].
Qed.

End LookupsListed.

Lemma GetTag_each_app R calls1 calls2 c w :
  GetTag_each R (calls1 ++ calls2) c w
  = let out1 := GetTag_each R calls1 c w in
    let out2 := GetTag_each R calls2 (client_of out1) (world_of out1) in
    (result_of out1 ++ result_of out2, client_of out2, world_of out2).
Proof.
  unfold result_of, client_of, world_of.
  revert c w. induction calls1 as [|[ctx id] calls1 IH]; intros c w; simpl.
  - destruct (GetTag_each R calls2 c w) as [[rs c'] w']. reflexivity.
  - destruct (GetTag R c w ctx id) as [[r c1] w1]. rewrite IH.
    destruct (GetTag_each R calls1 c1 w1) as [[rs1 c2] w2]. simpl.
    destruct (GetTag_each R calls2 c2 w2) as [[rs2 c3] w3]. reflexivity.
Qed.

Lemma GetTask_each_app R calls1 calls2 c w :
  GetTask_each R (calls1 ++ calls2) c w
  = let out1 := GetTask_each R calls1 c w in
    let out2 := GetTask_each R calls2 (client_of out1) (world_of out1) in
    (result_of out1 ++ result_of out2, client_of out2, world_of out2).
Proof.
  unfold result_of, client_of, world_of.
  revert c w. induction calls1 as [|[ctx id] calls1 IH]; intros c w; simpl.
  - destruct (GetTask_each R calls2 c w) as [[rs c'] w']. reflexivity.
  - destruct (GetTask R c w ctx id) as [[r c1] w1]. rewrite IH.
    destruct (GetTask_each R calls1 c1 w1) as [[rs1 c2] w2]. simpl.
    destruct (GetTask_each R calls2 c2 w2) as [[rs2 c3] w3]. reflexivity.
Qed.

(* ===================================================================== *)
(** ** The retry loop                                                     *)
(* ===================================================================== *)

Lemma New_maxRetries cfg : 1 <= maxRetries (New cfg).
Proof.
  unfold New; simpl. destruct (MaxRetries cfg <=? 0) eqn:H;
    [unfold DefaultMaxRetries; lia | apply Z.leb_gt in H; lia].
Qed.

Lemma answers_playing script rt :
  answers (toy_runtime (playing script rt)) context.Background 0 script.
Proof.
  intros hist t req i rt' Hl Hi. simpl in Hl. subst i.
  apply (nth_lookup_Some _ _ rt) in Hi. exact Hi.
Defined.

Lemma sendable_toy serve c method path body :
  sendable (toy_runtime serve) c method path body.
Proof. split; [destruct body; reflexivity | reflexivity]. Defined.

(** C1.  When the context is never cancelled, the request can be built and
    the network gives a retryable outcome (a failed round trip, an
    unreadable body or a 429) to each of the attempts [0 .. maxRetries],
    [do] makes exactly [maxRetries + 1] attempts, one per outcome, and
    returns the error "max retries exceeded" wrapping the failure recorded
    for the last of them. *)
Theorem do_max_retries_exceeded R c w ctx method path body script :
  0 <= maxRetries c ->
  context.doneAt ctx = None ->
  sendable R c method path body ->
  answers R ctx (length (exchanges w)) script ->
  Forall retryable script ->
  Z.of_nat (length script) = maxRetries c + 1 ->
  exists c' w' l last e,
    do R c w ctx method path body
    = (Err (Wrapf "max retries exceeded" e), c', w') /\
    made w w' l /\
    Z.of_nat (length l) = maxRetries c + 1 /\
    map ex_res l = rev script /\
    head l = Some last /\
    failure_of (ex_res last) = Some e /\
    error_Unwrap (Wrapf "max retries exceeded" e) = Some e /\
    error_Error (Wrapf "max retries exceeded" e)
    = "max retries exceeded: " +:+ error_Error e.
Proof.
  intros Hmax Hctx Hsend Hans Hall Hlen.
  destruct (do_script_exhausted R c w ctx method path body script
              Hctx Hsend Hans Hall Hlen) as (w' & l & Heq & Hl & Hmap & _).
  destruct (exists_last (l := script)) as (pre & rt & ->).
  { intros ->. simpl in Hlen. lia. }
  rewrite last_failure_snoc in Heq.
  apply Forall_app in Hall as [_ Hrt]. apply Forall_cons in Hrt as [Hrt _].
  destruct (retryable_failure rt Hrt) as [e He].
  rewrite rev_app_distr in Hmap. simpl in Hmap.
  destruct l as [|last l]; [discriminate|]. injection Hmap as Hlast Hrest.
  exists (after_responses c (pre ++ [rt])), w', (last :: l), last, e.
  rewrite Heq, He. simpl wrap.
  repeat split; try assumption.
  - rewrite <- Hlen. f_equal. simpl. rewrite length_app. simpl.
    rewrite <- (length_map ex_res l), Hrest, length_rev. lia.
  - simpl. rewrite Hlast, Hrest, rev_app_distr. reflexivity.
  - rewrite Hlast. exact He.
Qed.

(** With [MaxRetries: 3] and a service that always answers 429, four
    attempts are made and the call fails with the exhausted-retries error. *)
Lemma do_max_retries_exceeded_witness :
  exists c' w' l last e,
    do (toy_runtime (playing (replicate 4 (DoResp (response 429 "rate-limited")))
                       (DoResp (response 200 "ok"))))
       (New (test_config 3)) (fresh_world 0) context.Background
       http.MethodGet "/test" None
    = (Err (Wrapf "max retries exceeded" e), c', w') /\
    made (fresh_world 0) w' l /\
    Z.of_nat (length l) = maxRetries (New (test_config 3)) + 1 /\
    map ex_res l = rev (replicate 4 (DoResp (response 429 "rate-limited"))) /\
    head l = Some last /\
    failure_of (ex_res last) = Some e /\
    error_Unwrap (Wrapf "max retries exceeded" e) = Some e /\
    error_Error (Wrapf "max retries exceeded" e)
    = "max retries exceeded: " +:+ error_Error e.
Proof.
  apply (do_max_retries_exceeded
           (toy_runtime (playing (replicate 4 (DoResp (response 429 "rate-limited")))
                           (DoResp (response 200 "ok"))))
           (New (test_config 3)) (fresh_world 0) context.Background
           http.MethodGet "/test" None
           (replicate 4 (DoResp (response 429 "rate-limited")))).
  - vm_compute. discriminate.
  - reflexivity.
  - apply sendable_toy.
  - apply answers_playing.
  - repeat constructor.
  - reflexivity.
Defined.

(** C2.  When the context is never cancelled and the request can be built:
    if the first [k] responses have status 429 and the next response has a
    status below 400 and a readable body, with [k + 1 <= maxRetries + 1],
    [do] returns the body of that response and makes exactly [k + 1]
    attempts. *)
Theorem do_succeeds_after_429s R c w ctx method path body
    (limited : list http.Response) (resp : http.Response) (respBody : string) :
  context.doneAt ctx = None ->
  sendable R c method path body ->
  answers R ctx (length (exchanges w)) (map DoResp limited ++ [DoResp resp]) ->
  Forall (fun r => http.StatusCode r = 429) limited ->
  http.StatusCode resp < 400 ->
  http.Body resp = Ok respBody ->
  Z.of_nat (length limited) + 1 <= maxRetries c + 1 ->
  exists c' w' l,
    do R c w ctx method path body = (Ok respBody, c', w') /\
    made w w' l /\
    length l = (length limited + 1)%nat /\
    map ex_res l = rev (map DoResp limited ++ [DoResp resp]).
Proof.
  intros Hctx Hsend Hans H429 Hst Hbody Hk.
  assert (Hpre : Forall retryable (map DoResp limited)).
  { apply Forall_map. eapply Forall_impl; [exact H429|].
    intros r Hr. simpl. destruct (http.Body r); [exact Hr | exact I]. }
  destruct (do_script_decisive R c w ctx method path body (map DoResp limited)
              resp respBody Hctx Hsend Hans Hpre) as (w' & l & Heq & Hl & Hmap & _);
    [rewrite length_map; lia | exact Hbody | lia |].
  exists (after_responses c (map DoResp limited ++ [DoResp resp])), w', l.
  split; [|split; [exact Hl | split; [|exact Hmap]]].
  - rewrite Heq. unfold verdict.
    destruct (400 <=? http.StatusCode resp) eqn:H; [apply Z.leb_le in H; lia | reflexivity].
  - rewrite <- (length_map ex_res l), Hmap, length_rev, length_app, length_map.
    reflexivity.
Qed.

(** Two 429 responses, then a 200: three attempts, and the call succeeds. *)
Lemma do_succeeds_after_429s_witness :
  exists c' w' l,
    do (toy_runtime (playing [DoResp (response 429 "rate-limited");
                              DoResp (response 429 "rate-limited");
                              DoResp (response 200 "ok")]
                       (DoResp (response 200 "ok"))))
       (New (test_config 5)) (fresh_world 0) context.Background
       http.MethodGet "/test" None
    = (Ok "ok", c', w') /\
    made (fresh_world 0) w' l /\
    length l = 3%nat /\
    map ex_res l = rev (map DoResp [response 429 "rate-limited"; response 429 "rate-limited"]
                          ++ [DoResp (response 200 "ok")]).
Proof.
  apply (do_succeeds_after_429s
           (toy_runtime (playing [DoResp (response 429 "rate-limited");
                                  DoResp (response 429 "rate-limited");
                                  DoResp (response 200 "ok")]
                           (DoResp (response 200 "ok"))))
           (New (test_config 5)) (fresh_world 0) context.Background
           http.MethodGet "/test" None
           [response 429 "rate-limited"; response 429 "rate-limited"]
           (response 200 "ok") "ok").
  - reflexivity.
  - apply sendable_toy.
  - apply answers_playing.
  - repeat constructor.
  - reflexivity.
  - reflexivity.
  - vm_compute. discriminate.
Defined.

Lemma contains_middle pre sub post : contains (pre +:+ sub +:+ post) sub.
Proof. exists pre, post. reflexivity. Qed.

Lemma append_empty_r (s : string) : s +:+ "" = s.
Proof.
  induction s as [|a s IH]; [reflexivity|].
  change (String a (s +:+ "") = String a s). rewrite IH. reflexivity.
Qed.

Lemma append_assoc (s1 s2 s3 : string) : (s1 +:+ s2) +:+ s3 = s1 +:+ s2 +:+ s3.
Proof.
  induction s1 as [|a s1 IH]; [reflexivity|].
  change (String a ((s1 +:+ s2) +:+ s3) = String a (s1 +:+ s2 +:+ s3)).
  rewrite IH. reflexivity.
Qed.

Lemma contains_suffix pre sub : contains (pre +:+ sub) sub.
Proof. exists pre, "". rewrite append_empty_r. reflexivity. Qed.

(** The text of the error for a status of 400 or more: the status in
    decimal, then the message of the envelope if the body decodes to one
    with a message, else the body as it came. *)
Lemma apiError_text R status respBody :
  exists detail,
    apiError R status respBody
    = Errorf ("API error (" +:+ pretty status +:+ "): " +:+ detail) /\
    (forall apiResp, json_Unmarshal_any R respBody = Ok apiResp ->
                     Message apiResp <> "" -> detail = Message apiResp) /\
    ((forall apiResp, json_Unmarshal_any R respBody = Ok apiResp ->
                      Message apiResp = "") -> detail = respBody).
Proof.
  unfold apiError.
  destruct (json_Unmarshal_any R respBody) as [apiResp|err].
  - destruct (String.eqb_spec (Message apiResp) "") as [Hm|Hm]; simpl.
    + exists respBody. split; [reflexivity|]. split; [|reflexivity].
      intros a Ha Hne. injection Ha as <-. contradiction.
    + exists (Message apiResp). split; [reflexivity|]. split.
      * intros a Ha _. injection Ha as <-. reflexivity.
      * intros H. specialize (H apiResp eq_refl). contradiction.
  - exists respBody. split; [reflexivity|]. split; [|reflexivity].
    intros a Ha. discriminate.
Qed.

(** C3.  When the context is never cancelled and the request can be built:
    a readable response with a status of 400 or more other than 429,
    coming after any number [<= maxRetries] of retryable failures, ends
    [do] at once with an error, and the log ends with that response (no
    attempt follows it).  The text of the error holds the status code,
    followed by the [message] of the envelope when the body decodes to an
    envelope with a non-empty message, and by the raw body otherwise. *)
Theorem do_terminal_error R c w ctx method path body
    (pre : list RoundTrip) (resp : http.Response) (respBody : string) :
  context.doneAt ctx = None ->
  sendable R c method path body ->
  answers R ctx (length (exchanges w)) (pre ++ [DoResp resp]) ->
  Forall retryable pre ->
  Z.of_nat (length pre) <= maxRetries c ->
  http.Body resp = Ok respBody ->
  400 <= http.StatusCode resp ->
  http.StatusCode resp <> 429 ->
  exists err detail c' w' l,
    do R c w ctx method path body = (Err err, c', w') /\
    made w w' l /\
    length l = (length pre + 1)%nat /\
    map ex_res l = DoResp resp :: rev pre /\
    error_Error err
    = "API error (" +:+ pretty (http.StatusCode resp) +:+ "): " +:+ detail /\
    contains (error_Error err) (pretty (http.StatusCode resp)) /\
    contains (error_Error err) detail /\
    (forall apiResp, json_Unmarshal_any R respBody = Ok apiResp ->
                     Message apiResp <> "" -> detail = Message apiResp) /\
    ((forall apiResp, json_Unmarshal_any R respBody = Ok apiResp ->
                      Message apiResp = "") -> detail = respBody).
Proof.
  intros Hctx Hsend Hans Hpre Hk Hbody H400 H429.
  destruct (do_script_decisive R c w ctx method path body pre resp respBody
              Hctx Hsend Hans Hpre Hk Hbody H429) as (w' & l & Heq & Hl & Hmap & _).
  destruct (apiError_text R (http.StatusCode resp) respBody) as (detail & Herr & Hmsg & Hraw).
  exists (apiError R (http.StatusCode resp) respBody), detail,
    (after_responses c (pre ++ [DoResp resp])), w', l.
  rewrite rev_app_distr in Hmap. simpl in Hmap.
  split; [|split; [exact Hl | split; [|split; [exact Hmap|]]]].
  - rewrite Heq. unfold verdict.
    destruct (400 <=? http.StatusCode resp) eqn:H; [reflexivity | apply Z.leb_gt in H; lia].
  - rewrite <- (length_map ex_res l), Hmap. simpl. rewrite length_rev. lia.
  - rewrite Herr. simpl error_Error.
    split; [reflexivity|]. split; [apply contains_middle|].
    split; [|split; assumption].
    replace ("API error (" +:+ pretty (http.StatusCode resp) +:+ "): " +:+ detail)
      with (("API error (" +:+ pretty (http.StatusCode resp) +:+ "): ") +:+ detail).
    + apply contains_suffix.
    + rewrite !append_assoc. reflexivity.
Qed.

(** A single 400 whose body carries a message: one attempt, and the error
    reads "API error (400): Invalid input". *)
Lemma do_terminal_error_witness :
  exists err detail c' w' l,
    do (toy_runtime (always (DoResp (response 400 "invalid-input"))))
       (New (test_config 0)) (fresh_world 0) context.Background
       http.MethodGet "/test" None
    = (Err err, c', w') /\
    made (fresh_world 0) w' l /\
    length l = 1%nat /\
    map ex_res l = [DoResp (response 400 "invalid-input")] /\
    error_Error err = "API error (" +:+ pretty 400 +:+ "): " +:+ detail /\
    contains (error_Error err) (pretty 400) /\
    contains (error_Error err) detail /\
    (forall apiResp,
        json_Unmarshal_any (toy_runtime (always (DoResp (response 400 "invalid-input"))))
          "invalid-input" = Ok apiResp ->
        Message apiResp <> "" -> detail = Message apiResp) /\
    ((forall apiResp,
         json_Unmarshal_any (toy_runtime (always (DoResp (response 400 "invalid-input"))))
           "invalid-input" = Ok apiResp ->
         Message apiResp = "") -> detail = "invalid-input").
Proof.
  apply (do_terminal_error
           (toy_runtime (always (DoResp (response 400 "invalid-input"))))
           (New (test_config 0)) (fresh_world 0) context.Background
           http.MethodGet "/test" None [] (response 400 "invalid-input") "invalid-input").
  - reflexivity.
  - apply sendable_toy.
  - intros hist t req i rt _ Hi. destruct i; [|discriminate].
    injection Hi as <-. reflexivity.
  - constructor.
  - vm_compute. discriminate.
  - reflexivity.
  - vm_compute. discriminate.
  - discriminate.
Defined.

(** The tests of the client, run on the model. *)
Example test_4xx_no_retry :
  let out := do (toy_runtime (always (DoResp (response 400 "bad-request"))))
                (New (test_config 0)) (fresh_world 0) context.Background
                http.MethodGet "/test" None in
  result_of out = Err (Errorf "API error (400): bad-request") /\
  length (exchanges (world_of out)) = 1%nat.
Proof. vm_compute. split; reflexivity. Qed.

Example test_error_response_parsing :
  result_of (do (toy_runtime (always (DoResp (response 400 "invalid-input"))))
               (New (test_config 0)) (fresh_world 0) context.Background
               http.MethodGet "/test" None)
  = Err (Errorf "API error (400): Invalid input").
Proof. vm_compute. reflexivity. Qed.

Example test_max_retries_exceeded :
  let out := do (toy_runtime (always (DoResp (response 429 "rate-limited"))))
                (New (test_config 3)) (fresh_world 0) context.Background
                http.MethodGet "/test" None in
  result_of out
  = Err (Wrapf "max retries exceeded" (Errorf "rate limited (429)")) /\
  length (exchanges (world_of out)) = 4%nat /\
  now (world_of out) = 70 * time.Millisecond.
Proof. vm_compute. repeat split; reflexivity. Qed.

(* ===================================================================== *)
(** ** Cancellation                                                       *)
(* ===================================================================== *)

Lemma select_cancelled R ctx t d :
  cancelled_before ctx t d ->
  select_Done_After R ctx t d = CtxDone (cancelled_at ctx t).
Proof.
  intros (tc & Hd & Hlt). unfold select_Done_After, cancelled_at. rewrite Hd.
  destruct (tc <? t + Z.max 0 d) eqn:H; [reflexivity | apply Z.ltb_ge in H; lia].
Qed.

(** Without overflow the backoff is [baseRetryDelay * 2^(attempt-1)]. *)
Lemma backoffDelay_exact c attempt :
  1 <= attempt ->
  0 <= baseRetryDelay c ->
  baseRetryDelay c * 2 ^ (attempt - 1) < 2 ^ 63 ->
  backoffDelay c attempt = baseRetryDelay c * 2 ^ (attempt - 1).
Proof.
  intros Ha Hb Hlt. unfold backoffDelay, shl64.
  assert (Hp : 0 < 2 ^ (attempt - 1)) by (apply Z.pow_pos_nonneg; lia).
  destruct (Z.eq_dec (baseRetryDelay c) 0) as [H0|H0].
  - rewrite H0, !Z.mul_0_l. reflexivity.
  - assert (Hs : attempt - 1 < 63).
    { destruct (Z.lt_ge_cases (attempt - 1) 63) as [|Hge]; [assumption|].
      assert (2 ^ 63 <= 2 ^ (attempt - 1)) by (apply Z.pow_le_mono_r; lia). nia. }
    assert (Hp63 : 2 ^ (attempt - 1) < 2 ^ 63) by (apply Z.pow_lt_mono_r; lia).
    destruct (attempt - 1 <? 64) eqn:H64; [|apply Z.ltb_ge in H64; lia].
    rewrite Z.shiftl_mul_pow2, Z.mul_1_l by lia.
    assert (Hw : forall x, 0 <= x < 2 ^ 63 -> wrap64 x = x).
    { intros x Hx. unfold wrap64. rewrite Z.mod_small; lia. }
    rewrite (Hw (2 ^ (attempt - 1))) by lia.
    apply Hw. nia.
Qed.

(** The waits of a client with the default configuration double from two
    seconds on; past 63 doublings the shift gives 0 and the wait is empty. *)
Example backoffDelay_examples :
  let c := New {| UserID := "u"; APIKey := "k"; ClientAuthorID := "a";
                  ClientAppName := ""; RateLimitBuffer := 0; MaxRetries := 0;
                  BaseRetryDelay := 0 |} in
  map (backoffDelay c) [1; 2; 3; 4; 5]
  = [2 * time.Second; 4 * time.Second; 8 * time.Second; 16 * time.Second;
     32 * time.Second] /\
  backoffDelay c 65 = 0.
Proof. vm_compute. split; reflexivity. Qed.

(** C8.  In any iteration of the loop of [do] (the call [do] is the loop
    from attempt 0, and each iteration is the loop from its own state): if
    the context is done before the timer of the backoff wait fires, or the
    backoff is over and the context is done before the timer of the
    rate-limit wait fires, the call returns [ctx.Err()] and nothing else,
    at the instant the context is done (or at once, if it was done before
    the wait began), and the attempt that was to follow is not made: the
    client and the log of requests are as they were. *)
Theorem do_loop_cancelled_in_wait R ctx method path body n attempt lastErr c w :
  cancelled_in_backoff ctx c attempt (now w) \/
  (exists t1, backoffWait R ctx c attempt (now w) = TimerFired t1 /\
              cancelled_in_rate_wait ctx c t1) ->
  exists t,
    do_loop R ctx method path body (S n) attempt lastErr c w
    = (Err (CtxError (context.cause ctx)), c, set_now t w) /\
    exchanges (set_now t w) = exchanges w /\
    context.Done ctx t = true /\
    (cancelled_in_backoff ctx c attempt (now w) -> t = cancelled_at ctx (now w)).
Proof.
  intros [[Hpos Hc] | (t1 & Hb & Hrem & Hreset & Hc)]; cbn [do_loop].
  - exists (cancelled_at ctx (now w)).
    unfold backoffWait. apply Z.ltb_lt in Hpos. rewrite Hpos.
    rewrite (select_cancelled R ctx _ _ Hc).
    repeat split.
    destruct Hc as (tc & Hd & _). unfold context.Done, cancelled_at. rewrite Hd.
    apply Z.leb_le. lia.
  - exists (cancelled_at ctx t1).
    rewrite Hb. unfold rateLimitWait, time.Before.
    apply Z.ltb_lt in Hrem, Hreset. rewrite Hrem, Hreset. simpl.
    rewrite (select_cancelled R ctx _ _ Hc).
    split; [reflexivity|]. split; [reflexivity|]. split.
    + destruct Hc as (tc & Hd & _). unfold context.Done, cancelled_at. rewrite Hd.
      apply Z.leb_le. lia.
    + intros [Hpos Hc']. unfold backoffWait in Hb.
      apply Z.ltb_lt in Hpos. rewrite Hpos in Hb.
      rewrite (select_cancelled R ctx _ _ Hc') in Hb. discriminate.
Qed.

(** A context whose deadline falls 5 ms into the 20 ms backoff before the
    second retry: the call ends at the deadline with the deadline error. *)
Lemma do_loop_cancelled_in_wait_witness :
  exists t,
    do_loop (toy_runtime (always (DoResp (response 200 "ok"))))
      (context.WithDeadline (5 * time.Millisecond)) http.MethodGet "/test" None
      (S 3) 2 (Some (Errorf "rate limited (429)")) (New (test_config 5)) (fresh_world 0)
    = (Err (CtxError DeadlineExceeded), New (test_config 5), set_now t (fresh_world 0)) /\
    exchanges (set_now t (fresh_world 0)) = [] /\
    context.Done (context.WithDeadline (5 * time.Millisecond)) t = true /\
    (cancelled_in_backoff (context.WithDeadline (5 * time.Millisecond))
       (New (test_config 5)) 2 0 ->
     t = cancelled_at (context.WithDeadline (5 * time.Millisecond)) 0).
Proof.
  apply (do_loop_cancelled_in_wait
           (toy_runtime (always (DoResp (response 200 "ok"))))
           (context.WithDeadline (5 * time.Millisecond)) http.MethodGet "/test" None
           3 2 (Some (Errorf "rate limited (429)")) (New (test_config 5)) (fresh_world 0)).
  left. split; [reflexivity|].
  exists (5 * time.Millisecond). split; [reflexivity | vm_compute; reflexivity].
Defined.

(** The cancellation test of the client: a deadline of 10 ms against an
    answer that takes 100 ms.  The round trip fails at the deadline and the
    backoff wait that follows is left at once with the deadline error. *)
Example test_context_cancellation :
  let out := do (toy_runtime (fun _ _ => (100 * time.Millisecond,
                                           DoResp (response 200 "ok"))))
                (New (test_config 0)) (fresh_world 0)
                (context.WithDeadline (10 * time.Millisecond))
                http.MethodGet "/test" None in
  result_of out = Err (CtxError DeadlineExceeded) /\
  length (exchanges (world_of out)) = 1%nat /\
  now (world_of out) = 10 * time.Millisecond.
Proof. vm_compute. repeat split; reflexivity. Qed.

(** A wait of the rate-limit gate: 3 requests left with a buffer of 5 and a
    reset one minute ahead; the context is cancelled after one second. *)
Example test_rate_wait_cancelled :
  let c := set_rateLimitReset (60 * time.Second)
             (set_rateLimitRemaining 3 (New (test_config 0))) in
  let ctx := {| context.doneAt := Some (1 * time.Second); context.cause := Canceled |} in
  let out := do (toy_runtime (always (DoResp (response 200 "ok"))))
                c (fresh_world 0) ctx http.MethodGet "/test" None in
  result_of out = Err (CtxError Canceled) /\
  exchanges (world_of out) = [] /\
  now (world_of out) = 1 * time.Second.
Proof. vm_compute. repeat split; reflexivity. Qed.

(* ===================================================================== *)
(** ** The rate-limit state                                               *)
(* ===================================================================== *)

Lemma digits_nonneg s : forall acc v,
  0 <= acc -> strconv.digits acc s = Some v -> 0 <= v.
Proof.
  induction s as [|a s IH]; intros acc v Hacc; simpl.
  - intros [= <-]. exact Hacc.
  - unfold strconv.digit.
    destruct ((48 <=? Z.of_N (N_of_ascii a)) && (Z.of_N (N_of_ascii a) <=? 57)) eqn:Hd;
      [|discriminate].
    apply andb_true_iff in Hd as [H1 H2]. apply Z.leb_le in H1, H2.
    apply IH. lia.
Qed.

(** A number [strconv.ParseInt(s, 10, 64)] returns fits an [int64]. *)
Lemma ParseInt10_range s n :
  strconv.ParseInt10 s 64 = Some n -> - 2 ^ 63 <= n < 2 ^ 63.
Proof.
  unfold strconv.ParseInt10. destruct s as [|a rest]; [discriminate|].
  destruct (if Ascii.eqb a "+" then (false, rest)
            else if Ascii.eqb a "-" then (true, rest)
            else (false, String a rest)) as [neg body].
  destruct (strconv.magnitude body) as [un|] eqn:Hm; [|discriminate].
  assert (Hun : 0 <= un).
  { unfold strconv.magnitude in Hm. destruct body; [discriminate|].
    eapply digits_nonneg; [|exact Hm]. lia. }
  change (2 ^ (64 - 1)) with (2 ^ 63).
  destruct neg; simpl.
  - destruct (2 ^ 63 <? un) eqn:H; [discriminate|].
    apply Z.ltb_ge in H. intros [= <-]. lia.
  - destruct (2 ^ 63 <=? un) eqn:H; [discriminate|].
    apply Z.leb_gt in H. intros [= <-]. lia.
Qed.

Example Atoi_examples :
  strconv.Atoi "10" = Some 10 /\ strconv.Atoi "+5" = Some 5 /\
  strconv.Atoi "-3" = Some (-3) /\ strconv.Atoi "007" = Some 7 /\
  strconv.Atoi "" = None /\ strconv.Atoi "-" = None /\
  strconv.Atoi "1_000" = None /\ strconv.Atoi " 7" = None /\
  strconv.Atoi "12a" = None /\ strconv.Atoi "1.5" = None /\
  strconv.Atoi "9223372036854775807" = Some 9223372036854775807 /\
  strconv.Atoi "9223372036854775808" = None /\
  strconv.Atoi "-9223372036854775808" = Some (-9223372036854775808) /\
  strconv.Atoi "2025-01-01T00:00:00Z" = None.
Proof. repeat split; reflexivity. Qed.

Example CanonicalMIMEHeaderKey_examples :
  textproto.CanonicalMIMEHeaderKey "X-RateLimit-Remaining" = "X-Ratelimit-Remaining" /\
  textproto.CanonicalMIMEHeaderKey "X-RateLimit-Reset" = "X-Ratelimit-Reset" /\
  textproto.CanonicalMIMEHeaderKey "x-api-user" = "X-Api-User" /\
  textproto.CanonicalMIMEHeaderKey "Content-Type" = "Content-Type".
Proof. repeat split; reflexivity. Qed.

Lemma Atoi_empty : strconv.Atoi "" = None.
Proof. reflexivity. Qed.

Lemma Header_Get_value resp key :
  http.Header_Get (http.RespHeader resp) key
  = match header_value resp key with Some v => v | None => "" end.
Proof.
  unfold http.Header_Get, header_value.
  destruct (http.RespHeader resp !! textproto.CanonicalMIMEHeaderKey key) as [[|v vs]|];
    reflexivity.
Qed.

(** C7.  After [updateRateLimits], the remaining count is the number the
    [X-RateLimit-Remaining] header carries when that header is present and
    [strconv.Atoi] parses it, and the count it was before otherwise; the
    reset time is [time.Unix(ts, 0)] for the number [ts] the
    [X-RateLimit-Reset] header carries when it is present and
    [strconv.ParseInt(_, 10, 64)] parses it, and the time it was before
    otherwise.  Each header is treated on its own, no other field of the
    client changes, and the update has no error to return. *)
Theorem updateRateLimits_spec (c : Client) (resp : http.Response) :
  rateLimitRemaining (updateRateLimits c resp)
  = match header_number strconv.Atoi resp "X-RateLimit-Remaining" with
    | Some val => val
    | None => rateLimitRemaining c
    end /\
  rateLimitReset (updateRateLimits c resp)
  = match header_number (fun s => strconv.ParseInt10 s 64) resp "X-RateLimit-Reset" with
    | Some ts => time.Unix ts 0
    | None => rateLimitReset c
    end /\
  same_but_rate c (updateRateLimits c resp).
Proof.
  split; [|split; [|apply updateRateLimits_frame]].
  - unfold updateRateLimits, header_number. rewrite !Header_Get_value.
    destruct (header_value resp "X-RateLimit-Remaining") as [v|];
      destruct (header_value resp "X-RateLimit-Reset") as [r|]; simpl.
    all: repeat match goal with
         | |- context [negb (String.eqb ?s "")] =>
             destruct (String.eqb_spec s ""); subst; simpl
         | |- context [strconv.ParseInt10 ?s 64] =>
             destruct (strconv.ParseInt10 s 64); simpl
         | |- context [strconv.Atoi ?s] =>
             destruct (strconv.Atoi s) eqn:?; simpl
         end; try reflexivity; try discriminate.
  - unfold updateRateLimits, header_number. rewrite !Header_Get_value.
    destruct (header_value resp "X-RateLimit-Remaining") as [v|];
      destruct (header_value resp "X-RateLimit-Reset") as [r|]; simpl.
    all: repeat match goal with
         | |- context [negb (String.eqb ?s "")] =>
             destruct (String.eqb_spec s ""); subst; simpl
         | |- context [strconv.Atoi ?s] =>
             destruct (strconv.Atoi s); simpl
         | |- context [strconv.ParseInt10 ?s 64] =>
             destruct (strconv.ParseInt10 s 64) eqn:?; simpl
         end; try reflexivity; try discriminate.
Qed.

(** The rate-limit test of the client: a remaining count of 10 and a reset
    time written as a date, not as a number of seconds.  The count is
    taken, the reset time stays what it was. *)
Example test_rate_limit_headers :
  let h := http.Header_Set (http.Header_Set ∅ "X-RateLimit-Remaining" "10")
             "X-RateLimit-Reset" "2025-01-01T00:00:01Z" in
  let resp := {| http.StatusCode := 200; http.RespHeader := h; http.Body := Ok "ok" |} in
  let c := updateRateLimits (New (test_config 0)) resp in
  rateLimitRemaining c = 10 /\ rateLimitReset c = time.zero.
Proof. vm_compute. split; reflexivity. Qed.

Example test_rate_limit_reset :
  let h := http.Header_Set (http.Header_Set ∅ "X-RateLimit-Remaining" "soon")
             "X-RateLimit-Reset" "1700000000" in
  let resp := {| http.StatusCode := 429; http.RespHeader := h; http.Body := Ok "" |} in
  let c := updateRateLimits (New (test_config 0)) resp in
  rateLimitRemaining c = 30 /\ rateLimitReset c = 1700000000 * time.Second.
Proof. vm_compute. split; reflexivity. Qed.

(* ===================================================================== *)
(** ** The caches: errors of a lookup                                     *)
(* ===================================================================== *)

Lemma populateTagCache_error R c w ctx err c1 w1 :
  populateTagCache R c w ctx = (Some err, c1, w1) ->
  forall id, err <> tag_not_found id.
Proof.
  intros H id. destruct (populateTagCache_err _ _ _ _ _ _ _ H) as [Hc _].
  destruct (populateTagCache_cold R c w ctx Hc) as (r & c2 & w2 & HG & _ & Heq).
  rewrite Heq in H. destruct r as [resp|e].
  - destruct (json_Unmarshal_Tags R resp); [discriminate|].
    injection H as <- _ _. discriminate.
  - injection H as <- _ _.
    apply (do_error_not_found R e "tag" id); [|left; reflexivity].
    eapply do_Err_inv. exact HG.
Qed.

Lemma populateTaskCache_error R c w ctx err c1 w1 :
  populateTaskCache R c w ctx = (Some err, c1, w1) ->
  forall id, err <> task_not_found id.
Proof.
  intros H id. destruct (populateTaskCache_err _ _ _ _ _ _ _ H) as [Hc _].
  destruct (populateTaskCache_cold R c w ctx Hc) as (r & c2 & w2 & HG & _ & Heq).
  rewrite Heq in H. destruct r as [resp|e].
  - destruct (json_Unmarshal_Tasks R resp); [discriminate|].
    injection H as <- _ _. discriminate.
  - injection H as <- _ _.
    apply (do_error_not_found R e "task" id); [|right; reflexivity].
    eapply do_Err_inv. exact HG.
Qed.

(** C6.  For tags and for tasks: when the id is not in the cache and the
    population returns an error, the lookup returns that very error, with
    the state the population left, and that error is not the not-found
    error; and when the lookup returns the not-found error naming the id,
    the population had returned without error and the id is absent from
    the populated cache. *)
Theorem getByID_surfaces_population_error R c w ctx id :
  (forall err c1 w1,
      cache_lookup (tagCache c) id = None ->
      populateTagCache R c w ctx = (Some err, c1, w1) ->
      GetTag R c w ctx id = (Err err, c1, w1) /\ err <> tag_not_found id) /\
  (forall c1 w1,
      GetTag R c w ctx id = (Err (Errorf ("tag not found: " +:+ id)), c1, w1) ->
      populateTagCache R c w ctx = (None, c1, w1) /\
      exists m, tagCache c1 = Some m /\ m !! id = None) /\
  (forall err c1 w1,
      cache_lookup (taskCache c) id = None ->
      populateTaskCache R c w ctx = (Some err, c1, w1) ->
      GetTask R c w ctx id = (Err err, c1, w1) /\ err <> task_not_found id) /\
  (forall c1 w1,
      GetTask R c w ctx id = (Err (Errorf ("task not found: " +:+ id)), c1, w1) ->
      populateTaskCache R c w ctx = (None, c1, w1) /\
      exists m, taskCache c1 = Some m /\ m !! id = None).
Proof.
  split; [|split; [|split]].
  - intros err c1 w1 Hmiss Hpop. split.
    + unfold GetTag. rewrite Hmiss, Hpop. reflexivity.
    + eapply populateTagCache_error; eauto.
  - intros c1 w1. unfold GetTag.
    destruct (cache_lookup (tagCache c) id); [discriminate|].
    destruct (populateTagCache R c w ctx) as [[[err|] c2] w2] eqn:Hpop.
    + intros [= -> <- <-]. exfalso.
      exact (populateTagCache_error _ _ _ _ _ _ _ Hpop id eq_refl).
    + destruct (cache_lookup (tagCache c2) id) eqn:Hl; [discriminate|].
      intros [= <- <-]. split; [reflexivity|].
      destruct (populateTagCache_ok _ _ _ _ _ _ Hpop) as [m Hm].
      exists m. rewrite Hm in Hl. auto.
  - intros err c1 w1 Hmiss Hpop. split.
    + unfold GetTask. rewrite Hmiss, Hpop. reflexivity.
    + eapply populateTaskCache_error; eauto.
  - intros c1 w1. unfold GetTask.
    destruct (cache_lookup (taskCache c) id); [discriminate|].
    destruct (populateTaskCache R c w ctx) as [[[err|] c2] w2] eqn:Hpop.
    + intros [= -> <- <-]. exfalso.
      exact (populateTaskCache_error _ _ _ _ _ _ _ Hpop id eq_refl).
    + destruct (cache_lookup (taskCache c2) id) eqn:Hl; [discriminate|].
      intros [= <- <-]. split; [reflexivity|].
      destruct (populateTaskCache_ok _ _ _ _ _ _ Hpop) as [m Hm].
      exists m. rewrite Hm in Hl. auto.
Qed.

(** A service that answers 500 to the bulk list: the lookup of a tag fails
    with the error of the list call. *)
Lemma getByID_surfaces_population_error_witness :
  GetTag (toy_runtime (always (DoResp (response 500 "oops"))))
    (New (test_config 0)) (fresh_world 0) context.Background "tag-1"
  = (Err (Errorf "API error (500): oops"), New (test_config 0),
     world_of (populateTagCache (toy_runtime (always (DoResp (response 500 "oops"))))
                 (New (test_config 0)) (fresh_world 0) context.Background)) /\
  Errorf "API error (500): oops" <> tag_not_found "tag-1".
Proof.
  apply (proj1 (getByID_surfaces_population_error
                  (toy_runtime (always (DoResp (response 500 "oops"))))
                  (New (test_config 0)) (fresh_world 0) context.Background "tag-1")).
  - reflexivity.
  - vm_compute. reflexivity.
Defined.

(* ===================================================================== *)
(** ** The caches: mutations                                              *)
(* ===================================================================== *)

(** C10.  For [CreateTag], [UpdateTag], [CreateTask] and [UpdateTask]: when
    the request of the mutation is answered with a status below 400 ([do]
    returns the body) and the body does not decode to the envelope, the
    method returns the decoding error wrapped as "unmarshaling response"
    and both caches are what they were before the call: the request went
    out and was answered below 400, and the cache was not invalidated. *)
Theorem decode_failure_keeps_cache R c w ctx resp c1 w1 err :
  (forall name,
      Post R c w ctx "/tags" (NameBody name) = (Ok resp, c1, w1) ->
      json_Unmarshal_Tag R resp = Err err ->
      CreateTag R c w ctx name = (Err (Wrapf "unmarshaling response" err), c1, w1) /\
      tagCache c1 = tagCache c /\ taskCache c1 = taskCache c /\
      answered_below_400 w1 "POST" (baseURL c +:+ "/tags") resp) /\
  (forall id name,
      Put R c w ctx ("/tags/" +:+ id) (NameBody name) = (Ok resp, c1, w1) ->
      json_Unmarshal_Tag R resp = Err err ->
      UpdateTag R c w ctx id name = (Err (Wrapf "unmarshaling response" err), c1, w1) /\
      tagCache c1 = tagCache c /\ taskCache c1 = taskCache c /\
      answered_below_400 w1 "PUT" (baseURL c +:+ "/tags/" +:+ id) resp) /\
  (forall task,
      Post R c w ctx "/tasks/user" (TaskBody task) = (Ok resp, c1, w1) ->
      json_Unmarshal_Task R resp = Err err ->
      CreateTask R c w ctx task = (Err (Wrapf "unmarshaling response" err), c1, w1) /\
      tagCache c1 = tagCache c /\ taskCache c1 = taskCache c /\
      answered_below_400 w1 "POST" (baseURL c +:+ "/tasks/user") resp) /\
  (forall id task,
      Put R c w ctx ("/tasks/" +:+ id) (TaskBody task) = (Ok resp, c1, w1) ->
      json_Unmarshal_Task R resp = Err err ->
      UpdateTask R c w ctx id task = (Err (Wrapf "unmarshaling response" err), c1, w1) /\
      tagCache c1 = tagCache c /\ taskCache c1 = taskCache c /\
      answered_below_400 w1 "PUT" (baseURL c +:+ "/tasks/" +:+ id) resp).
Proof.
  split; [|split; [|split]]; intros;
    match goal with
    | Hdo : _ = (Ok _, _, _), Hdec : _ = Err _ |- _ =>
        split; [unfold CreateTag, UpdateTag, CreateTask, UpdateTask;
                rewrite Hdo, Hdec; reflexivity|];
        split; [exact (do_tagCache _ _ _ _ _ _ _ _ _ _ Hdo)|];
        split; [exact (do_taskCache _ _ _ _ _ _ _ _ _ _ Hdo)|];
        exact (do_Ok_inv _ _ _ _ _ _ _ _ _ _ Hdo)
    end.
Qed.

(** A tag is cached; the answer to the creation of another is cut short.
    [CreateTag] fails on the decoding, and the cache still holds the tag. *)
Lemma decode_failure_keeps_cache_witness :
  CreateTag (toy_runtime habitica_truncated)
    (set_tagCache (Some (index_by Tag_ID [tag1])) (New (test_config 0)))
    (fresh_world 0) context.Background "chores"
  = (Err (Wrapf "unmarshaling response" (LibError "invalid character")),
     set_tagCache (Some (index_by Tag_ID [tag1])) (New (test_config 0)),
     world_of (Post (toy_runtime habitica_truncated)
                 (set_tagCache (Some (index_by Tag_ID [tag1])) (New (test_config 0)))
                 (fresh_world 0) context.Background "/tags" (NameBody "chores"))) /\
  tagCache (set_tagCache (Some (index_by Tag_ID [tag1])) (New (test_config 0)))
  = tagCache (set_tagCache (Some (index_by Tag_ID [tag1])) (New (test_config 0))) /\
  taskCache (set_tagCache (Some (index_by Tag_ID [tag1])) (New (test_config 0)))
  = taskCache (set_tagCache (Some (index_by Tag_ID [tag1])) (New (test_config 0))) /\
  answered_below_400
    (world_of (Post (toy_runtime habitica_truncated)
                 (set_tagCache (Some (index_by Tag_ID [tag1])) (New (test_config 0)))
                 (fresh_world 0) context.Background "/tags" (NameBody "chores")))
    "POST"
    (baseURL (set_tagCache (Some (index_by Tag_ID [tag1])) (New (test_config 0))) +:+ "/tags")
    "{".
Proof.
  apply (proj1 (decode_failure_keeps_cache
                  (toy_runtime habitica_truncated)
                  (set_tagCache (Some (index_by Tag_ID [tag1])) (New (test_config 0)))
                  (fresh_world 0) context.Background "{"
                  (set_tagCache (Some (index_by Tag_ID [tag1])) (New (test_config 0)))
                  _ (LibError "invalid character")) "chores").
  - vm_compute. reflexivity.
  - reflexivity.
Defined.

Lemma GetTag_cold R c w ctx id :
  tagCache c = None -> GetTag R c w ctx id = GetTag_by_fetch R c w ctx id.
Proof.
  intros Hc. unfold GetTag, GetTag_by_fetch. rewrite Hc. simpl.
  destruct (populateTagCache_cold R c w ctx Hc) as (r & c1 & w1 & HG & _ & ->).
  rewrite HG. destruct r as [resp|err]; [|reflexivity].
  destruct (json_Unmarshal_Tags R resp) as [apiResp|err]; [|reflexivity].
  simpl. destruct (index_by Tag_ID (Data apiResp) !! id); reflexivity.
Qed.

Lemma GetTask_cold R c w ctx id :
  taskCache c = None -> GetTask R c w ctx id = GetTask_by_fetch R c w ctx id.
Proof.
  intros Hc. unfold GetTask, GetTask_by_fetch. rewrite Hc. simpl.
  destruct (populateTaskCache_cold R c w ctx Hc) as (r & c1 & w1 & HG & _ & ->).
  rewrite HG. destruct r as [resp|err]; [|reflexivity].
  destruct (json_Unmarshal_Tasks R resp) as [apiResp|err]; [|reflexivity].
  simpl. destruct (index_by Task_ID (Data apiResp) !! id); reflexivity.
Qed.

(** A tag a lookup by fetch returns is an entry, under the id asked for, of
    the list the bulk-list call just returned. *)
Lemma GetTag_by_fetch_fresh R c w ctx id tag c2 w2 :
  GetTag_by_fetch R c w ctx id = (Ok tag, c2, w2) ->
  exists resp apiResp c1,
    Get R c w ctx "/tags" = (Ok resp, c1, w2) /\
    json_Unmarshal_Tags R resp = Ok apiResp /\
    In tag (Data apiResp) /\ Tag_ID tag = id.
Proof.
  unfold GetTag_by_fetch.
  destruct (Get R c w ctx "/tags") as [[[resp|err] c1] w1]; [|discriminate].
  destruct (json_Unmarshal_Tags R resp) as [apiResp|err] eqn:Hdec; [|discriminate].
  destruct (index_by Tag_ID (Data apiResp) !! id) as [t|] eqn:Hl; [|discriminate].
  intros [= <- _ <-]. apply index_by_lookup in Hl as [Hin Hid].
  exists resp, apiResp, c1. repeat split; auto.
Qed.

Lemma GetTask_by_fetch_fresh R c w ctx id task c2 w2 :
  GetTask_by_fetch R c w ctx id = (Ok task, c2, w2) ->
  exists resp apiResp c1,
    Get R c w ctx "/tasks/user" = (Ok resp, c1, w2) /\
    json_Unmarshal_Tasks R resp = Ok apiResp /\
    In task (Data apiResp) /\ Task_ID task = id.
Proof.
  unfold GetTask_by_fetch.
  destruct (Get R c w ctx "/tasks/user") as [[[resp|err] c1] w1]; [|discriminate].
  destruct (json_Unmarshal_Tasks R resp) as [apiResp|err] eqn:Hdec; [|discriminate].
  destruct (index_by Task_ID (Data apiResp) !! id) as [t|] eqn:Hl; [|discriminate].
  intros [= <- _ <-]. apply index_by_lookup in Hl as [Hin Hid].
  exists resp, apiResp, c1. repeat split; auto.
Qed.

Lemma tag_mutation_invalidates R c w ctx m c' w' :
  tag_mutation R c w ctx m = (None, c', w') -> tagCache c' = None.
Proof.
  destruct m as [name|id name|id]; simpl.
  - unfold CreateTag.
    destruct (Post R c w ctx "/tags" (NameBody name)) as [[[resp|e] c1] w1];
      [|discriminate].
    destruct (json_Unmarshal_Tag R resp); [|discriminate].
    intros [= <- _]. reflexivity.
  - unfold UpdateTag.
    destruct (Put R c w ctx ("/tags/" +:+ id) (NameBody name)) as [[[resp|e] c1] w1];
      [|discriminate].
    destruct (json_Unmarshal_Tag R resp); [|discriminate].
    intros [= <- _]. reflexivity.
  - unfold DeleteTag.
    destruct (Delete R c w ctx ("/tags/" +:+ id)) as [[[resp|e] c1] w1];
      [|discriminate].
    intros [= <- _]. reflexivity.
Qed.

Lemma task_mutation_invalidates R c w ctx m c' w' :
  task_mutation R c w ctx m = (None, c', w') -> taskCache c' = None.
Proof.
  destruct m as [task|id task|id]; simpl.
  - unfold CreateTask.
    destruct (Post R c w ctx "/tasks/user" (TaskBody task)) as [[[resp|e] c1] w1];
      [|discriminate].
    destruct (json_Unmarshal_Task R resp); [|discriminate].
    intros [= <- _]. reflexivity.
  - unfold UpdateTask.
    destruct (Put R c w ctx ("/tasks/" +:+ id) (TaskBody task)) as [[[resp|e] c1] w1];
      [|discriminate].
    destruct (json_Unmarshal_Task R resp); [|discriminate].
    intros [= <- _]. reflexivity.
  - unfold DeleteTask.
    destruct (Delete R c w ctx ("/tasks/" +:+ id)) as [[[resp|e] c1] w1];
      [|discriminate].
    intros [= <- _]. reflexivity.
Qed.

(** C5.  When a create, update or delete of a tag returns without error,
    the tag cache is unpopulated in the client it leaves; the lookup of
    any id that comes next is then a lookup by a bulk-list call alone, and
    a tag it returns is an entry of the list that call just fetched.  The
    same holds for tasks and the task cache. *)
Theorem mutation_invalidates_cache R c w ctx c' w' :
  (forall m : TagMutation,
      tag_mutation R c w ctx m = (None, c', w') ->
      tagCache c' = None /\
      forall ctx' id,
        GetTag R c' w' ctx' id = GetTag_by_fetch R c' w' ctx' id /\
        forall tag c2 w2,
          GetTag R c' w' ctx' id = (Ok tag, c2, w2) ->
          exists resp apiResp c1,
            Get R c' w' ctx' "/tags" = (Ok resp, c1, w2) /\
            json_Unmarshal_Tags R resp = Ok apiResp /\
            In tag (Data apiResp) /\ Tag_ID tag = id) /\
  (forall m : TaskMutation,
      task_mutation R c w ctx m = (None, c', w') ->
      taskCache c' = None /\
      forall ctx' id,
        GetTask R c' w' ctx' id = GetTask_by_fetch R c' w' ctx' id /\
        forall task c2 w2,
          GetTask R c' w' ctx' id = (Ok task, c2, w2) ->
          exists resp apiResp c1,
            Get R c' w' ctx' "/tasks/user" = (Ok resp, c1, w2) /\
            json_Unmarshal_Tasks R resp = Ok apiResp /\
            In task (Data apiResp) /\ Task_ID task = id).
Proof.
  split; intros m Hm.
  - pose proof (tag_mutation_invalidates _ _ _ _ _ _ _ Hm) as Hc.
    split; [exact Hc|]. intros ctx' id.
    split; [apply GetTag_cold, Hc|].
    intros tag c2 w2. rewrite (GetTag_cold _ _ _ _ _ Hc).
    apply GetTag_by_fetch_fresh.
  - pose proof (task_mutation_invalidates _ _ _ _ _ _ _ Hm) as Hc.
    split; [exact Hc|]. intros ctx' id.
    split; [apply GetTask_cold, Hc|].
    intros task c2 w2. rewrite (GetTask_cold _ _ _ _ _ Hc).
    apply GetTask_by_fetch_fresh.
Qed.

(** A tag is deleted while the cache holds it: the cache is dropped, and
    the lookup that follows is served by a new bulk-list call. *)
Lemma mutation_invalidates_cache_witness :
  tagCache (client_of (tag_mutation (toy_runtime habitica) client_with_tags
                         (fresh_world 0) context.Background (TagDelete "tag-1")))
  = None /\
  forall ctx' id,
    GetTag (toy_runtime habitica)
      (client_of (tag_mutation (toy_runtime habitica) client_with_tags
                    (fresh_world 0) context.Background (TagDelete "tag-1")))
      (world_of (tag_mutation (toy_runtime habitica) client_with_tags
                   (fresh_world 0) context.Background (TagDelete "tag-1")))
      ctx' id
    = GetTag_by_fetch (toy_runtime habitica)
        (client_of (tag_mutation (toy_runtime habitica) client_with_tags
                      (fresh_world 0) context.Background (TagDelete "tag-1")))
        (world_of (tag_mutation (toy_runtime habitica) client_with_tags
                     (fresh_world 0) context.Background (TagDelete "tag-1")))
        ctx' id /\
    forall tag c2 w2,
      GetTag (toy_runtime habitica)
        (client_of (tag_mutation (toy_runtime habitica) client_with_tags
                      (fresh_world 0) context.Background (TagDelete "tag-1")))
        (world_of (tag_mutation (toy_runtime habitica) client_with_tags
                     (fresh_world 0) context.Background (TagDelete "tag-1")))
        ctx' id
      = (Ok tag, c2, w2) ->
      exists resp apiResp c1,
        Get (toy_runtime habitica)
          (client_of (tag_mutation (toy_runtime habitica) client_with_tags
                        (fresh_world 0) context.Background (TagDelete "tag-1")))
          (world_of (tag_mutation (toy_runtime habitica) client_with_tags
                       (fresh_world 0) context.Background (TagDelete "tag-1")))
          ctx' "/tags"
        = (Ok resp, c1, w2) /\
        json_Unmarshal_Tags (toy_runtime habitica) resp = Ok apiResp /\
        In tag (Data apiResp) /\ Tag_ID tag = id.
Proof.
  apply (proj1 (mutation_invalidates_cache (toy_runtime habitica) client_with_tags
                  (fresh_world 0) context.Background
                  (client_of (tag_mutation (toy_runtime habitica) client_with_tags
                                (fresh_world 0) context.Background (TagDelete "tag-1")))
                  (world_of (tag_mutation (toy_runtime habitica) client_with_tags
                               (fresh_world 0) context.Background (TagDelete "tag-1"))))
           (TagDelete "tag-1")).
  vm_compute. reflexivity.
Defined.

(** The cache tests of the client, run on the model: two lookups of two
    ids cost one request; a creation costs one and drops the cache; the
    lookup after it costs another. *)
Example test_tag_cache_population :
  let R := toy_runtime habitica in
  let out := GetTag_each R [(context.Background, "tag-1"); (context.Background, "tag-2")]
               (New (test_config 0)) (fresh_world 0) in
  result_of out = [Ok tag1; Ok tag2] /\
  sent (world_of out) = [("GET", "https://habitica.com/api/v3/tags")].
Proof. vm_compute. split; reflexivity. Qed.

Example test_cache_invalidation :
  let R := toy_runtime habitica in
  let bg := context.Background in
  let out1 := GetTask R (New (test_config 0)) (fresh_world 0) bg "task-1" in
  let out2 := CreateTask R (client_of out1) (world_of out1) bg (task_of "" "habit" "New") in
  let out3 := GetTask R (client_of out2) (world_of out2) bg "task-1" in
  result_of out1 = Ok task1 /\
  length (sent (world_of out1)) = 1%nat /\
  is_Ok (result_of out2) = true /\
  taskCache (client_of out2) = None /\
  length (sent (world_of out2)) = 2%nat /\
  result_of out3 = Ok task1 /\
  sent (world_of out3)
  = [("GET", "https://habitica.com/api/v3/tasks/user");
     ("POST", "https://habitica.com/api/v3/tasks/user");
     ("GET", "https://habitica.com/api/v3/tasks/user")].
Proof. vm_compute. repeat split; reflexivity. Qed.

(* ===================================================================== *)
(** ** The caches: lookups between invalidations                          *)
(* ===================================================================== *)

Lemma populateTagCache_whole R c w ctx c1 w1 :
  tagCache c = None ->
  populateTagCache R c w ctx = (None, c1, w1) ->
  exists resp apiResp c0,
    Get R c w ctx "/tags" = (Ok resp, c0, w1) /\
    json_Unmarshal_Tags R resp = Ok apiResp /\
    tagCache c1 = Some (index_by Tag_ID (Data apiResp)) /\
    forall t, In t (Data apiResp) ->
              is_Some (index_by Tag_ID (Data apiResp) !! Tag_ID t).
Proof.
  intros Hc. destruct (populateTagCache_cold R c w ctx Hc) as (r & c2 & w2 & HG & _ & ->).
  destruct r as [resp|e]; [|discriminate].
  destruct (json_Unmarshal_Tags R resp) as [apiResp|e] eqn:Hdec; [|discriminate].
  intros [= <- <-]. exists resp, apiResp, c2.
  repeat split; auto. intros t. apply index_by_In.
Qed.

Lemma populateTaskCache_whole R c w ctx c1 w1 :
  taskCache c = None ->
  populateTaskCache R c w ctx = (None, c1, w1) ->
  exists resp apiResp c0,
    Get R c w ctx "/tasks/user" = (Ok resp, c0, w1) /\
    json_Unmarshal_Tasks R resp = Ok apiResp /\
    taskCache c1 = Some (index_by Task_ID (Data apiResp)) /\
    forall t, In t (Data apiResp) ->
              is_Some (index_by Task_ID (Data apiResp) !! Task_ID t).
Proof.
  intros Hc. destruct (populateTaskCache_cold R c w ctx Hc) as (r & c2 & w2 & HG & _ & ->).
  destruct r as [resp|e]; [|discriminate].
  destruct (json_Unmarshal_Tasks R resp) as [apiResp|e] eqn:Hdec; [|discriminate].
  intros [= <- <-]. exists resp, apiResp, c2.
  repeat split; auto. intros t. apply index_by_In.
Qed.

Lemma GetTag_each_once_populated R calls1 calls2 c w :
  is_Some (tagCache (client_of (GetTag_each R calls1 c w))) ->
  GetTag_each R (calls1 ++ calls2) c w
  = (result_of (GetTag_each R calls1 c w)
       ++ map (fun call => served (tagCache (client_of (GetTag_each R calls1 c w)))
                             tag_not_found call.2) calls2,
     client_of (GetTag_each R calls1 c w), world_of (GetTag_each R calls1 c w)).
Proof.
  intros Hc. rewrite GetTag_each_app. cbv zeta.
  rewrite (GetTag_each_populated R calls2 _ _ Hc). reflexivity.
Qed.

Lemma GetTask_each_once_populated R calls1 calls2 c w :
  is_Some (taskCache (client_of (GetTask_each R calls1 c w))) ->
  GetTask_each R (calls1 ++ calls2) c w
  = (result_of (GetTask_each R calls1 c w)
       ++ map (fun call => served (taskCache (client_of (GetTask_each R calls1 c w)))
                             task_not_found call.2) calls2,
     client_of (GetTask_each R calls1 c w), world_of (GetTask_each R calls1 c w)).
Proof.
  intros Hc. rewrite GetTask_each_app. cbv zeta.
  rewrite (GetTask_each_populated R calls2 _ _ Hc). reflexivity.
Qed.

(** C4, as the code has it.  For tags and for tasks, in every interleaving
    of lookups by id (step by step, a step being what runs under one
    holding of the cache lock) with no invalidation in between, and so in
    every sequence of lookups:
    - while the cache is populated no step fetches, and the client and the
      world stay as they are: lookups of any id are served from the cache
      and a populate that finds the cache populated returns at once;
    - a bulk-list call that populates the cache is the first that does,
      and no bulk-list call comes after it: at most one succeeds;
    - the client and the world change in the steps that fetch only;
    - a bulk-list call that does not populate the cache leaves it
      unpopulated, so that the next populate fetches again;
    - a populate that succeeds on an unpopulated cache made one call of
      [Get] on the list and indexed every entry of the list it returned;
    - run alone, the three steps of a lookup are [GetTag] (or [GetTask]),
      and in a sequence of lookups, once one has left the cache populated
      the following ones are served from it and change nothing;
    - against a service that answers each request for the list with a
      status below 400 and a body that decodes, an interleaving of lookups
      whose contexts are never cancelled sends one request at most. *)
Theorem lookups_fetch_until_populated R :
  (forall sched pool c w evs pool' c' w',
      GetTags_interleaved R sched pool c w = (evs, pool', c', w') ->
      (is_Some (tagCache c) ->
       c' = c /\ w' = w /\ Forall (fun e => is_fetch e = false) evs) /\
      (forall evs1 evs2,
          evs = evs1 ++ Fetched true :: evs2 ->
          Forall (fun e => e <> Fetched true) evs1 /\
          Forall (fun e => is_fetch e = false) evs2) /\
      (Forall (fun e => is_fetch e = false) evs -> c' = c /\ w' = w) /\
      (never_cancelled pool ->
       lists R (baseURL c +:+ "/tags") (decodes_Tags R) ->
       exists l, made w w' l /\ (length l <= 1)%nat)) /\
  (forall sched pool c w evs pool' c' w',
      GetTasks_interleaved R sched pool c w = (evs, pool', c', w') ->
      (is_Some (taskCache c) ->
       c' = c /\ w' = w /\ Forall (fun e => is_fetch e = false) evs) /\
      (forall evs1 evs2,
          evs = evs1 ++ Fetched true :: evs2 ->
          Forall (fun e => e <> Fetched true) evs1 /\
          Forall (fun e => is_fetch e = false) evs2) /\
      (Forall (fun e => is_fetch e = false) evs -> c' = c /\ w' = w) /\
      (never_cancelled pool ->
       lists R (baseURL c +:+ "/tasks/user") (decodes_Tasks R) ->
       exists l, made w w' l /\ (length l <= 1)%nat)) /\
  (forall ctx id ph c w ph' c' w',
      GetTag_step R ctx id ph c w = (ph', Fetched false, c', w') ->
      tagCache c' = None) /\
  (forall ctx id ph c w ph' c' w',
      GetTask_step R ctx id ph c w = (ph', Fetched false, c', w') ->
      taskCache c' = None) /\
  (forall c w ctx c1 w1,
      tagCache c = None ->
      populateTagCache R c w ctx = (None, c1, w1) ->
      exists resp apiResp c0,
        Get R c w ctx "/tags" = (Ok resp, c0, w1) /\
        json_Unmarshal_Tags R resp = Ok apiResp /\
        tagCache c1 = Some (index_by Tag_ID (Data apiResp)) /\
        forall t, In t (Data apiResp) ->
                  is_Some (index_by Tag_ID (Data apiResp) !! Tag_ID t)) /\
  (forall c w ctx c1 w1,
      taskCache c = None ->
      populateTaskCache R c w ctx = (None, c1, w1) ->
      exists resp apiResp c0,
        Get R c w ctx "/tasks/user" = (Ok resp, c0, w1) /\
        json_Unmarshal_Tasks R resp = Ok apiResp /\
        taskCache c1 = Some (index_by Task_ID (Data apiResp)) /\
        forall t, In t (Data apiResp) ->
                  is_Some (index_by Task_ID (Data apiResp) !! Task_ID t)) /\
  (forall ctx id c w,
      lookup_alone tagCache (populateTagCache R) tag_not_found ctx id c w
      = (Returned (result_of (GetTag R c w ctx id)),
         client_of (GetTag R c w ctx id), world_of (GetTag R c w ctx id))) /\
  (forall ctx id c w,
      lookup_alone taskCache (populateTaskCache R) task_not_found ctx id c w
      = (Returned (result_of (GetTask R c w ctx id)),
         client_of (GetTask R c w ctx id), world_of (GetTask R c w ctx id))) /\
  (forall calls1 calls2 c w,
      is_Some (tagCache (client_of (GetTag_each R calls1 c w))) ->
      GetTag_each R (calls1 ++ calls2) c w
      = (result_of (GetTag_each R calls1 c w)
           ++ map (fun call => served (tagCache (client_of (GetTag_each R calls1 c w)))
                                 tag_not_found call.2) calls2,
         client_of (GetTag_each R calls1 c w), world_of (GetTag_each R calls1 c w))) /\
  (forall calls1 calls2 c w,
      is_Some (taskCache (client_of (GetTask_each R calls1 c w))) ->
      GetTask_each R (calls1 ++ calls2) c w
      = (result_of (GetTask_each R calls1 c w)
           ++ map (fun call => served (taskCache (client_of (GetTask_each R calls1 c w)))
                                 task_not_found call.2) calls2,
         client_of (GetTask_each R calls1 c w), world_of (GetTask_each R calls1 c w))).
Proof.
  split; [|split; [|split; [|split; [|split; [|split; [|split; [|split; [|split]]]]]]]].
  - intros sched pool c w evs pool' c' w' H. split; [|split; [|split]].
    + intros Hc. eapply interleave_populated; [apply populateTagCache_skip | exact Hc | exact H].
    + eapply interleave_one_success; [apply populateTagCache_skip | exact H].
    + eapply interleave_no_fetch; [apply populateTagCache_skip | exact H].
    + intros Hpool Hl.
      destruct (interleave_listed Tag tagCache (populateTagCache R) tag_not_found (baseURL c)
                  (populateTagCache_skip R) (populateTagCache_baseURL R)) with
        (sched := sched) (pool := pool) (c := c) (w := w) (evs := evs) (pool' := pool')
        (c' := c') (w' := w') as [[_ Hw] | [_ Hl']]; auto.
      * intros c0 w0 ctx perr c1 w1 Hctx Hb. rewrite <- Hb in Hl.
        apply populateTagCache_listed; assumption.
      * exists []. split; [exact Hw | simpl; lia].
  - intros sched pool c w evs pool' c' w' H. split; [|split; [|split]].
    + intros Hc. eapply interleave_populated; [apply populateTaskCache_skip | exact Hc | exact H].
    + eapply interleave_one_success; [apply populateTaskCache_skip | exact H].
    + eapply interleave_no_fetch; [apply populateTaskCache_skip | exact H].
    + intros Hpool Hl.
      destruct (interleave_listed Task taskCache (populateTaskCache R) task_not_found (baseURL c)
                  (populateTaskCache_skip R) (populateTaskCache_baseURL R)) with
        (sched := sched) (pool := pool) (c := c) (w := w) (evs := evs) (pool' := pool')
        (c' := c') (w' := w') as [[_ Hw] | [_ Hl']]; auto.
      * intros c0 w0 ctx perr c1 w1 Hctx Hb. rewrite <- Hb in Hl.
        apply populateTaskCache_listed; assumption.
      * exists []. split; [exact Hw | simpl; lia].
  - intros ctx id ph c w ph' c' w' H.
    eapply lookup_step_failed; [apply populateTagCache_skip | exact H].
  - intros ctx id ph c w ph' c' w' H.
    eapply lookup_step_failed; [apply populateTaskCache_skip | exact H].
  - intros c w ctx c1 w1. apply populateTagCache_whole.
  - intros c w ctx c1 w1. apply populateTaskCache_whole.
  - intros ctx id c w. rewrite GetTag_steps.
    destruct (GetTag R c w ctx id) as [[r c'] w']. reflexivity.
  - intros ctx id c w. rewrite GetTask_steps.
    destruct (GetTask R c w ctx id) as [[r c'] w']. reflexivity.
  - intros calls1 calls2 c w. apply GetTag_each_once_populated.
  - intros calls1 calls2 c w. apply GetTask_each_once_populated.
Qed.

Lemma habitica_lists_tags :
  lists (toy_runtime habitica) (baseURL (New (test_config 0)) +:+ "/tags")
    (decodes_Tags (toy_runtime habitica)).
Proof.
  intros hist t ctx req Hctx Hm Hu.
  exists (response 200 "tags"), "tags".
  unfold toy_runtime, habitica; simpl. rewrite Hctx, Hm, Hu. simpl.
  repeat split; reflexivity.
Defined.

(** Two lookups of two ids from a cold start, their steps taken in turn:
    both miss, the first to populate fetches, the second finds the cache
    populated and skips the fetch; one request went out. *)
Lemma lookups_fetch_until_populated_witness :
  (forall evs1 evs2,
      [Read; Read; Fetched true; Skipped; Read; Read] = evs1 ++ Fetched true :: evs2 ->
      Forall (fun e => e <> Fetched true) evs1 /\
      Forall (fun e => is_fetch e = false) evs2) /\
  exists l,
    made (fresh_world 0)
      (world_of (GetTags_interleaved (toy_runtime habitica) [0; 1; 0; 1; 0; 1]%nat
                   two_lookups (New (test_config 0)) (fresh_world 0))) l /\
    (length l <= 1)%nat.
Proof.
  destruct (proj1 (lookups_fetch_until_populated (toy_runtime habitica))
              [0; 1; 0; 1; 0; 1]%nat two_lookups (New (test_config 0)) (fresh_world 0)
              [Read; Read; Fetched true; Skipped; Read; Read]
              (GetTags_interleaved (toy_runtime habitica) [0; 1; 0; 1; 0; 1]%nat
                 two_lookups (New (test_config 0)) (fresh_world 0)).1.1.2
              (client_of (GetTags_interleaved (toy_runtime habitica) [0; 1; 0; 1; 0; 1]%nat
                            two_lookups (New (test_config 0)) (fresh_world 0)))
              (world_of (GetTags_interleaved (toy_runtime habitica) [0; 1; 0; 1; 0; 1]%nat
                           two_lookups (New (test_config 0)) (fresh_world 0))))
    as (_ & Hone & _ & Hlisted).
  - vm_compute. reflexivity.
  - split; [exact Hone|].
    apply Hlisted; [repeat constructor | exact habitica_lists_tags].
Defined.

Example test_interleaved_lookups :
  let out := GetTags_interleaved (toy_runtime habitica) [0; 1; 0; 1; 0; 1]%nat
               two_lookups (New (test_config 0)) (fresh_world 0) in
  out.1.1.1 = [Read; Read; Fetched true; Skipped; Read; Read] /\
  map lk_phase out.1.1.2 = [Returned (Ok tag1); Returned (Ok tag2)] /\
  sent (world_of out) = [("GET", "https://habitica.com/api/v3/tags")].
Proof. vm_compute. repeat split; reflexivity. Qed.

(** C4, as the claim states it, fails on the code.  With a service that
    answers 500 to every request, two lookups of a tag one after the other,
    with no invalidation in between, make two bulk-list calls, and the
    cache is unpopulated after each.  With a service that answers 429 and
    then lists the tags, a single lookup populates the cache and two
    requests for the list went out. *)
Lemma lookups_can_fetch_twice :
  (let out := GetTag_each (toy_runtime (always (DoResp (response 500 "oops"))))
                [(context.Background, "tag-1"); (context.Background, "tag-2")]
                (New (test_config 0)) (fresh_world 0) in
   result_of out = [Err (Errorf "API error (500): oops");
                    Err (Errorf "API error (500): oops")] /\
   tagCache (client_of out) = None /\
   sent (world_of out) = [("GET", "https://habitica.com/api/v3/tags");
                          ("GET", "https://habitica.com/api/v3/tags")] /\
   ~ (length (sent (world_of out)) <= 1)%nat) /\
  (let out := GetTag (toy_runtime (playing [DoResp (response 429 "rate-limited")]
                                     (DoResp (response 200 "tags"))))
                (New (test_config 0)) (fresh_world 0) context.Background "tag-1" in
   result_of out = Ok tag1 /\
   is_Some (tagCache (client_of out)) /\
   sent (world_of out) = [("GET", "https://habitica.com/api/v3/tags");
                          ("GET", "https://habitica.com/api/v3/tags")] /\
   ~ (length (sent (world_of out)) <= 1)%nat).
Proof.
  split.
  - vm_compute. repeat split; try reflexivity. lia.
  - vm_compute. repeat split; try reflexivity; [eauto | lia].
Qed.

(* ===================================================================== *)
(** ** The base URL                                                       *)
(* ===================================================================== *)

(** C9 (the code departs from the claim).  [Config] has no field for the
    base URL and [New] sets [baseURL] to [DefaultBaseURL] whatever the
    configuration: every request a client made by [New] builds goes to
    "https://habitica.com/api/v3" followed by the path. *)
Theorem New_baseURL_fixed (cfg : Config) (R : Runtime) (method path : string)
    (body : option Payload) :
  baseURL (New cfg) = "https://habitica.com/api/v3" /\
  match newRequest R (New cfg) method path body with
  | Ok req => http.URL req = "https://habitica.com/api/v3" +:+ path
  | Err _ => True
  end.
Proof.
  split; [reflexivity|].
  unfold newRequest. destruct (http_NewRequest_err R method _); [exact I | reflexivity].
Qed.

(** The first test of the client points it at a local server and calls
    [Get "/test"]; the only request the client can build goes elsewhere. *)
Example test_request_headers :
  let cfg := {| UserID := "test-user-123"; APIKey := "test-key-456";
                ClientAuthorID := "test-author-789"; ClientAppName := "TestApp";
                RateLimitBuffer := 0; MaxRetries := 0; BaseRetryDelay := 0 |} in
  let w := world_of (Get (toy_runtime (always (DoResp (response 200 "ok"))))
                       (New cfg) (fresh_world 0) context.Background "/test") in
  map (fun e => http.URL (ex_req e)) (exchanges w)
  = ["https://habitica.com/api/v3/test"] /\
  map (fun e => (http.Header_Get (http.ReqHeader (ex_req e)) "x-api-user",
                 http.Header_Get (http.ReqHeader (ex_req e)) "x-api-key",
                 http.Header_Get (http.ReqHeader (ex_req e)) "x-client",
                 http.Header_Get (http.ReqHeader (ex_req e)) "Content-Type"))
      (exchanges w)
  = [("test-user-123", "test-key-456", "test-author-789-TestApp", "application/json")].
Proof. vm_compute. split; reflexivity. Qed.

(* ===================================================================== *)
(** * Further properties of the client, the provider and the resources   *)
(* ===================================================================== *)

(* ===================================================================== *)
(** ** More about [do]: what a call sends and what it leaves              *)
(* ===================================================================== *)

(** The requests one run of the loop adds to the log, the request each of
    them is, and the rate-limit state the run leaves. *)
Lemma do_loop_log R ctx method path body n :
  forall attempt lastErr c w,
    let out := do_loop R ctx method path body n attempt lastErr c w in
    exists l,
      made w (world_of out) l /\
      (length l <= n)%nat /\
      Forall (fun e => newRequest R c method path body = Ok (ex_req e)) l /\
      client_of out = after_responses c (rev (map ex_res l)).
Proof.
  induction n as [|n IH]; intros attempt lastErr c w; simpl.
  - exists []. repeat split; [simpl; lia | constructor].
  - destruct (backoffWait R ctx c attempt (now w)) as [t1|t];
      [|exists []; repeat split; [simpl; lia | constructor]].
    destruct (rateLimitWait R ctx c t1) as [t2|t];
      [|exists []; repeat split; [simpl; lia | constructor]].
    destruct (newRequest R c method path body) as [req|e] eqn:Hnew;
      [|exists []; repeat split; [simpl; lia | constructor]].
    destruct (httpClient_Do R (exchanges w) t2 ctx req) as [elapsed res].
    set (ex := {| ex_req := req; ex_res := res |}).
    set (w' := {| now := t2 + elapsed; exchanges := _ |}).
    assert (Hw : made w w' [ex]) by reflexivity.
    assert (Hstep : forall le c1,
              same_but_rate c c1 ->
              after_responses c [res] = c1 ->
              let out := do_loop R ctx method path body n (attempt + 1) le c1 w' in
              exists l,
                made w (world_of out) l /\
                (length l <= S n)%nat /\
                Forall (fun e => Ok req = Ok (ex_req e)) l /\
                client_of out = after_responses c (rev (map ex_res l))).
    { intros le c1 Hc1 Hres. destruct (IH (attempt + 1) le c1 w') as (l & Hl & Hn & Hreq & Hc).
      exists (l ++ [ex]). split; [eapply made_trans; eauto|].
      split; [rewrite length_app; simpl; lia|].
      split.
      - apply Forall_app. split; [|repeat constructor].
        eapply Forall_impl; [exact Hreq|]. intros e He. simpl in He.
        rewrite (newRequest_same R c c1) in He by exact Hc1. congruence.
      - rewrite Hc, map_app, rev_app_distr, after_responses_app.
        change (rev (map ex_res [ex])) with [res]. rewrite Hres. reflexivity. }
    destruct res as [err|resp].
    + apply Hstep; [apply same_but_rate_refl | reflexivity].
    + pose proof (updateRateLimits_frame c resp) as Hu.
      destruct (http.Body resp) as [respBody|err]; [|apply Hstep; [exact Hu | reflexivity]].
      destruct (http.StatusCode resp =? http.StatusTooManyRequests);
        [apply Hstep; [exact Hu | reflexivity]|].
      destruct (400 <=? http.StatusCode resp);
        (exists [ex]; repeat split; [simpl; lia | repeat constructor]).
Qed.

Lemma do_log R c w ctx method path body :
  let out := do R c w ctx method path body in
  exists l,
    made w (world_of out) l /\
    (length l <= Z.to_nat (maxRetries c + 1))%nat /\
    Forall (fun e => newRequest R c method path body = Ok (ex_req e)) l /\
    client_of out = after_responses c (rev (map ex_res l)) /\
    (l <> [] -> match body with
                | Some b => is_Ok (json_Marshal R b) = true
                | None => True
                end).
Proof.
  unfold do. destruct body as [b|].
  - destruct (json_Marshal R b) as [s|err] eqn:Hm.
    + destruct (do_loop_log R ctx method path (Some b) (Z.to_nat (maxRetries c + 1)) 0 None c w)
        as (l & H1 & H2 & H3 & H4).
      exists l. repeat split; auto.
    + exists []. repeat split; [simpl; lia | constructor | congruence].
  - destruct (do_loop_log R ctx method path None (Z.to_nat (maxRetries c + 1)) 0 None c w)
      as (l & H1 & H2 & H3 & H4).
    exists l. repeat split; auto.
Qed.

(** X1.  Whatever the network does, whatever the context and the body, one
    call of [do] hands at most [maxRetries + 1] requests to the network (none
    when [maxRetries] is negative), and the client it leaves differs from
    the one it found in the two rate-limit fields at most: credentials,
    base URL, retry settings and both caches are as they were. *)
Theorem do_attempts_bounded R c w ctx method path body :
  let out := do R c w ctx method path body in
  same_but_rate c (client_of out) /\
  exists l,
    made w (world_of out) l /\
    Z.of_nat (length l) <= Z.max 0 (maxRetries c + 1).
Proof.
  intros out. split; [apply do_frame|].
  destruct (do_log R c w ctx method path body) as (l & H1 & H2 & _).
  exists l. split; [exact H1 | lia].
Qed.

Lemma Header_Get_Set h key key' value :
  http.Header_Get (http.Header_Set h key value) key'
  = if decide (textproto.CanonicalMIMEHeaderKey key = textproto.CanonicalMIMEHeaderKey key')
    then value else http.Header_Get h key'.
Proof.
  unfold http.Header_Get, http.Header_Set.
  destruct (decide (textproto.CanonicalMIMEHeaderKey key = textproto.CanonicalMIMEHeaderKey key'))
    as [->|Hne].
  - rewrite lookup_insert_eq. reflexivity.
  - rewrite lookup_insert_ne by exact Hne. reflexivity.
Qed.

Lemma newRequest_inv R c method path body req :
  newRequest R c method path body = Ok req ->
  as_configured R c method path body req.
Proof.
  unfold newRequest, as_configured.
  destruct (http_NewRequest_err R method (baseURL c +:+ path)); [discriminate|].
  intros [= <-]. cbn [http.Method http.URL http.ReqHeader http.ReqBody].
  rewrite !Header_Get_Set.
  repeat split.
Qed.

(** X2.  Every request a call of [do] hands to the network, the first and
    every retry alike, has the method of the call, the URL [baseURL + path],
    the four headers Content-Type (application/json), x-api-user, x-api-key
    and x-client with the values of the client, no other header, and as body
    the JSON text of the body given (no body when none is given). *)
Theorem do_requests_as_configured R c w ctx method path body :
  let out := do R c w ctx method path body in
  exists l,
    made w (world_of out) l /\
    Forall (fun e =>
              as_configured R c method path body (ex_req e) /\
              body_sent R body (http.ReqBody (ex_req e))) l.
Proof.
  intros out. destruct (do_log R c w ctx method path body) as (l & H1 & _ & H3 & _ & H5).
  exists l. split; [exact H1|].
  destruct l as [|e0 l0]; [constructor|].
  specialize (H5 ltac:(discriminate)).
  eapply Forall_impl; [exact H3|]. intros e He. simpl in He.
  split; [apply newRequest_inv; exact He|].
  unfold newRequest in He. unfold body_sent.
  destruct (http_NewRequest_err R method (baseURL c +:+ path)); [discriminate|].
  injection He as <-. simpl.
  destruct body as [b|]; [|reflexivity].
  destruct (json_Marshal R b); [reflexivity | discriminate].
Qed.

(** X3.  The rate-limit state a call of [do] leaves is the state it found
    updated by [updateRateLimits] with every response received during the
    call, in the order received: the responses that are retried (429, body
    not readable) and the one that ends the call with an API error count as
    much as a success; an attempt without a response changes nothing. *)
Theorem do_rate_state_follows_responses R c w ctx method path body :
  let out := do R c w ctx method path body in
  exists l,
    made w (world_of out) l /\
    client_of out = after_responses c (rev (map ex_res l)).
Proof.
  intros out. destruct (do_log R c w ctx method path body) as (l & H1 & _ & _ & H4 & _).
  exists l. split; assumption.
Qed.

Lemma select_Done_inv R ctx t d t' :
  select_Done_After R ctx t d = CtxDone t' -> is_Some (context.doneAt ctx).
Proof.
  unfold select_Done_After. destruct (context.doneAt ctx); [eauto | discriminate].
Qed.

Lemma backoffWait_Done_inv R ctx c attempt t t' :
  backoffWait R ctx c attempt t = CtxDone t' -> is_Some (context.doneAt ctx).
Proof.
  unfold backoffWait. destruct (0 <? attempt); [apply select_Done_inv | discriminate].
Qed.

Lemma rateLimitWait_Done_inv R ctx c t t' :
  rateLimitWait R ctx c t = CtxDone t' -> is_Some (context.doneAt ctx).
Proof.
  unfold rateLimitWait. destruct (_ && _); [apply select_Done_inv | discriminate].
Qed.

Lemma loop_outcome_retry R ctx c c1 method path n le lastErr ex l r :
  baseURL c1 = baseURL c ->
  retryable (ex_res ex) ->
  failure_of (ex_res ex) = le ->
  http_NewRequest_err R method (baseURL c +:+ path) = None ->
  loop_outcome R ctx c1 method path n le l r ->
  loop_outcome R ctx c method path (S n) lastErr (l ++ [ex]) r.
Proof.
  intros Hbase Hre Hle Hurl H.
  assert (Hall : forall l0, Forall retryable (map ex_res l0) ->
                            Forall retryable (map ex_res (l0 ++ [ex]))).
  { intros l0 H0. rewrite map_app. apply Forall_app. split; [exact H0|].
    repeat constructor. exact Hre. }
  inversion H; subst.
  - apply out_cancelled; [assumption | apply Hall; assumption |].
    rewrite length_app; simpl; lia.
  - rewrite Hbase in *. congruence.
  - change ((ex0 :: l0) ++ [ex]) with (ex0 :: (l0 ++ [ex])).
    eapply out_decided; eauto. rewrite length_app; simpl; lia.
  - replace (last_failure (failure_of (ex_res ex)) (rev (map ex_res l)))
      with (last_failure lastErr (rev (map ex_res (l ++ [ex])))).
    + apply out_exhausted; [rewrite length_app; simpl; lia | apply Hall; assumption].
    + rewrite map_app, rev_app_distr. reflexivity.
Qed.

Lemma do_loop_outcome R ctx method path body n :
  forall attempt lastErr c w,
    let out := do_loop R ctx method path body n attempt lastErr c w in
    exists l,
      made w (world_of out) l /\
      loop_outcome R ctx c method path n lastErr l (result_of out).
Proof.
  induction n as [|n IH]; intros attempt lastErr c w; simpl.
  - exists []. split; [apply made_refl|].
    apply (out_exhausted R ctx c method path 0 lastErr []); [reflexivity | constructor].
  - destruct (backoffWait R ctx c attempt (now w)) as [t1|t] eqn:Hb.
    2: { exists []. split; [apply made_set_now|].
         apply out_cancelled; [eapply backoffWait_Done_inv; eauto | constructor | simpl; lia]. }
    destruct (rateLimitWait R ctx c t1) as [t2|t] eqn:Hr.
    2: { exists []. split; [apply made_set_now|].
         apply out_cancelled; [eapply rateLimitWait_Done_inv; eauto | constructor | simpl; lia]. }
    destruct (newRequest R c method path body) as [req|e] eqn:Hnew.
    2: { exists []. split; [apply made_set_now|]. unfold newRequest in Hnew.
         destruct (http_NewRequest_err R method (baseURL c +:+ path)) eqn:Hurl; [|discriminate].
         injection Hnew as <-. apply out_unbuildable; [exact Hurl | lia]. }
    assert (Hurl : http_NewRequest_err R method (baseURL c +:+ path) = None).
    { unfold newRequest in Hnew.
      destruct (http_NewRequest_err R method (baseURL c +:+ path)); [discriminate | reflexivity]. }
    destruct (httpClient_Do R (exchanges w) t2 ctx req) as [elapsed res].
    set (ex := {| ex_req := req; ex_res := res |}).
    set (w' := {| now := t2 + elapsed; exchanges := _ |}).
    assert (Hw : made w w' [ex]) by reflexivity.
    assert (Hstep : forall c1,
              same_but_rate c c1 ->
              retryable res ->
              let out := do_loop R ctx method path body n (attempt + 1) (failure_of res) c1 w' in
              exists l,
                made w (world_of out) l /\
                loop_outcome R ctx c method path (S n) lastErr l (result_of out)).
    { intros c1 Hc1 Hre. destruct (IH (attempt + 1) (failure_of res) c1 w') as (l & Hl & Hout).
      exists (l ++ [ex]). split; [eapply made_trans; eauto|].
      apply (loop_outcome_retry R ctx c c1 method path n (failure_of res) lastErr ex l);
        [apply same_but_rate_fields in Hc1; tauto | exact Hre | reflexivity
        | exact Hurl | exact Hout]. }
    destruct res as [err|resp].
    + apply (Hstep c (same_but_rate_refl c) I).
    + pose proof (updateRateLimits_frame c resp) as Hu.
      pose proof (Hstep (updateRateLimits c resp) Hu) as Hgo. simpl in Hgo.
      destruct (http.Body resp) as [respBody|err] eqn:Hbody; [|apply Hgo; exact I].
      unfold http.StatusTooManyRequests.
      destruct (http.StatusCode resp =? 429) eqn:H429.
      { apply Hgo. apply Z.eqb_eq in H429. exact H429. }
      apply Z.eqb_neq in H429.
      exists [ex].
      assert (Hd : loop_outcome R ctx c method path (S n) lastErr [ex]
                     (verdict R resp respBody)).
      { apply (out_decided R ctx c method path (S n) lastErr ex [] resp respBody);
          [reflexivity | exact Hbody | exact H429 | constructor | simpl; lia]. }
      unfold verdict in Hd.
      destruct (400 <=? http.StatusCode resp); (split; [exact Hw | exact Hd]).
Qed.

(** X4.  The outcomes of [do], by the requests the call added to the log.
    One of five happened: the body did not marshal and nothing was sent; the
    context was done during a wait, after retryable outcomes only; the
    request could not be created and nothing was sent; the last request got
    a readable response other than a 429, after retryable outcomes only, and
    the call returns its body when the status is below 400 and the API error
    of the status and the body otherwise; or all [maxRetries + 1] attempts
    had a retryable outcome and the call returns "max retries exceeded"
    around the failure of the last one. *)
Theorem do_outcome R c w ctx method path body :
  let out := do R c w ctx method path body in
  exists l,
    made w (world_of out) l /\
    do_outcome_of R ctx c method path body l (result_of out).
Proof.
  intros out. subst out. unfold do, do_outcome_of.
  destruct body as [b|].
  - destruct (json_Marshal R b) as [s|err] eqn:Hm.
    + destruct (do_loop_outcome R ctx method path (Some b)
                  (Z.to_nat (maxRetries c + 1)) 0 None c w) as (l & Hl & Hout).
      exists l. split; [exact Hl | right; exact Hout].
    + exists []. split; [apply made_refl|]. left. exists b, err. repeat split; assumption.
  - destruct (do_loop_outcome R ctx method path None
                (Z.to_nat (maxRetries c + 1)) 0 None c w) as (l & Hl & Hout).
    exists l. split; [exact Hl | right; exact Hout].
Qed.

(** A body comes back only from a request of this very call. *)
Lemma do_Ok_log R c w ctx method path body b c1 w1 :
  do R c w ctx method path body = (Ok b, c1, w1) ->
  exists ex l resp,
    made w w1 (ex :: l) /\
    ex_res ex = DoResp resp /\
    http.Body resp = Ok b /\
    http.StatusCode resp < 400.
Proof.
  intros Hdo. unfold do in Hdo.
  destruct (match body with Some b0 => _ | None => None end); [discriminate|].
  destruct (do_loop_outcome R ctx method path body (Z.to_nat (maxRetries c + 1)) 0 None c w)
    as (l & Hl & Hout).
  rewrite Hdo in Hl, Hout. unfold result_of, world_of in *. simpl in *.
  inversion Hout as [| |ex l0 resp respBody Hres Hbody H429 Hall Hlen Hl0 Hv|]; subst.
  unfold verdict in Hv. destruct (400 <=? http.StatusCode resp) eqn:H400; [discriminate|].
  injection Hv as Hv. subst respBody. apply Z.leb_gt in H400.
  exists ex, l0, resp. repeat split; try assumption; try lia.
  unfold verdict. rewrite (proj2 (Z.leb_gt _ _) H400). exact Hbody.
Qed.

(** X5.  A request that [http.NewRequestWithContext] refuses (a path that
    makes the URL invalid) never reaches the network and is not retried: the
    call returns at its first attempt, with the error of the creation
    wrapped in "creating request" (or the context's error when the context
    is done during the rate-limit wait in front of it, or the marshaling
    error of the body), and the client and the log are as they were. *)
Theorem do_unbuildable_request R c w ctx method path body err :
  http_NewRequest_err R method (baseURL c +:+ path) = Some err ->
  0 <= maxRetries c ->
  let out := do R c w ctx method path body in
  client_of out = c /\
  exchanges (world_of out) = exchanges w /\
  exists e, result_of out = Err e /\
    (e = Wrapf "creating request" err \/
     e = CtxError (context.cause ctx) \/
     exists merr, e = Wrapf "marshaling request body" merr).
Proof.
  intros Hurl Hmax out. subst out. unfold do.
  destruct (match body with Some b => _ | None => None end) as [merr|].
  - simpl. repeat split. eexists; split; [reflexivity|]. right; right. eexists; reflexivity.
  - destruct (Z.to_nat (maxRetries c + 1)) as [|n] eqn:Hn; [lia|].
    cbn [do_loop]. unfold backoffWait, newRequest. rewrite Hurl.
    change (0 <? 0) with false. cbv iota.
    destruct (rateLimitWait R ctx c (now w)) as [t2|t]; simpl.
    + repeat split. eexists; split; [reflexivity|]. left; reflexivity.
    + repeat split. eexists; split; [reflexivity|]. right; left; reflexivity.
Qed.

Lemma do_unbuildable_request_witness :
  let out := UpdateTag strict_runtime (New (test_config 3)) (fresh_world 0)
               context.Background "%zz" "work" in
  result_of out = Err (Wrapf "creating request" (LibError "invalid URL escape")) /\
  exchanges (world_of out) = [].
Proof.
  destruct (do_unbuildable_request strict_runtime (New (test_config 3)) (fresh_world 0)
              context.Background "PUT" "/tags/%zz" (Some (NameBody "work"))
              (LibError "invalid URL escape") eq_refl ltac:(vm_compute; discriminate))
    as (_ & Hlog & _).
  split; [vm_compute; reflexivity | exact Hlog].
Defined.

(* ===================================================================== *)
(** ** The two waits                                                      *)
(* ===================================================================== *)

(** X6.  The rate-limit gate in front of an attempt.  With the remaining
    budget at or above the buffer the attempt goes on at once.  With the
    budget below the buffer the attempt goes on no earlier than the reset
    time (as long as the reset is less than the longest [time.Duration],
    about 292 years, away).  The gate gives up only while it waits for a
    reset that lies ahead, at an instant at which the context is done and
    that is not after the reset. *)
Theorem rateLimitWait_gate R ctx c t :
  match rateLimitWait R ctx c t with
  | TimerFired t2 =>
      t <= t2 /\
      (rateLimitBuffer c <= rateLimitRemaining c -> t2 = t) /\
      (rateLimitRemaining c < rateLimitBuffer c ->
       rateLimitReset c - t <= time.maxDuration ->
       t2 = Z.max t (rateLimitReset c))
  | CtxDone t' =>
      rateLimitRemaining c < rateLimitBuffer c /\
      t < rateLimitReset c /\
      t <= t' <= rateLimitReset c /\
      context.Done ctx t' = true
  end.
Proof.
  unfold rateLimitWait, time.Before, time.Until, time.Sub, select_Done_After,
    context.Done, time.maxDuration, time.minDuration.
  destruct (rateLimitRemaining c <? rateLimitBuffer c) eqn:Hb; simpl.
  2: { apply Z.ltb_ge in Hb. repeat split; lia. }
  apply Z.ltb_lt in Hb.
  destruct (t <? rateLimitReset c) eqn:Ht; simpl.
  2: { apply Z.ltb_ge in Ht. repeat split; lia. }
  apply Z.ltb_lt in Ht.
  destruct (context.doneAt ctx) as [tc|].
  2: { repeat split; lia. }
  destruct (tc <? _) eqn:H1.
  { apply Z.ltb_lt in H1. repeat split; try lia; try (apply Z.leb_le; lia). }
  destruct (_ <? tc) eqn:H2.
  { repeat split; lia. }
  apply Z.ltb_ge in H1, H2.
  destruct (select_tie R _).
  - repeat split; try lia; try (apply Z.leb_le; lia).
  - repeat split; lia.
Qed.

(** X7.  A client just made by [New] is not held at the gate, whatever
    buffer was configured (even one above the initial budget of 30): its
    reset time is the zero time, which no clock reading precedes. *)
Theorem New_not_gated R ctx cfg t :
  time.zero <= t ->
  rateLimitWait R ctx (New cfg) t = TimerFired t /\
  backoffWait R ctx (New cfg) 0 t = TimerFired t.
Proof.
  intros Ht. unfold rateLimitWait, backoffWait, time.Before. simpl.
  destruct (t <? time.zero) eqn:H; [apply Z.ltb_lt in H; lia|].
  rewrite andb_false_r. split; reflexivity.
Qed.

Lemma New_not_gated_witness :
  rateLimitWait (toy_runtime (always (DoErr (LibError "refused"))))
    context.Background
    (New {| UserID := "u"; APIKey := "k"; ClientAuthorID := "a";
            ClientAppName := ""; RateLimitBuffer := 100; MaxRetries := 0;
            BaseRetryDelay := 0 |}) 0
  = TimerFired 0.
Proof.
  refine (proj1 (New_not_gated (toy_runtime (always (DoErr (LibError "refused"))))
                   context.Background
                   {| UserID := "u"; APIKey := "k"; ClientAuthorID := "a";
                      ClientAppName := ""; RateLimitBuffer := 100; MaxRetries := 0;
                      BaseRetryDelay := 0 |} 0 _)).
  vm_compute. discriminate.
Defined.

(** X8.  The backoff without overflow: the wait before the first retry is
    [baseRetryDelay], each further wait is twice the one before, and under a
    context that is never done the retry starts exactly
    [baseRetryDelay * 2^(attempt-1)] after the failed attempt. *)
Theorem backoff_doubles R ctx c attempt t :
  0 <= baseRetryDelay c ->
  1 <= attempt ->
  baseRetryDelay c * 2 ^ attempt < 2 ^ 63 ->
  context.doneAt ctx = None ->
  backoffDelay c 1 = baseRetryDelay c /\
  backoffDelay c (attempt + 1) = 2 * backoffDelay c attempt /\
  backoffWait R ctx c attempt t
  = TimerFired (t + baseRetryDelay c * 2 ^ (attempt - 1)).
Proof.
  intros Hb Ha Hlt Hctx.
  assert (Hpow : 2 ^ attempt = 2 * 2 ^ (attempt - 1)).
  { replace attempt with (Z.succ (attempt - 1)) at 1 by lia.
    apply Z.pow_succ_r. lia. }
  assert (Hpos : 0 < 2 ^ (attempt - 1)) by (apply Z.pow_pos_nonneg; lia).
  assert (H1 : backoffDelay c 1 = baseRetryDelay c).
  { rewrite backoffDelay_exact; [simpl; lia | lia | lia | simpl; nia]. }
  assert (Hk : backoffDelay c attempt = baseRetryDelay c * 2 ^ (attempt - 1)).
  { apply backoffDelay_exact; [lia | lia | nia]. }
  assert (Hk1 : backoffDelay c (attempt + 1) = baseRetryDelay c * 2 ^ attempt).
  { rewrite backoffDelay_exact; [f_equal; f_equal; lia | lia | lia |].
    replace (attempt + 1 - 1) with attempt by lia. exact Hlt. }
  split; [exact H1|]. split; [rewrite Hk1, Hk, Hpow; lia|].
  unfold backoffWait. destruct (0 <? attempt) eqn:H0; [|apply Z.ltb_ge in H0; lia].
  rewrite (select_never_done R ctx Hctx), Hk. f_equal. nia.
Qed.

Lemma backoff_doubles_witness :
  map (backoffDelay (New (test_config 3))) [1; 2; 3]
  = [10 * time.Millisecond; 20 * time.Millisecond; 40 * time.Millisecond].
Proof.
  pose proof (backoff_doubles (toy_runtime (always (DoErr (LibError "refused"))))
                context.Background (New (test_config 3))) as H.
  destruct (H 1 0 ltac:(vm_compute; discriminate) ltac:(lia) ltac:(vm_compute; reflexivity)
              eq_refl) as (H1 & H2 & _).
  destruct (H 2 0 ltac:(vm_compute; discriminate) ltac:(lia) ltac:(vm_compute; reflexivity)
              eq_refl) as (_ & H3 & _).
  simpl map. change (2 + 1) with 3 in H3. change (1 + 1) with 2 in H2.
  rewrite H3, H2, H1. reflexivity.
Defined.

Lemma wrap64_half_turn (x : Z) :
  wrap64 (x * - 2 ^ 63) = 0 \/ wrap64 (x * - 2 ^ 63) = - 2 ^ 63.
Proof.
  unfold wrap64.
  replace (x * - 2 ^ 63 + 2 ^ 63) with (2 ^ 63 * (1 - x)) by lia.
  change (2 ^ 64) with (2 ^ 63 * 2).
  rewrite Z.mul_mod_distr_l by lia.
  pose proof (Z.mod_pos_bound (1 - x) 2 ltac:(lia)) as Hm.
  assert (H : (1 - x) mod 2 = 0 \/ (1 - x) mod 2 = 1) by lia.
  destruct H as [-> | ->]; [right | left]; lia.
Qed.

(** X9.  The backoff past the width of the integer: from the 64th retry on
    the shift leaves no positive delay (the delay is 0, or the least
    [int64] when the base delay is odd at the 64th), so the timer fires at
    once and the retry follows the failure without any wait. *)
Theorem backoff_vanishes R ctx c attempt t :
  64 <= attempt ->
  context.doneAt ctx = None ->
  backoffDelay c attempt <= 0 /\
  (65 <= attempt -> backoffDelay c attempt = 0) /\
  backoffWait R ctx c attempt t = TimerFired t.
Proof.
  intros Ha Hctx.
  assert (Hd : backoffDelay c attempt <= 0 /\ (65 <= attempt -> backoffDelay c attempt = 0)).
  { unfold backoffDelay, shl64.
    destruct (attempt - 1 <? 64) eqn:H64.
    - apply Z.ltb_lt in H64. assert (attempt = 64) as -> by lia.
      change (wrap64 (Z.shiftl 1 (64 - 1))) with (- 2 ^ 63).
      split; [|lia].
      destruct (wrap64_half_turn (baseRetryDelay c)) as [-> | ->]; lia.
    - rewrite Z.mul_0_r. change (wrap64 0) with 0. split; [lia | reflexivity]. }
  split; [apply Hd|]. split; [apply Hd|].
  unfold backoffWait. destruct (0 <? attempt) eqn:H0; [|reflexivity].
  rewrite (select_never_done R ctx Hctx). f_equal.
  destruct Hd as [Hle _]. lia.
Qed.

Lemma backoff_vanishes_witness :
  backoffDelay (New (test_config 100)) 70 = 0.
Proof.
  destruct (backoff_vanishes (toy_runtime (always (DoErr (LibError "refused"))))
              context.Background (New (test_config 100)) 70 0 ltac:(lia) eq_refl)
    as (_ & H & _).
  apply H. lia.
Defined.

(* ===================================================================== *)
(** ** More about the caches                                              *)
(* ===================================================================== *)

(** X10.  What a mutation does to the caches, success or failure: the cache
    of its kind is dropped exactly when the mutation returns no error and is
    left as it was when it returns one (whatever failed: the request, the
    status or the decoding), and the cache of the other kind is never
    touched. *)
Theorem mutation_cache_effect R c w ctx :
  (forall m,
      let out := tag_mutation R c w ctx m in
      tagCache (client_of out)
      = match result_of out with Some _ => tagCache c | None => None end /\
      taskCache (client_of out) = taskCache c) /\
  (forall m,
      let out := task_mutation R c w ctx m in
      taskCache (client_of out)
      = match result_of out with Some _ => taskCache c | None => None end /\
      tagCache (client_of out) = tagCache c).
Proof.
  split; intros m out; subst out; destruct m; simpl;
    unfold CreateTag, UpdateTag, DeleteTag, CreateTask, UpdateTask, DeleteTask,
      Post, Put, Delete;
    match goal with
    | |- context [do ?R ?c ?w ?ctx ?m ?p ?b] =>
        destruct (do R c w ctx m p b) as [[r c1] w1] eqn:Hdo;
        pose proof (do_tagCache _ _ _ _ _ _ _ _ _ _ Hdo) as Htag;
        pose proof (do_taskCache _ _ _ _ _ _ _ _ _ _ Hdo) as Htask
    end;
    destruct r as [resp|err]; simpl; auto;
    try (destruct (json_Unmarshal_Tag R resp)); try (destruct (json_Unmarshal_Task R resp));
    simpl; auto.
Qed.

Lemma populateTagCache_taskCache R c w ctx perr c1 w1 :
  populateTagCache R c w ctx = (perr, c1, w1) -> taskCache c1 = taskCache c.
Proof.
  unfold populateTagCache, Get. destruct (tagCache c); [intros [= _ <- _]; reflexivity|].
  destruct (do R c w ctx http.MethodGet "/tags" None) as [[r c2] w2] eqn:Hdo.
  apply do_taskCache in Hdo.
  destruct r as [resp|err]; [destruct (json_Unmarshal_Tags R resp)|];
    intros [= _ <- _]; simpl; auto.
Qed.

Lemma populateTaskCache_tagCache R c w ctx perr c1 w1 :
  populateTaskCache R c w ctx = (perr, c1, w1) -> tagCache c1 = tagCache c.
Proof.
  unfold populateTaskCache, Get. destruct (taskCache c); [intros [= _ <- _]; reflexivity|].
  destruct (do R c w ctx http.MethodGet "/tasks/user" None) as [[r c2] w2] eqn:Hdo.
  apply do_tagCache in Hdo.
  destruct r as [resp|err]; [destruct (json_Unmarshal_Tasks R resp)|];
    intros [= _ <- _]; simpl; auto.
Qed.

(** X11.  What the reading methods do to the caches.  A lookup by id never
    touches the cache of the other kind, and its own cache is either left
    as it was or goes from unpopulated to populated; the two list-all
    methods leave both caches as they were. *)
Theorem reads_cache_effect R c w ctx :
  (forall id,
      let out := GetTag R c w ctx id in
      taskCache (client_of out) = taskCache c /\
      (tagCache (client_of out) = tagCache c \/
       tagCache c = None /\ is_Some (tagCache (client_of out)))) /\
  (forall id,
      let out := GetTask R c w ctx id in
      tagCache (client_of out) = tagCache c /\
      (taskCache (client_of out) = taskCache c \/
       taskCache c = None /\ is_Some (taskCache (client_of out)))) /\
  (let out := GetAllTags R c w ctx in
   tagCache (client_of out) = tagCache c /\ taskCache (client_of out) = taskCache c) /\
  (let out := GetAllTasks R c w ctx in
   tagCache (client_of out) = tagCache c /\ taskCache (client_of out) = taskCache c).
Proof.
  split; [|split; [|split]].
  - intros id out. subst out. unfold GetTag.
    destruct (cache_lookup (tagCache c) id); [simpl; auto|].
    destruct (populateTagCache R c w ctx) as [[perr c1] w1] eqn:Hp.
    pose proof (populateTagCache_taskCache _ _ _ _ _ _ _ Hp) as Hother.
    destruct perr as [err|].
    + apply populateTagCache_err in Hp as [H0 H1]. unfold client_of; simpl. split; [auto | left; congruence].
    + pose proof (populateTagCache_ok _ _ _ _ _ _ Hp) as Hsome.
      assert (Hc : client_of (match cache_lookup (tagCache c1) id with
                              | Some tag => (Ok tag, c1, w1)
                              | None => (Err (Errorf ("tag not found: " +:+ id)), c1, w1)
                              end) = c1)
        by (destruct (cache_lookup (tagCache c1) id); reflexivity).
      rewrite Hc. split; [exact Hother|].
      destruct (tagCache c) eqn:Hcache.
      * rewrite populateTagCache_skip in Hp by (rewrite Hcache; eauto).
        injection Hp as <- _. left. exact Hcache.
      * right. split; [reflexivity | exact Hsome].
  - intros id out. subst out. unfold GetTask.
    destruct (cache_lookup (taskCache c) id); [simpl; auto|].
    destruct (populateTaskCache R c w ctx) as [[perr c1] w1] eqn:Hp.
    pose proof (populateTaskCache_tagCache _ _ _ _ _ _ _ Hp) as Hother.
    destruct perr as [err|].
    + apply populateTaskCache_err in Hp as [H0 H1]. unfold client_of; simpl. split; [auto | left; congruence].
    + pose proof (populateTaskCache_ok _ _ _ _ _ _ Hp) as Hsome.
      assert (Hc : client_of (match cache_lookup (taskCache c1) id with
                              | Some task => (Ok task, c1, w1)
                              | None => (Err (Errorf ("task not found: " +:+ id)), c1, w1)
                              end) = c1)
        by (destruct (cache_lookup (taskCache c1) id); reflexivity).
      rewrite Hc. split; [exact Hother|].
      destruct (taskCache c) eqn:Hcache.
      * rewrite populateTaskCache_skip in Hp by (rewrite Hcache; eauto).
        injection Hp as <- _. left. exact Hcache.
      * right. split; [reflexivity | exact Hsome].
  - intros out. subst out. unfold GetAllTags, Get.
    destruct (do R c w ctx http.MethodGet "/tags" None) as [[r c1] w1] eqn:Hdo.
    pose proof (do_tagCache _ _ _ _ _ _ _ _ _ _ Hdo).
    pose proof (do_taskCache _ _ _ _ _ _ _ _ _ _ Hdo).
    destruct r as [resp|err]; [destruct (json_Unmarshal_Tags R resp)|]; simpl; auto.
  - intros out. subst out. unfold GetAllTasks, Get.
    destruct (do R c w ctx http.MethodGet "/tasks/user" None) as [[r c1] w1] eqn:Hdo.
    pose proof (do_tagCache _ _ _ _ _ _ _ _ _ _ Hdo).
    pose proof (do_taskCache _ _ _ _ _ _ _ _ _ _ Hdo).
    destruct r as [resp|err]; [destruct (json_Unmarshal_Tasks R resp)|]; simpl; auto.
Qed.

Lemma index_by_snoc {E : Type} (ID : E -> string) (data : list E) (e : E) :
  index_by ID (data ++ [e]) = <[ID e := e]> (index_by ID data).
Proof. unfold index_by. rewrite fold_left_app. reflexivity. Qed.

Lemma index_by_last {E : Type} (ID : E -> string) (data : list E) (id : string) :
  index_by ID data !! id = last_with ID id data.
Proof.
  unfold last_with. induction data as [|e data IH] using rev_ind.
  - reflexivity.
  - rewrite index_by_snoc, rev_app_distr. simpl.
    destruct (String.eqb_spec (ID e) id) as [->|Hne].
    + apply lookup_insert_eq.
    + rewrite lookup_insert_ne by exact Hne. exact IH.
Qed.



Lemma updateRateLimits_with_caches tasks tags c resp :
  updateRateLimits (with_caches tasks tags c) resp
  = with_caches tasks tags (updateRateLimits c resp).
Proof.
  unfold updateRateLimits.
  destruct (negb (String.eqb (http.Header_Get (http.RespHeader resp) "X-RateLimit-Remaining") ""));
    [destruct (strconv.Atoi _)|];
    (destruct (negb (String.eqb (http.Header_Get (http.RespHeader resp) "X-RateLimit-Reset") ""));
     [destruct (strconv.ParseInt10 _ 64)|]); reflexivity.
Qed.

(** [do] does not read the caches: it runs alike whatever they hold, and
    hands them on. *)
Lemma do_loop_with_caches R ctx method path body tasks tags n :
  forall attempt lastErr c w,
    do_loop R ctx method path body n attempt lastErr (with_caches tasks tags c) w
    = let '(r, c', w') := do_loop R ctx method path body n attempt lastErr c w in
      (r, with_caches tasks tags c', w').
Proof.
  induction n as [|n IH]; intros attempt lastErr c w; cbn [do_loop].
  - reflexivity.
  - change (backoffWait R ctx (with_caches tasks tags c) attempt (now w))
      with (backoffWait R ctx c attempt (now w)).
    destruct (backoffWait R ctx c attempt (now w)) as [t1|t]; [|reflexivity].
    change (rateLimitWait R ctx (with_caches tasks tags c) t1)
      with (rateLimitWait R ctx c t1).
    destruct (rateLimitWait R ctx c t1) as [t2|t]; [|reflexivity].
    change (newRequest R (with_caches tasks tags c) method path body)
      with (newRequest R c method path body).
    destruct (newRequest R c method path body) as [req|e]; [|reflexivity].
    destruct (httpClient_Do R (exchanges w) t2 ctx req) as [elapsed res].
    destruct res as [err|resp]; [apply IH|].
    rewrite updateRateLimits_with_caches.
    destruct (http.Body resp) as [respBody|err]; [|apply IH].
    destruct (http.StatusCode resp =? http.StatusTooManyRequests); [apply IH|].
    destruct (400 <=? http.StatusCode resp); reflexivity.
Qed.

Lemma do_with_caches R c w ctx method path body tasks tags :
  do R (with_caches tasks tags c) w ctx method path body
  = let '(r, c', w') := do R c w ctx method path body in
    (r, with_caches tasks tags c', w').
Proof.
  unfold do.
  destruct (match body with Some b => _ | None => None end); [reflexivity|].
  change (maxRetries (with_caches tasks tags c)) with (maxRetries c).
  apply do_loop_with_caches.
Qed.

(** X13.  The two list-all methods, and with them the data source, do not
    read the caches: run on a client whose caches hold anything at all, they
    send the same requests, return the same result and leave the same
    rate-limit state as on the client with other caches, and hand the
    caches they found back untouched.  A list-all call therefore always
    goes to the network, also right after a lookup populated the cache. *)
Theorem list_all_ignores_caches R c w ctx tasks tags :
  (let out := GetAllTags R c w ctx in
   GetAllTags R (with_caches tasks tags c) w ctx
   = (result_of out, with_caches tasks tags (client_of out), world_of out)) /\
  (let out := GetAllTasks R c w ctx in
   GetAllTasks R (with_caches tasks tags c) w ctx
   = (result_of out, with_caches tasks tags (client_of out), world_of out)).
Proof.
  split; intros out; subst out; unfold GetAllTags, GetAllTasks, Get;
    rewrite do_with_caches;
    match goal with
    | |- context [do ?R ?c ?w ?ctx ?m ?p ?b] =>
        destruct (do R c w ctx m p b) as [[r c1] w1]
    end;
    destruct r as [resp|err];
    try (destruct (json_Unmarshal_Tags R resp));
    try (destruct (json_Unmarshal_Tasks R resp)); reflexivity.
Qed.

(* ===================================================================== *)
(** ** Webhooks                                                           *)
(* ===================================================================== *)

Section WebhookFacts.

Variable decode : string -> result (APIResponse (list Webhook)).

Lemma GetWebhooks_Ok R c w ctx whs c1 w1 :
  GetWebhooks decode R c w ctx = (Ok whs, c1, w1) ->
  fetched_webhooks decode c w w1 whs.
Proof.
  unfold GetWebhooks, Get, fetched_webhooks.
  destruct (do R c w ctx http.MethodGet "/user/webhook" None) as [[r c2] w2] eqn:Hdo.
  destruct r as [body|err]; [|discriminate].
  destruct (decode body) as [apiResp|err] eqn:Hdec; [|discriminate].
  intros [= <- <- <-].
  destruct (do_Ok_log _ _ _ _ _ _ _ _ _ _ Hdo) as (ex & l & resp & Hl & Hres & Hbody & Hst).
  destruct (do_Ok_inv _ _ _ _ _ _ _ _ _ _ Hdo)
    as (ex' & rest & resp' & Hw & _ & _ & _ & Hm & Hu).
  assert (ex' = ex) as -> by (red in Hl; simpl in Hl; congruence).
  exists body, apiResp, ex, l, resp. repeat split; assumption.
Qed.

Lemma GetWebhooks_caches R c w ctx :
  let out := GetWebhooks decode R c w ctx in
  tagCache (client_of out) = tagCache c /\ taskCache (client_of out) = taskCache c.
Proof.
  intros out. subst out. unfold GetWebhooks, Get.
  destruct (do R c w ctx http.MethodGet "/user/webhook" None) as [[r c1] w1] eqn:Hdo.
  pose proof (do_tagCache _ _ _ _ _ _ _ _ _ _ Hdo).
  pose proof (do_taskCache _ _ _ _ _ _ _ _ _ _ Hdo).
  destruct r as [body|err]; [destruct (decode body)|]; split; assumption.
Qed.

Lemma GetWebhooks_Err R c w ctx e c1 w1 :
  GetWebhooks decode R c w ctx = (Err e, c1, w1) ->
  do_error R e \/ exists err, e = Wrapf "unmarshaling response" err.
Proof.
  unfold GetWebhooks, Get.
  destruct (do R c w ctx http.MethodGet "/user/webhook" None) as [[r c2] w2] eqn:Hdo.
  destruct r as [body|err].
  - destruct (decode body) as [apiResp|err]; [discriminate|].
    intros [= <- _ _]. right. eexists; reflexivity.
  - intros [= <- _ _]. left. eapply do_Err_inv; exact Hdo.
Qed.

End WebhookFacts.

Lemma do_error_webhook_not_found R e id :
  do_error R e -> e <> Errorf ("webhook not found: " +:+ id).
Proof.
  intros He Heq. subst e. inversion He as [| | |status respBody H|lastErr H].
  - unfold apiError in H.
    assert (Hne : forall x, Errorf ("API error (" +:+ x)
                            <> Errorf ("webhook not found: " +:+ id))
      by (intros x Hx; discriminate).
    destruct (json_Unmarshal_any R respBody) as [a|];
      [destruct (negb (String.eqb (Message a) ""))|]; exact (Hne _ H).
  - destruct lastErr; discriminate.
Qed.

Lemma find_first_with {E : Type} (ID : E -> string) (id : string) (l : list E) :
  match find (fun e => String.eqb (ID e) id) l with
  | Some x => first_with ID id l x
  | None => Forall (fun y => ID y <> id) l
  end.
Proof.
  induction l as [|e l IH]; simpl; [constructor|].
  destruct (String.eqb_spec (ID e) id) as [Heq|Hne].
  - exists [], l. repeat split; [constructor | exact Heq].
  - destruct (find _ l) as [x|].
    + destruct IH as (pre & post & -> & Hpre & Hx).
      exists (e :: pre), post. repeat split; [constructor; assumption | exact Hx].
    + constructor; assumption.
Qed.

Lemma GetWebhook_Ok_sent
    (decode : string -> result (APIResponse (list Webhook)))
    R c w ctx id wh c1 w1 :
  GetWebhook decode R c w ctx id = (Ok wh, c1, w1) ->
  exists ex l, made w w1 (ex :: l).
Proof.
  unfold GetWebhook.
  destruct (GetWebhooks decode R c w ctx) as [[r c2] w2] eqn:Hget.
  destruct r as [whs|e]; [|discriminate].
  apply GetWebhooks_Ok in Hget as (body & apiResp & ex & l & resp & _ & _ & Hl & _).
  destruct (find _ whs); [|discriminate].
  intros [= _ _ <-]. exists ex, l. exact Hl.
Qed.

(** X14.  Webhooks are never cached.  A webhook returned by [GetWebhook]
    comes from a list this very call fetched (a GET to
    [baseURL + "/user/webhook"] sent by the call, answered below 400 with a
    body that decodes): it is the first entry of that list with the id.  The
    not-found error likewise follows a list fetched by the call in which no
    entry has the id.  The call leaves both entity caches as they were. *)
Theorem GetWebhook_always_fetches
    (decode : string -> result (APIResponse (list Webhook)))
    R c w ctx id :
  let out := GetWebhook decode R c w ctx id in
  tagCache (client_of out) = tagCache c /\
  taskCache (client_of out) = taskCache c /\
  (forall wh,
      result_of out = Ok wh ->
      exists whs,
        fetched_webhooks decode c w (world_of out) whs /\
        first_with Webhook_ID id whs wh) /\
  (result_of out = Err (Errorf ("webhook not found: " +:+ id)) ->
   exists whs,
     fetched_webhooks decode c w (world_of out) whs /\
     Forall (fun wh => Webhook_ID wh <> id) whs).
Proof.
  intros out. subst out. unfold GetWebhook.
  pose proof (GetWebhooks_caches decode R c w ctx) as Hcaches.
  destruct (GetWebhooks decode R c w ctx) as [[r c1] w1] eqn:Hget.
  unfold client_of in Hcaches. simpl in Hcaches. destruct Hcaches as [Htag Htask].
  destruct r as [whs|e].
  - apply GetWebhooks_Ok in Hget.
    pose proof (find_first_with Webhook_ID id whs) as Hfind.
    destruct (find _ whs) as [x|]; unfold client_of, result_of, world_of; simpl.
    + repeat split; try assumption.
      * intros wh [= <-]. exists whs. split; assumption.
      * discriminate.
    + repeat split; try assumption.
      * discriminate.
      * intros _. exists whs. split; assumption.
  - unfold client_of, result_of, world_of; simpl. repeat split; try assumption.
    + discriminate.
    + intros [= ->]. apply GetWebhooks_Err in Hget as [He | [err Habs]]; [|discriminate].
      exfalso. eapply do_error_webhook_not_found; [exact He | reflexivity].
Qed.

(** X15.  [DeleteWebhook] returns the error of its request unchanged and,
    unlike the deletion of a tag or a task, never touches a cache, also
    when it succeeds; it returns no error only when a DELETE to
    [baseURL + "/user/webhook/" + id] sent by the call was answered below
    400. *)
Theorem DeleteWebhook_effect R c w ctx id :
  let out := DeleteWebhook R c w ctx id in
  tagCache (client_of out) = tagCache c /\
  taskCache (client_of out) = taskCache c /\
  match result_of out with
  | None =>
      exists ex l resp,
        made w (world_of out) (ex :: l) /\
        ex_res ex = DoResp resp /\
        http.StatusCode resp < 400 /\
        http.Method (ex_req ex) = "DELETE" /\
        http.URL (ex_req ex) = baseURL c +:+ "/user/webhook/" +:+ id
  | Some err => do_error R err
  end.
Proof.
  intros out. subst out. unfold DeleteWebhook, Delete.
  destruct (do R c w ctx http.MethodDelete ("/user/webhook/" +:+ id) None)
    as [[r c1] w1] eqn:Hdo.
  pose proof (do_tagCache _ _ _ _ _ _ _ _ _ _ Hdo).
  pose proof (do_taskCache _ _ _ _ _ _ _ _ _ _ Hdo).
  unfold client_of, result_of, world_of; simpl. repeat split; try assumption.
  destruct r as [b|e]; simpl.
  - destruct (do_Ok_log _ _ _ _ _ _ _ _ _ _ Hdo) as (ex & l & resp & Hl & Hres & Hbody & Hst).
    destruct (do_Ok_inv _ _ _ _ _ _ _ _ _ _ Hdo)
      as (ex' & rest & resp' & Hw & _ & _ & _ & Hm & Hu).
    assert (ex' = ex) as -> by (red in Hl; simpl in Hl; congruence).
    exists ex, l, resp. repeat split; assumption.
  - eapply do_Err_inv; exact Hdo.
Qed.

(* ===================================================================== *)
(** ** Decimal numerals in the rate-limit headers                         *)
(* ===================================================================== *)

Lemma digit_pretty_N_char (d : N) :
  (d < 10)%N -> strconv.digit (pretty_N_char d) = Some (Z.of_N d).
Proof.
  intros Hd.
  assert (d = 0 \/ d = 1 \/ d = 2 \/ d = 3 \/ d = 4 \/ d = 5 \/ d = 6 \/ d = 7
          \/ d = 8 \/ d = 9)%N as H by lia.
  repeat (destruct H as [->|H]; [reflexivity|]). subst d. reflexivity.
Qed.

(** The digits [pretty_N_go] puts in front of [s] read back as its number. *)
Lemma digits_pretty_N_go (x : N) :
  forall s, strconv.digits 0 (pretty_N_go x s) = strconv.digits (Z.of_N x) s.
Proof.
  induction (N.lt_wf_0 x) as [x _ IH]. intros s.
  destruct (N.eq_dec x 0%N) as [->|Hx]; [rewrite pretty_N_go_0; reflexivity|].
  rewrite pretty_N_go_step by lia.
  rewrite IH by (apply N.div_lt; lia).
  simpl. rewrite digit_pretty_N_char by (apply N.mod_lt; lia).
  f_equal. rewrite (N.div_mod x 10) at 3 by lia. lia.
Qed.

(** A positive number is rendered with a digit in front. *)
Lemma pretty_N_go_head (x : N) :
  forall s, (0 < x)%N ->
    exists a rest, pretty_N_go x s = String a rest /\ is_Some (strconv.digit a).
Proof.
  induction (N.lt_wf_0 x) as [x _ IH]. intros s Hx.
  rewrite pretty_N_go_step by exact Hx.
  destruct (N.eq_dec (x `div` 10)%N 0%N) as [H0|H0].
  - rewrite H0, pretty_N_go_0. eexists _, _. split; [reflexivity|].
    rewrite digit_pretty_N_char by (apply N.mod_lt; lia). eauto.
  - apply IH; [apply N.div_lt; lia | apply N.neq_0_lt_0; exact H0].
Qed.

Lemma digit_not_sign a :
  is_Some (strconv.digit a) -> Ascii.eqb a "+" = false /\ Ascii.eqb a "-" = false.
Proof.
  intros [d Hd]. split.
  - destruct (Ascii.eqb_spec a "+") as [->|]; [discriminate | reflexivity].
  - destruct (Ascii.eqb_spec a "-") as [->|]; [discriminate | reflexivity].
Qed.

(** [strconv.ParseInt(_, 10, 64)] reads back the decimal numeral of every
    [int64]. *)
Lemma ParseInt10_pretty (n : Z) :
  - 2 ^ 63 <= n < 2 ^ 63 -> strconv.ParseInt10 (pretty n) 64 = Some n.
Proof.
  intros Hn. destruct n as [|p|p].
  - reflexivity.
  - change (pretty (Z.pos p)) with (pretty_N_go (N.pos p) "").
    destruct (pretty_N_go_head (N.pos p) "" ltac:(lia)) as (a & rest & Heq & Ha).
    pose proof (digits_pretty_N_go (N.pos p) "") as Hd. rewrite Heq in Hd |- *.
    destruct (digit_not_sign a Ha) as [Hplus Hminus].
    unfold strconv.ParseInt10. rewrite Hplus, Hminus.
    unfold strconv.magnitude. rewrite Hd. simpl strconv.digits.
    change (2 ^ (64 - 1)) with (2 ^ 63).
    change (Z.of_N (N.pos p)) with (Z.pos p).
    assert (Hc : (2 ^ 63 <=? Z.pos p) = false) by (apply Z.leb_gt; lia).
    cbv beta iota. rewrite Hc. reflexivity.
  - change (pretty (Z.neg p)) with (String "-" (pretty_N_go (N.pos p) "")).
    destruct (pretty_N_go_head (N.pos p) "" ltac:(lia)) as (a & rest & Heq & Ha).
    pose proof (digits_pretty_N_go (N.pos p) "") as Hd. rewrite Heq in Hd |- *.
    unfold strconv.ParseInt10. change (Ascii.eqb "-" "+") with false.
    change (Ascii.eqb "-" "-") with true. cbv iota.
    unfold strconv.magnitude. rewrite Hd. simpl strconv.digits.
    change (2 ^ (64 - 1)) with (2 ^ 63).
    change (Z.of_N (N.pos p)) with (Z.pos p).
    assert (Hc : (2 ^ 63 <? Z.pos p) = false) by (apply Z.ltb_ge; lia).
    cbv beta iota. rewrite Hc. reflexivity.
Qed.

Lemma ParseInt10_nonempty s bits n :
  strconv.ParseInt10 s bits = Some n -> String.eqb s "" = false.
Proof. destruct s; [discriminate | reflexivity]. Qed.



(* ===================================================================== *)
(** ** The settings of a new client                                       *)
(* ===================================================================== *)

(** X17.  Retries cannot be switched off through the configuration: [New]
    replaces a [MaxRetries] of zero or less by 5, so a request whose every
    attempt has a retryable outcome is sent six times before the call gives
    up.  (Likewise a buffer or a base delay of zero or less gives the
    defaults 5 and two seconds.) *)
Theorem New_cannot_disable_retries cfg R w ctx method path body script :
  MaxRetries cfg <= 0 ->
  context.doneAt ctx = None ->
  sendable R (New cfg) method path body ->
  answers R ctx (length (exchanges w)) script ->
  Forall retryable script ->
  length script = 6%nat ->
  let out := do R (New cfg) w ctx method path body in
  maxRetries (New cfg) = 5 /\
  1 <= rateLimitBuffer (New cfg) /\
  1 <= baseRetryDelay (New cfg) /\
  result_of out = Err (wrap "max retries exceeded" (last_failure None script)) /\
  exists l, made w (world_of out) l /\ length l = 6%nat.
Proof.
  intros Hcfg Hctx Hsend Hans Hre Hlen out.
  assert (Hmax : maxRetries (New cfg) = 5).
  { unfold New. simpl. destruct (MaxRetries cfg <=? 0) eqn:H; [reflexivity|].
    apply Z.leb_gt in H. lia. }
  split; [exact Hmax|].
  split; [unfold New; simpl; destruct (RateLimitBuffer cfg <=? 0) eqn:H;
          [unfold DefaultRateLimitBuf; lia | apply Z.leb_gt in H; lia]|].
  split; [unfold New; simpl; destruct (BaseRetryDelay cfg <=? 0) eqn:H;
          [unfold DefaultRetryDelay, time.Second; lia | apply Z.leb_gt in H; lia]|].
  destruct (do_script_exhausted R (New cfg) w ctx method path body script
              Hctx Hsend Hans Hre ltac:(rewrite Hmax, Hlen; reflexivity))
    as (w' & l & Hdo & Hmade & Hmap & _).
  subst out. rewrite Hdo. unfold result_of, world_of. simpl.
  split; [reflexivity|]. exists l. split; [exact Hmade|].
  rewrite <- (length_map ex_res), Hmap, length_rev. exact Hlen.
Qed.

Lemma New_cannot_disable_retries_witness :
  let script := replicate 6 (DoResp (response 429 "rate-limited")) in
  let out := do (toy_runtime (playing script (DoResp (response 200 "ok"))))
               (New (test_config 0)) (fresh_world 0) context.Background
               http.MethodGet "/test" None in
  maxRetries (New (test_config 0)) = 5 /\
  1 <= rateLimitBuffer (New (test_config 0)) /\
  1 <= baseRetryDelay (New (test_config 0)) /\
  result_of out = Err (wrap "max retries exceeded" (last_failure None script)) /\
  exists l, made (fresh_world 0) (world_of out) l /\ length l = 6%nat.
Proof.
  intros script.
  apply (New_cannot_disable_retries (test_config 0)
           (toy_runtime (playing script (DoResp (response 200 "ok"))))
           (fresh_world 0) context.Background http.MethodGet "/test" None script).
  - vm_compute. discriminate.
  - reflexivity.
  - apply sendable_toy.
  - apply answers_playing.
  - repeat constructor.
  - reflexivity.
Defined.

(* ===================================================================== *)
(** ** The user_tasks data source                                         *)
(* ===================================================================== *)

Lemma tagMap_of_snoc tags tag :
  tagMap_of (tags ++ [tag]) = <[Tag_ID tag := Tag_Name tag]> (tagMap_of tags).
Proof. unfold tagMap_of. rewrite fold_left_app. reflexivity. Qed.

Lemma tagMap_of_last tags id :
  tagMap_of tags !! id = Tag_Name <$> last_with Tag_ID id tags.
Proof.
  unfold last_with. induction tags as [|tag tags IH] using rev_ind.
  - reflexivity.
  - rewrite tagMap_of_snoc, rev_app_distr. simpl.
    destruct (String.eqb_spec (Tag_ID tag) id) as [->|Hne].
    + apply lookup_insert_eq.
    + rewrite lookup_insert_ne by exact Hne. exact IH.
Qed.

Lemma resolveTags_omap tagMap ids :
  resolveTags tagMap ids = omap (fun id => tagMap !! id) ids.
Proof.
  unfold resolveTags.
  assert (H : forall acc,
             fold_left (fun resolved tagID =>
                          match tagMap !! tagID with
                          | Some name => resolved ++ [name]
                          | None => resolved
                          end) ids acc
             = acc ++ omap (fun id => tagMap !! id) ids).
  { induction ids as [|id ids IH]; intros acc; simpl.
    - rewrite app_nil_r. reflexivity.
    - rewrite IH. destruct (tagMap !! id); [rewrite <- app_assoc|]; reflexivity. }
  apply (H []).
Qed.

Lemma resolveTags_names tags ids :
  resolveTags (tagMap_of tags) ids = tag_names tags ids.
Proof.
  rewrite resolveTags_omap. unfold tag_names.
  induction ids as [|id ids IH]; [reflexivity|].
  cbn [omap list_omap]. rewrite tagMap_of_last, IH. reflexivity.
Qed.

Section UserTasksFacts.

Variable Completed : Task -> bool.
Variable json_MarshalIndent : tasksOutput -> result string.
Variable State_Set : string -> diag.Diagnostics.

Lemma categorize_step tags out0 task :
  let out := categorize Completed (tagMap_of tags) out0 task in
  exists ds hs ts,
    Dailies out = Dailies out0 ++ ds /\
    Habits out = Habits out0 ++ hs /\
    Todos out = Todos out0 ++ ts /\
    Forall2 (shows_daily Completed tags) (of_type "daily" [task]) ds /\
    Forall2 (shows_habit tags) (of_type "habit" [task]) hs /\
    Forall2 (shows_todo Completed tags) (of_type "todo" [task]) ts.
Proof.
  unfold categorize, of_type. rewrite resolveTags_names, !filter_cons, !filter_nil.
  destruct (String.eqb_spec (Task_Type task) "daily") as [Hty|Hn1].
  { rewrite Hty.
    rewrite (decide_True (P := "daily" = "daily")) by reflexivity.
    rewrite (decide_False (P := "daily" = "habit")) by discriminate.
    rewrite (decide_False (P := "daily" = "todo")) by discriminate.
    eexists [_], [], []. simpl. rewrite !app_nil_r.
    repeat split; repeat constructor. }
  destruct (String.eqb_spec (Task_Type task) "habit") as [Hty|Hn2].
  { rewrite Hty.
    rewrite (decide_False (P := "habit" = "daily")) by discriminate.
    rewrite (decide_True (P := "habit" = "habit")) by reflexivity.
    rewrite (decide_False (P := "habit" = "todo")) by discriminate.
    eexists [], [_], []. simpl. rewrite !app_nil_r.
    repeat split; repeat constructor. }
  destruct (String.eqb_spec (Task_Type task) "todo") as [Hty|Hn3].
  { rewrite Hty.
    rewrite (decide_False (P := "todo" = "daily")) by discriminate.
    rewrite (decide_False (P := "todo" = "habit")) by discriminate.
    rewrite (decide_True (P := "todo" = "todo")) by reflexivity.
    eexists [], [], [_]. simpl. rewrite !app_nil_r.
    repeat split; repeat constructor. }
  rewrite !decide_False by assumption.
  exists [], [], []. rewrite !app_nil_r. repeat split; constructor.
Qed.

Lemma of_type_cons type task tasks :
  of_type type (task :: tasks) = of_type type [task] ++ of_type type tasks.
Proof. unfold of_type. apply (filter_app _ [task] tasks). Qed.

Lemma categorize_fold tags tasks :
  forall out0,
    let out := fold_left (categorize Completed (tagMap_of tags)) tasks out0 in
    exists ds hs ts,
      Dailies out = Dailies out0 ++ ds /\
      Habits out = Habits out0 ++ hs /\
      Todos out = Todos out0 ++ ts /\
      Forall2 (shows_daily Completed tags) (of_type "daily" tasks) ds /\
      Forall2 (shows_habit tags) (of_type "habit" tasks) hs /\
      Forall2 (shows_todo Completed tags) (of_type "todo" tasks) ts.
Proof.
  induction tasks as [|task tasks IH]; intros out0; simpl.
  - exists [], [], []. rewrite !app_nil_r. repeat split; constructor.
  - destruct (categorize_step tags out0 task)
      as (ds1 & hs1 & ts1 & Hd1 & Hh1 & Ht1 & Fd1 & Fh1 & Ft1).
    destruct (IH (categorize Completed (tagMap_of tags) out0 task))
      as (ds & hs & ts & Hd & Hh & Ht & Fd & Fh & Ft).
    exists (ds1 ++ ds), (hs1 ++ hs), (ts1 ++ ts).
    rewrite Hd, Hh, Ht, Hd1, Hh1, Ht1, <- !app_assoc, !(of_type_cons _ task tasks).
    repeat split; apply Forall2_app; assumption.
Qed.

(** X18.  The output of the data source.  Its dailies are the tasks of
    type "daily" in the order fetched, each with its id, text, notes,
    completion, due flag, streak and frequency; likewise its habits (with
    the two counters) and its todos; a task of any other type (a reward)
    appears nowhere.  The tags of each are the names, in the order of the
    task's tag ids, of the listed tags with those ids: an id that no listed
    tag has is dropped, and of two listed tags with one id the later one
    gives the name. *)
Theorem output_of_categorizes tasks tags :
  let out := output_of Completed tasks tags in
  Forall2 (shows_daily Completed tags) (of_type "daily" tasks) (Dailies out) /\
  Forall2 (shows_habit tags) (of_type "habit" tasks) (Habits out) /\
  Forall2 (shows_todo Completed tags) (of_type "todo" tasks) (Todos out).
Proof.
  intros out. subst out. unfold output_of.
  destruct (categorize_fold tags tasks {| Dailies := []; Habits := []; Todos := [] |})
    as (ds & hs & ts & Hd & Hh & Ht & Fd & Fh & Ft).
  simpl in Hd, Hh, Ht. rewrite Hd, Hh, Ht. repeat split; assumption.
Qed.


Lemma Get_log R c w ctx path :
  let out := Get R c w ctx path in
  same_but_rate c (client_of out) /\
  exists l,
    made w (world_of out) l /\
    Z.of_nat (length l) <= Z.max 0 (maxRetries c + 1) /\
    Forall (fun e => http.Method (ex_req e) = "GET") l.
Proof.
  intros out. split; [apply do_frame|].
  destruct (do_log R c w ctx http.MethodGet path None) as (l & H1 & H2 & H3 & _).
  exists l. split; [exact H1|]. split; [lia|].
  eapply Forall_impl; [exact H3|]. intros e He. simpl in He.
  apply newRequest_inv in He. destruct He as [Hm _]. exact Hm.
Qed.

Lemma GetAllTasks_log R c w ctx :
  let out := GetAllTasks R c w ctx in
  same_but_rate c (client_of out) /\
  exists l,
    made w (world_of out) l /\
    Z.of_nat (length l) <= Z.max 0 (maxRetries c + 1) /\
    Forall (fun e => http.Method (ex_req e) = "GET") l.
Proof.
  intros out. subst out. unfold GetAllTasks.
  pose proof (Get_log R c w ctx "/tasks/user") as H.
  destruct (Get R c w ctx "/tasks/user") as [[r c1] w1].
  destruct r as [resp|err]; [destruct (json_Unmarshal_Tasks R resp)|]; exact H.
Qed.

Lemma GetAllTags_log R c w ctx :
  let out := GetAllTags R c w ctx in
  same_but_rate c (client_of out) /\
  exists l,
    made w (world_of out) l /\
    Z.of_nat (length l) <= Z.max 0 (maxRetries c + 1) /\
    Forall (fun e => http.Method (ex_req e) = "GET") l.
Proof.
  intros out. subst out. unfold GetAllTags.
  pose proof (Get_log R c w ctx "/tags") as H.
  destruct (Get R c w ctx "/tags") as [[r c1] w1].
  destruct r as [resp|err]; [destruct (json_Unmarshal_Tags R resp)|]; exact H.
Qed.

(** X19.  [Read] of the data source is read-only and all-or-nothing.  It
    sends GET requests only, at most [2 * (maxRetries + 1)] of them, and
    leaves both caches as they were.  The state is set only when the tasks
    were listed, then the tags, and the output made of the two serialized:
    its value is that JSON text.  Otherwise the state is not set and the
    diagnostics hold exactly one error; when the listing of the tasks is
    what failed, the tags are not asked for. *)
Theorem userTasks_Read_all_or_nothing R c w ctx :
  let out := userTasks_Read Completed json_MarshalIndent State_Set R c w ctx in
  tagCache (client_of out) = tagCache c /\
  taskCache (client_of out) = taskCache c /\
  (exists l,
      made w (world_of out) l /\
      Z.of_nat (length l) <= 2 * Z.max 0 (maxRetries c + 1) /\
      Forall (fun e => http.Method (ex_req e) = "GET") l) /\
  match State (result_of out) with
  | Some json =>
      exists tasks tags c1 w1,
        GetAllTasks R c w ctx = (Ok tasks, c1, w1) /\
        GetAllTags R c1 w1 ctx = (Ok tags, client_of out, world_of out) /\
        json_MarshalIndent (output_of Completed tasks tags) = Ok json
  | None =>
      exists summary detail,
        Diagnostics (result_of out) = [diag.ErrorDiagnostic summary detail] /\
        (summary = "Error fetching tasks" ->
         world_of out = world_of (GetAllTasks R c w ctx))
  end.
Proof.
  intros out. subst out. unfold userTasks_Read.
  pose proof (GetAllTasks_log R c w ctx) as H1.
  destruct (GetAllTasks R c w ctx) as [[r1 c1] w1] eqn:Hget1.
  unfold client_of, world_of, result_of in H1. simpl in H1.
  destruct H1 as (Hc1 & l1 & Hl1 & Hn1 & Hm1).
  pose proof (same_but_rate_fields _ _ Hc1) as F1.
  destruct r1 as [tasks|err1].
  2: { unfold client_of, world_of, result_of. simpl.
       split; [tauto|]. split; [tauto|]. split.
       - exists l1. repeat split; [exact Hl1 | lia | exact Hm1].
       - eexists _, _. split; [reflexivity|]. reflexivity. }
  pose proof (GetAllTags_log R c1 w1 ctx) as H2.
  destruct (GetAllTags R c1 w1 ctx) as [[r2 c2] w2] eqn:Hget2.
  unfold client_of, world_of, result_of in H2. simpl in H2.
  destruct H2 as (Hc2 & l2 & Hl2 & Hn2 & Hm2).
  pose proof (same_but_rate_fields _ _ Hc2) as F2.
  assert (Hcaches : tagCache c2 = tagCache c /\ taskCache c2 = taskCache c).
  { destruct F1 as (_ & _ & _ & _ & _ & _ & _ & _ & T1 & G1).
    destruct F2 as (_ & _ & _ & _ & _ & _ & _ & _ & T2 & G2).
    split; congruence. }
  assert (Hlog : exists l,
             made w w2 l /\
             Z.of_nat (length l) <= 2 * Z.max 0 (maxRetries c + 1) /\
             Forall (fun e => http.Method (ex_req e) = "GET") l).
  { exists (l2 ++ l1). split; [eapply made_trans; eauto|].
    split; [|apply Forall_app; split; assumption].
    destruct F1 as (_ & _ & _ & _ & _ & _ & M1 & _).
    rewrite M1 in Hn2. rewrite length_app. lia. }
  destruct r2 as [tags|err2].
  2: { unfold client_of, world_of, result_of. simpl.
       split; [tauto|]. split; [tauto|]. split; [exact Hlog|].
       eexists _, _. split; [reflexivity | discriminate]. }
  destruct (json_MarshalIndent (output_of Completed tasks tags)) as [json|err3] eqn:Hjson;
    unfold client_of, world_of, result_of; simpl.
  - split; [tauto|]. split; [tauto|]. split; [exact Hlog|].
    exists tasks, tags, c1, w1. repeat split; assumption.
  - split; [tauto|]. split; [tauto|]. split; [exact Hlog|].
    eexists _, _. split; [reflexivity | discriminate].
Qed.

End UserTasksFacts.

(* ===================================================================== *)
(** ** The configuration of the provider                                  *)
(* ===================================================================== *)

Lemma diag_eqb_is_error d d' :
  diag.eqb d d' = true -> diag.is_error d' = diag.is_error d.
Proof. destruct d, d'; simpl; intros H; congruence. Qed.

Lemma diag_Contains_error diags d :
  diag.Contains diags d = true -> diag.is_error d = true ->
  diag.HasError diags = true.
Proof.
  unfold diag.Contains, diag.HasError. intros Hc He.
  apply existsb_exists in Hc as (d' & Hin & Heq).
  apply existsb_exists. exists d'. split; [exact Hin|].
  rewrite (diag_eqb_is_error _ _ Heq). exact He.
Qed.

Lemma diag_HasError_app a b :
  diag.HasError (a ++ b) = diag.HasError a || diag.HasError b.
Proof. apply existsb_app. Qed.

Lemma diag_Append_HasError new :
  forall diags,
    diag.HasError (diag.Append diags new) = diag.HasError diags || diag.HasError new.
Proof.
  unfold diag.Append. induction new as [|d new IH]; intros diags; simpl.
  - rewrite orb_false_r. reflexivity.
  - rewrite IH. destruct (diag.Contains diags d) eqn:Hc.
    + destruct (diag.is_error d) eqn:He; simpl; [|reflexivity].
      rewrite (diag_Contains_error _ _ Hc He). reflexivity.
    + rewrite diag_HasError_app. simpl. rewrite orb_false_r, orb_assoc. reflexivity.
Qed.

Lemma diag_AddError_new diags summary detail :
  diag.Contains diags (diag.ErrorDiagnostic summary detail) = false ->
  diag.AddError diags summary detail = diags ++ [diag.ErrorDiagnostic summary detail].
Proof. unfold diag.AddError, diag.Append. simpl. intros ->. reflexivity. Qed.

Lemma diag_Contains_app a b d :
  diag.Contains (a ++ b) d = diag.Contains a d || diag.Contains b d.
Proof. apply existsb_app. Qed.

Lemma diag_Contains_no_error diags summary detail :
  diag.HasError diags = false ->
  diag.Contains diags (diag.ErrorDiagnostic summary detail) = false.
Proof.
  intros H. destruct (diag.Contains diags _) eqn:Hc; [|reflexivity].
  rewrite (diag_Contains_error _ _ Hc eq_refl) in H. discriminate.
Qed.

Lemma diag_AddError_app diags extra summary detail :
  diag.HasError diags = false ->
  diag.Contains extra (diag.ErrorDiagnostic summary detail) = false ->
  diag.AddError (diags ++ extra) summary detail
  = diags ++ (extra ++ [diag.ErrorDiagnostic summary detail]).
Proof.
  intros Hno Hextra. rewrite diag_AddError_new.
  - rewrite <- app_assoc. reflexivity.
  - rewrite diag_Contains_app, Hextra, (diag_Contains_no_error _ _ _ Hno). reflexivity.
Qed.

Section ProviderFacts.

Variable os_Getenv : string -> string.

Lemma getConfigOrEnv_credential v envVar :
  getConfigOrEnv os_Getenv v envVar = credential os_Getenv v envVar.
Proof.
  unfold getConfigOrEnv, credential. destruct v as [| |s]; simpl; try reflexivity.
  destruct (String.eqb s ""); reflexivity.
Qed.

Lemma missing_credentials_HasError u t a :
  diag.HasError (missing_credentials u t a)
  = (String.eqb u "" || String.eqb t "" || String.eqb a "")%bool.
Proof.
  unfold missing_credentials.
  destruct (String.eqb u ""), (String.eqb t ""), (String.eqb a ""); reflexivity.
Qed.

(** The three checks add the errors of the credentials that are empty. *)
Lemma Configure_checks diags u t a :
  diag.HasError diags = false ->
  (let d1 := if String.eqb u "" then
               diag.AddError diags "Missing User ID"
                 "The provider requires a user_id to be set in the configuration or via the HABITICA_USER_ID environment variable."
             else diags in
   let d2 := if String.eqb t "" then
               diag.AddError d1 "Missing API Token"
                 "The provider requires an api_token to be set in the configuration or via the HABITICA_API_TOKEN environment variable."
             else d1 in
   if String.eqb a "" then
     diag.AddError d2 "Missing Client Author ID"
       "The provider requires a client_author_id to be set in the configuration or via the HABITICA_CLIENT_AUTHOR_ID environment variable."
   else d2)
  = diags ++ missing_credentials u t a.
Proof.
  intros Hno. unfold missing_credentials.
  pose proof (diag_Contains_no_error diags) as Hfresh.
  destruct (String.eqb u ""), (String.eqb t ""), (String.eqb a ""); cbv zeta;
    repeat first
      [ rewrite (diag_AddError_new diags) by (apply Hfresh; exact Hno)
      | rewrite diag_AddError_app by (exact Hno || reflexivity) ];
    simpl; rewrite ?app_nil_r; reflexivity.
Qed.

(** X20.  The credentials of the provider.  Each of user id, API token and
    client author id is the value of the configuration when that is known
    and not empty, and the variable of the environment otherwise (so an
    empty string in the configuration falls back to the environment).
    [Configure] reports every missing credential at once, in that order,
    after the diagnostics of the decoding, and makes a client exactly when
    the decoding reported no error and none of the three is empty. *)
Theorem Configure_credentials got config :
  let userID := credential os_Getenv (pm_UserID config) "HABITICA_USER_ID" in
  let apiToken := credential os_Getenv (pm_APIToken config) "HABITICA_API_TOKEN" in
  let clientAuthorID :=
    credential os_Getenv (pm_ClientAuthorID config) "HABITICA_CLIENT_AUTHOR_ID" in
  let out := Configure os_Getenv got config in
  out.1 = diag.Append [] got ++
          (if diag.HasError got then []
           else missing_credentials userID apiToken clientAuthorID) /\
  (is_Some out.2 <->
   diag.HasError got = false /\
   userID <> "" /\ apiToken <> "" /\ clientAuthorID <> "").
Proof.
  intros userID apiToken clientAuthorID out.
  subst out userID apiToken clientAuthorID. unfold Configure.
  rewrite !getConfigOrEnv_credential. cbv zeta.
  set (userID := credential os_Getenv (pm_UserID config) _).
  set (apiToken := credential os_Getenv (pm_APIToken config) _).
  set (clientAuthorID := credential os_Getenv (pm_ClientAuthorID config) _).
  pose proof (diag_Append_HasError got []) as Hgot. simpl in Hgot.
  rewrite Hgot. destruct (diag.HasError got) eqn:Herr.
  { simpl. rewrite app_nil_r. split; [reflexivity|].
    split; [intros [x Hx]; discriminate | intros [Habs _]; discriminate]. }
  pose proof (Configure_checks (diag.Append [] got) userID apiToken clientAuthorID Hgot) as Hc.
  cbv zeta in Hc. rewrite Hc. clear Hc.
  rewrite diag_HasError_app, Hgot, missing_credentials_HasError. simpl orb.
  destruct (String.eqb_spec userID "") as [Hu|Hu]; simpl.
  { split; [reflexivity|].
    split; [intros [x Hx]; discriminate | intros (_ & Habs & _); contradiction]. }
  destruct (String.eqb_spec apiToken "") as [Ht|Ht]; simpl.
  { split; [reflexivity|].
    split; [intros [x Hx]; discriminate | intros (_ & _ & Habs & _); contradiction]. }
  destruct (String.eqb_spec clientAuthorID "") as [Ha|Ha]; simpl.
  { split; [reflexivity|].
    split; [intros [x Hx]; discriminate | intros (_ & _ & _ & Habs); contradiction]. }
  split; [reflexivity|]. split; [intros _; repeat split; assumption | intros _; eauto].
Qed.

(** X21.  The client the provider works with.  It carries the three
    credentials, identifies itself as author id, a hyphen and the
    application name ("TerraformHabitica" when the name is null, unknown or
    empty), keeps the configured buffer when that is positive and 5
    otherwise (null, unknown, zero or negative), retries 5 times with a
    base delay of two seconds, and talks to https://habitica.com/api/v3
    with a budget of 30 and both caches unpopulated. *)
Theorem Configure_client got config diags c :
  Configure os_Getenv got config = (diags, Some c) ->
  userID c = credential os_Getenv (pm_UserID config) "HABITICA_USER_ID" /\
  apiKey c = credential os_Getenv (pm_APIToken config) "HABITICA_API_TOKEN" /\
  clientID c
  = credential os_Getenv (pm_ClientAuthorID config) "HABITICA_CLIENT_AUTHOR_ID"
    +:+ "-" +:+ configured_app_name (pm_ClientAppName config) /\
  rateLimitBuffer c = configured_buffer (pm_RateLimitBuffer config) /\
  maxRetries c = 5 /\
  baseRetryDelay c = 2 * time.Second /\
  baseURL c = "https://habitica.com/api/v3" /\
  rateLimitRemaining c = 30 /\
  tagCache c = None /\ taskCache c = None.
Proof.
  unfold Configure. rewrite !getConfigOrEnv_credential. cbv zeta.
  destruct (diag.HasError (diag.Append [] got)); [discriminate|].
  destruct (diag.HasError _); [discriminate|].
  intros [= _ <-]. unfold New. simpl.
  repeat split.
  - f_equal. f_equal. unfold configured_app_name.
    destruct (pm_ClientAppName config) as [| |s]; simpl; try reflexivity;
      try (destruct (String.eqb s ""); reflexivity).
  - unfold configured_buffer.
    destruct (pm_RateLimitBuffer config) as [| |n]; simpl; try reflexivity;
      try (destruct (n <=? 0); reflexivity).
Qed.

End ProviderFacts.

Lemma Configure_client_witness :
  exists diags c,
    Configure example_env [] (example_provider_config (types.Known "author-1"))
    = (diags, Some c) /\
    userID c = "user-from-config" /\
    apiKey c = "token-from-env" /\
    clientID c = "author-1-TerraformHabitica" /\
    rateLimitBuffer c = 5.
Proof.
  eexists _, _. split; [vm_compute; reflexivity|].
  pose proof (Configure_client example_env []
                (example_provider_config (types.Known "author-1")) _ _ eq_refl)
    as (H1 & H2 & H3 & H4 & _).
  exact (conj H1 (conj H2 (conj H3 H4))).
Defined.

(** The configuration of the examples without an author id: one error, no
    client. *)
Example Configure_missing_author :
  Configure example_env [] (example_provider_config types.Null)
  = ([diag.ErrorDiagnostic "Missing Client Author ID"
        "The provider requires a client_author_id to be set in the configuration or via the HABITICA_CLIENT_AUTHOR_ID environment variable."],
     None).
Proof. vm_compute. reflexivity. Qed.

(* ===================================================================== *)
(** ** The conversions of the resources                                   *)
(* ===================================================================== *)

(** X22.  A webhook survives the round trip through the model of the
    resource: the model updated from a webhook converts back to that
    webhook without its id (URL, label, type, enabled flag and the five
    options as they were), whatever the model held before. *)
Theorem webhook_model_round_trip (model : webhookResourceModel) (wh : Webhook) :
  modelToWebhook (updateModelFromWebhook model wh) = without_id wh /\
  wm_ID (updateModelFromWebhook model wh) = wm_ID model.
Proof.
  split; [|reflexivity].
  unfold modelToWebhook, updateModelFromWebhook, without_id. simpl.
  destruct wh as [id url label type enabled [cr up de sc ch]]. reflexivity.
Qed.

Section TaskResourceFacts.

Variable List : Type.
Variable List_IsNull : List -> bool.
Variable ListNull_Int64 : List.
Variable ListNull_String : List.
Variable ElementsAs_Int64 : List -> list Z * diag.Diagnostics.
Variable ElementsAs_String : List -> list string * diag.Diagnostics.
Variable ListValueFrom_Int64 : list Z -> List * diag.Diagnostics.
Variable ListValueFrom_String : list string -> List * diag.Diagnostics.
Variable time_Parse_date : string -> option Z.
Variable time_Format_date : Z -> string.

Let toTask :=
  modelToTask List List_IsNull ElementsAs_Int64 ElementsAs_String time_Parse_date.
Let fromTask :=
  updateModelFromTask List ListNull_Int64 ListNull_String
    ListValueFrom_Int64 ListValueFrom_String time_Format_date.

Lemma getBoolWithDefault_follows v default :
  follows v default (getBoolWithDefault v default).
Proof. destruct v; reflexivity. Qed.

Lemma modelToTask_fields model diags :
  let task := (toTask model diags).1 in
  Task_ID task = "" /\
  Task_Type task = "daily" /\
  Task_Text task = types.ValueString (dm_Text model) /\
  Notes task = types.ValueString (dm_Notes model) /\
  Priority task = types.ValueFloat64 (dm_Priority model) /\
  Frequency task = types.ValueString (dm_Frequency model) /\
  EveryX task = types.ValueInt64 (dm_EveryX model) /\
  Repeat task
  = Some match dm_Repeat model with
         | Some r =>
             {| Monday := getBoolWithDefault (rm_Monday r) true;
                Tuesday := getBoolWithDefault (rm_Tuesday r) true;
                Wednesday := getBoolWithDefault (rm_Wednesday r) true;
                Thursday := getBoolWithDefault (rm_Thursday r) true;
                Friday := getBoolWithDefault (rm_Friday r) true;
                Saturday := getBoolWithDefault (rm_Saturday r) false;
                Sunday := getBoolWithDefault (rm_Sunday r) false |}
         | None => weekdays
         end /\
  DaysOfMonth task
  = (if List_IsNull (dm_DaysOfMonth model) then []
     else (ElementsAs_Int64 (dm_DaysOfMonth model)).1) /\
  WeeksOfMonth task
  = (if List_IsNull (dm_WeeksOfMonth model) then []
     else (ElementsAs_Int64 (dm_WeeksOfMonth model)).1) /\
  Tags task
  = (if List_IsNull (dm_Tags model) then []
     else (ElementsAs_String (dm_Tags model)).1).
Proof.
  unfold toTask, modelToTask.
  destruct (List_IsNull (dm_DaysOfMonth model));
    destruct (List_IsNull (dm_WeeksOfMonth model));
    destruct (List_IsNull (dm_Tags model));
    try destruct (ElementsAs_Int64 (dm_DaysOfMonth model));
    try destruct (ElementsAs_Int64 (dm_WeeksOfMonth model));
    try destruct (ElementsAs_String (dm_Tags model));
    simpl; destruct (dm_Repeat model); repeat split.
Qed.

(** X23.  A daily is always sent with a repeat configuration.  Without a
    repeat block in the plan it repeats Monday to Friday; with one, each
    day follows the plan when the plan names it and its default when the
    plan leaves it null or unknown (true for Monday to Friday, false for
    Saturday and Sunday), so a block that names no day is the same as no
    block.  The task is of type "daily" and carries no id. *)
Theorem modelToTask_repeat_defaults model diags :
  let task := (toTask model diags).1 in
  Task_Type task = "daily" /\
  Task_ID task = "" /\
  exists r,
    Repeat task = Some r /\
    match dm_Repeat model with
    | None => r = weekdays
    | Some m =>
        follows (rm_Monday m) true (Monday r) /\
        follows (rm_Tuesday m) true (Tuesday r) /\
        follows (rm_Wednesday m) true (Wednesday r) /\
        follows (rm_Thursday m) true (Thursday r) /\
        follows (rm_Friday m) true (Friday r) /\
        follows (rm_Saturday m) false (Saturday r) /\
        follows (rm_Sunday m) false (Sunday r)
    end.
Proof.
  intros task. destruct (modelToTask_fields model diags)
    as (Hid & Hty & _ & _ & _ & _ & _ & Hrep & _).
  fold task in Hid, Hty, Hrep.
  split; [exact Hty|]. split; [exact Hid|].
  eexists. split; [exact Hrep|].
  destruct (dm_Repeat model) as [m|]; [|reflexivity].
  simpl. repeat split; apply getBoolWithDefault_follows.
Qed.

Lemma updateModelFromTask_fields model task diags :
  let model' := (fromTask model task diags).1 in
  dm_ID model' = dm_ID model /\
  dm_Text model' = types.Known (Task_Text task) /\
  dm_Notes model' = types.Known (Notes task) /\
  dm_Priority model' = types.Known (Priority task) /\
  dm_Frequency model' = types.Known (Frequency task) /\
  dm_EveryX model' = types.Known (EveryX task) /\
  dm_Repeat model'
  = match Repeat task with
    | Some r =>
        Some {| rm_Monday := types.Known (Monday r);
                rm_Tuesday := types.Known (Tuesday r);
                rm_Wednesday := types.Known (Wednesday r);
                rm_Thursday := types.Known (Thursday r);
                rm_Friday := types.Known (Friday r);
                rm_Saturday := types.Known (Saturday r);
                rm_Sunday := types.Known (Sunday r) |}
    | None => dm_Repeat model
    end /\
  dm_DaysOfMonth model'
  = (if (0 <? length (DaysOfMonth task))%nat
     then (ListValueFrom_Int64 (DaysOfMonth task)).1 else ListNull_Int64) /\
  dm_WeeksOfMonth model'
  = (if (0 <? length (WeeksOfMonth task))%nat
     then (ListValueFrom_Int64 (WeeksOfMonth task)).1 else ListNull_Int64) /\
  dm_Tags model'
  = (if (0 <? length (Tags task))%nat
     then (ListValueFrom_String (Tags task)).1 else ListNull_String).
Proof.
  unfold fromTask, updateModelFromTask.
  destruct (0 <? length (DaysOfMonth task))%nat;
    destruct (0 <? length (WeeksOfMonth task))%nat;
    destruct (0 <? length (Tags task))%nat;
    try destruct (ListValueFrom_Int64 (DaysOfMonth task));
    try destruct (ListValueFrom_Int64 (WeeksOfMonth task));
    try destruct (ListValueFrom_String (Tags task));
    simpl; repeat split.
Qed.

Lemma list_back {A : Type} (isnull : List -> bool) (null : List)
    (from : list A -> List * diag.Diagnostics)
    (elems : List -> list A * diag.Diagnostics) (xs : list A) :
  isnull null = true ->
  (forall ys, isnull (from ys).1 = false /\ (elems (from ys).1).1 = ys) ->
  (let l := if (0 <? length xs)%nat then (from xs).1 else null in
   if isnull l then [] else (elems l).1) = xs.
Proof.
  intros Hnull Hfrom. destruct xs as [|x xs]; simpl.
  - rewrite Hnull. reflexivity.
  - destruct (Hfrom (x :: xs)) as [-> ->]. reflexivity.
Qed.

(** X24.  No drift between what the service returns and what the resource
    would send next: the model updated from a task converts back to a task
    with the same text, notes, priority, frequency and interval, the same
    repeat days (all seven as returned; without a repeat in the task, the
    days the model had before), and, for lists of the framework that give
    back their elements, the same tags, days of the month and weeks of the
    month.  The type is "daily" whatever the task had, and the id is left
    out. *)
Theorem daily_round_trip model task diags diags' :
  lists_round_trip List_IsNull ListNull_Int64 ListNull_String
    ElementsAs_Int64 ElementsAs_String ListValueFrom_Int64 ListValueFrom_String ->
  let task' := (toTask (fromTask model task diags).1 diags').1 in
  Task_Text task' = Task_Text task /\
  Notes task' = Notes task /\
  Priority task' = Priority task /\
  Frequency task' = Frequency task /\
  EveryX task' = EveryX task /\
  (forall r, Repeat task = Some r -> Repeat task' = Some r) /\
  (Repeat task = None -> Repeat task' = Repeat (toTask model diags').1) /\
  Tags task' = Tags task /\
  DaysOfMonth task' = DaysOfMonth task /\
  WeeksOfMonth task' = WeeksOfMonth task /\
  Task_Type task' = "daily" /\
  Task_ID task' = "".
Proof.
  intros (Hn1 & Hn2 & Hi & Hs) task'.
  destruct (modelToTask_fields (fromTask model task diags).1 diags')
    as (Hid & Hty & Htext & Hnotes & Hprio & Hfreq & Hevery & Hrep & Hdays & Hweeks & Htags).
  fold task' in Hid, Hty, Htext, Hnotes, Hprio, Hfreq, Hevery, Hrep, Hdays, Hweeks, Htags.
  destruct (updateModelFromTask_fields model task diags)
    as (_ & Mtext & Mnotes & Mprio & Mfreq & Mevery & Mrep & Mdays & Mweeks & Mtags).
  rewrite Mtext in Htext. rewrite Mnotes in Hnotes. rewrite Mprio in Hprio.
  rewrite Mfreq in Hfreq. rewrite Mevery in Hevery. rewrite Mrep in Hrep.
  rewrite Mdays in Hdays. rewrite Mweeks in Hweeks. rewrite Mtags in Htags.
  repeat split; try assumption.
  - intros r Hr. rewrite Hrep, Hr. simpl. destruct r; reflexivity.
  - intros Hr. rewrite Hrep, Hr.
    destruct (modelToTask_fields model diags') as (_ & _ & _ & _ & _ & _ & _ & Hrep0 & _).
    symmetry. exact Hrep0.
  - rewrite Htags. apply (list_back List_IsNull ListNull_String); assumption.
  - rewrite Hdays. apply (list_back List_IsNull ListNull_Int64); assumption.
  - rewrite Hweeks. apply (list_back List_IsNull ListNull_Int64); assumption.
Qed.

End TaskResourceFacts.

Lemma daily_round_trip_witness :
  let task' :=
    (ex_modelToTask (ex_updateModelFromTask example_daily_plan example_daily_task []).1 []).1 in
  Task_Text task' = "Meditate" /\
  Repeat task' = Repeat example_daily_task /\
  Tags task' = ["tag-1"; "tag-2"] /\
  DaysOfMonth task' = [1; 15] /\
  Task_ID task' = "".
Proof.
  intros task'.
  assert (Hlists : lists_round_trip ex_IsNull ExNull ExNull
                     ex_ElementsAs_Int64 ex_ElementsAs_String
                     (fun xs => (ExInts xs, [])) (fun xs => (ExStrings xs, [])))
    by (repeat split).
  destruct (daily_round_trip ExampleList ex_IsNull ExNull ExNull
              ex_ElementsAs_Int64 ex_ElementsAs_String
              (fun xs => (ExInts xs, [])) (fun xs => (ExStrings xs, []))
              (fun _ => None) (fun _ => "")
              example_daily_plan example_daily_task [] [] Hlists)
    as (H1 & _ & _ & _ & _ & H6 & _ & H8 & H9 & _ & _ & H12).
  exact (conj H1 (conj (H6 _ eq_refl) (conj H8 (conj H9 H12)))).
Defined.

(* ===================================================================== *)
(** ** What the resources send and report                                 *)
(* ===================================================================== *)

Lemma sends_only_refl c w method path : sends_only c w w method path.
Proof. exists []. split; [apply made_refl|]. split; [simpl; lia | constructor]. Qed.

Lemma do_sends_only R c w ctx method path body :
  sends_only c w (world_of (do R c w ctx method path body)) method path.
Proof.
  destruct (do_log R c w ctx method path body) as (l & H1 & H2 & H3 & _).
  exists l. split; [exact H1|]. split; [lia|].
  eapply Forall_impl; [exact H3|]. intros e He. simpl in He.
  apply newRequest_inv in He. destruct He as (Hm & Hu & _). split; assumption.
Qed.

Ltac by_do :=
  match goal with
  | |- context [do ?R ?c ?w ?ctx ?m ?p ?b] =>
      let H := fresh "Hsends" in
      pose proof (do_sends_only R c w ctx m p b) as H;
      destruct (do R c w ctx m p b) as [[?r ?c1] ?w1];
      unfold world_of in *; simpl in H |- *
  end.

Lemma CreateTag_sends R c w ctx name :
  sends_only c w (world_of (CreateTag R c w ctx name)) "POST" "/tags".
Proof.
  unfold CreateTag, Post. by_do.
  destruct r as [resp|err]; [destruct (json_Unmarshal_Tag R resp)|]; exact Hsends.
Qed.

Lemma UpdateTag_sends R c w ctx id name :
  sends_only c w (world_of (UpdateTag R c w ctx id name)) "PUT" ("/tags/" +:+ id).
Proof.
  unfold UpdateTag, Put. by_do.
  destruct r as [resp|err]; [destruct (json_Unmarshal_Tag R resp)|]; exact Hsends.
Qed.

Lemma DeleteTag_sends R c w ctx id :
  sends_only c w (world_of (DeleteTag R c w ctx id)) "DELETE" ("/tags/" +:+ id).
Proof. unfold DeleteTag, Delete. by_do. destruct r; exact Hsends. Qed.

Lemma GetTag_sends R c w ctx id :
  sends_only c w (world_of (GetTag R c w ctx id)) "GET" "/tags".
Proof.
  unfold GetTag. destruct (cache_lookup (tagCache c) id); [apply sends_only_refl|].
  assert (Hp : sends_only c w (world_of (populateTagCache R c w ctx)) "GET" "/tags").
  { unfold populateTagCache. destruct (tagCache c); [apply sends_only_refl|].
    unfold Get. by_do.
    destruct r as [resp|err]; [destruct (json_Unmarshal_Tags R resp)|]; exact Hsends. }
  destruct (populateTagCache R c w ctx) as [[perr c1] w1].
  unfold world_of in *. simpl in Hp.
  destruct perr; [exact Hp|]. destruct (cache_lookup (tagCache c1) id); exact Hp.
Qed.

Lemma CreateTask_sends R c w ctx task :
  sends_only c w (world_of (CreateTask R c w ctx task)) "POST" "/tasks/user".
Proof.
  unfold CreateTask, Post. by_do.
  destruct r as [resp|err]; [destruct (json_Unmarshal_Task R resp)|]; exact Hsends.
Qed.

Lemma UpdateTask_sends R c w ctx id task :
  sends_only c w (world_of (UpdateTask R c w ctx id task)) "PUT" ("/tasks/" +:+ id).
Proof.
  unfold UpdateTask, Put. by_do.
  destruct r as [resp|err]; [destruct (json_Unmarshal_Task R resp)|]; exact Hsends.
Qed.

Lemma DeleteTask_sends R c w ctx id :
  sends_only c w (world_of (DeleteTask R c w ctx id)) "DELETE" ("/tasks/" +:+ id).
Proof. unfold DeleteTask, Delete. by_do. destruct r; exact Hsends. Qed.

Lemma GetTask_sends R c w ctx id :
  sends_only c w (world_of (GetTask R c w ctx id)) "GET" "/tasks/user".
Proof.
  unfold GetTask. destruct (cache_lookup (taskCache c) id); [apply sends_only_refl|].
  assert (Hp : sends_only c w (world_of (populateTaskCache R c w ctx)) "GET" "/tasks/user").
  { unfold populateTaskCache. destruct (taskCache c); [apply sends_only_refl|].
    unfold Get. by_do.
    destruct r as [resp|err]; [destruct (json_Unmarshal_Tasks R resp)|]; exact Hsends. }
  destruct (populateTaskCache R c w ctx) as [[perr c1] w1].
  unfold world_of in *. simpl in Hp.
  destruct perr; [exact Hp|]. destruct (cache_lookup (taskCache c1) id); exact Hp.
Qed.

(** A call of the client inside a method of a resource: the method sends
    what the call sends. *)
Ltac by_call call lemma :=
  let H := fresh "Hsends" in
  pose proof lemma as H;
  destruct call as [[?r ?c1] ?w1];
  unfold world_of in *; simpl in H |- *.

Section TagResourceFacts.

Variable State_Set : tagResourceModel -> diag.Diagnostics.


End TagResourceFacts.

Lemma diag_AddError_HasError diags summary detail :
  diag.HasError (diag.AddError diags summary detail) = true.
Proof.
  unfold diag.AddError. rewrite diag_Append_HasError. simpl. apply orb_true_r.
Qed.

Section TagResourceReports.

Variable State_Set : tagResourceModel -> diag.Diagnostics.

(** X26.  The tag resource is all-or-nothing and takes its state from the
    service.  [Create], [Read] and [Update] either report an error and set
    no state, or hand a model to [State.Set] without having reported an
    error; the model then holds the name the service returned (not the name
    of the plan) and, as id, the id the service gave ([Create]) or the id
    of the prior state ([Read], [Update]).  [Delete] sets no state; when it
    reports no error the tag cache of the client is dropped. *)
Theorem tag_resource_reports R c w ctx got got' plan state :
  (let out := tag_Create State_Set R c w ctx got plan in
   all_or_nothing State_Set (result_of out) /\
   forall st, res_State (result_of out) = Some st ->
     exists tag,
       result_of (CreateTag R c w ctx (types.ValueString (tm_Name plan))) = Ok tag /\
       st = {| tm_ID := types.Known (Tag_ID tag);
               tm_Name := types.Known (Tag_Name tag) |}) /\
  (let out := tag_Read State_Set R c w ctx got state in
   all_or_nothing State_Set (result_of out) /\
   forall st, res_State (result_of out) = Some st ->
     exists tag,
       result_of (GetTag R c w ctx (types.ValueString (tm_ID state))) = Ok tag /\
       st = {| tm_ID := tm_ID state; tm_Name := types.Known (Tag_Name tag) |}) /\
  (let out := tag_Update State_Set R c w ctx got plan got' state in
   all_or_nothing State_Set (result_of out) /\
   forall st, res_State (result_of out) = Some st ->
     exists tag,
       result_of (UpdateTag R c w ctx (types.ValueString (tm_ID state))
                    (types.ValueString (tm_Name plan))) = Ok tag /\
       st = {| tm_ID := tm_ID state; tm_Name := types.Known (Tag_Name tag) |}) /\
  (let out := tag_Delete R c w ctx got state in
   res_State (result_of out) = None /\
   (diag.HasError (res_Diagnostics (result_of out)) = false ->
    tagCache (client_of out) = None)).
Proof.
  repeat match goal with |- _ /\ _ => split end.
  - intros out. subst out. unfold tag_Create, all_or_nothing. cbv zeta.
    destruct (diag.HasError (diag.Append [] got)) eqn:Hgot;
      [unfold result_of; simpl; split; [exact Hgot | discriminate]|].
    destruct (CreateTag R c w ctx (types.ValueString (tm_Name plan))) as [[r c1] w1].
    destruct r as [tag|err]; unfold result_of; simpl.
    + split; [eexists; split; [exact Hgot | reflexivity]|].
      intros st [= <-]. exists tag. split; reflexivity.
    + split; [apply diag_AddError_HasError | discriminate].
  - intros out. subst out. unfold tag_Read, all_or_nothing. cbv zeta.
    destruct (diag.HasError (diag.Append [] got)) eqn:Hgot;
      [unfold result_of; simpl; split; [exact Hgot | discriminate]|].
    destruct (GetTag R c w ctx (types.ValueString (tm_ID state))) as [[r c1] w1].
    destruct r as [tag|err]; unfold result_of; simpl.
    + split; [eexists; split; [exact Hgot | reflexivity]|].
      intros st [= <-]. exists tag. split; reflexivity.
    + split; [apply diag_AddError_HasError | discriminate].
  - intros out. subst out. unfold tag_Update, all_or_nothing. cbv zeta.
    destruct (diag.HasError (diag.Append [] got)) eqn:Hgot;
      [unfold result_of; simpl; split; [exact Hgot | discriminate]|].
    destruct (diag.HasError (diag.Append (diag.Append [] got) got')) eqn:Hgot';
      [unfold result_of; simpl; split; [exact Hgot' | discriminate]|].
    destruct (UpdateTag R c w ctx (types.ValueString (tm_ID state))
                (types.ValueString (tm_Name plan))) as [[r c1] w1].
    destruct r as [tag|err]; unfold result_of; simpl.
    + split; [eexists; split; [exact Hgot' | reflexivity]|].
      intros st [= <-]. exists tag. split; reflexivity.
    + split; [apply diag_AddError_HasError | discriminate].
  - intros out. subst out. unfold tag_Delete. cbv zeta.
    destruct (diag.HasError (diag.Append [] got)) eqn:Hgot;
      [unfold result_of, client_of; simpl; split; [reflexivity | congruence]|].
    unfold DeleteTag, Delete.
    destruct (do R c w ctx http.MethodDelete _ None) as [[r c1] w1].
    destruct r as [b|err]; unfold result_of, client_of; simpl.
    + split; [reflexivity | intros _; reflexivity].
    + split; [reflexivity|]. rewrite diag_AddError_HasError. discriminate.
Qed.

End TagResourceReports.

Section TaskResourceReports.

Variable List : Type.
Variable List_IsNull : List -> bool.
Variable ListNull_Int64 : List.
Variable ListNull_String : List.
Variable ElementsAs_Int64 : List -> list Z * diag.Diagnostics.
Variable ElementsAs_String : List -> list string * diag.Diagnostics.
Variable ListValueFrom_Int64 : list Z -> List * diag.Diagnostics.
Variable ListValueFrom_String : list string -> List * diag.Diagnostics.
Variable time_Parse_date : string -> option Z.
Variable time_Format_date : Z -> string.
Variable daily_State_Set : dailyResourceModel List -> diag.Diagnostics.
Variable habit_State_Set : habitResourceModel List -> diag.Diagnostics.

Let dCreate :=
  daily_Create List List_IsNull ListNull_Int64 ListNull_String ElementsAs_Int64
    ElementsAs_String ListValueFrom_Int64 ListValueFrom_String time_Parse_date
    time_Format_date daily_State_Set.
Let dRead :=
  daily_Read List ListNull_Int64 ListNull_String ListValueFrom_Int64
    ListValueFrom_String time_Format_date daily_State_Set.
Let dUpdate :=
  daily_Update List List_IsNull ListNull_Int64 ListNull_String ElementsAs_Int64
    ElementsAs_String ListValueFrom_Int64 ListValueFrom_String time_Parse_date
    time_Format_date daily_State_Set.
Let dDelete := daily_Delete List.
Let hCreate :=
  habit_Create List List_IsNull ListNull_String ElementsAs_String
    ListValueFrom_String habit_State_Set.
Let hRead := habit_Read List ListNull_String ListValueFrom_String habit_State_Set.
Let hUpdate :=
  habit_Update List List_IsNull ListNull_String ElementsAs_String
    ListValueFrom_String habit_State_Set.
Let hDelete := habit_Delete List.



Hypothesis made_clean : lists_made_clean ListValueFrom_Int64 ListValueFrom_String.

Lemma updateModelFromTask_clean model task diags :
  (updateModelFromTask List ListNull_Int64 ListNull_String ListValueFrom_Int64
     ListValueFrom_String time_Format_date model task diags).2 = diags /\
  dm_ID (updateModelFromTask List ListNull_Int64 ListNull_String ListValueFrom_Int64
           ListValueFrom_String time_Format_date model task diags).1 = dm_ID model.
Proof.
  destruct made_clean as [Hi Hs]. unfold updateModelFromTask.
  pose proof (Hi (DaysOfMonth task)) as H1.
  pose proof (Hi (WeeksOfMonth task)) as H2.
  pose proof (Hs (Tags task)) as H3.
  destruct (ListValueFrom_Int64 (DaysOfMonth task)) as [l1 d1].
  destruct (ListValueFrom_Int64 (WeeksOfMonth task)) as [l2 d2].
  destruct (ListValueFrom_String (Tags task)) as [l3 d3].
  simpl in H1, H2, H3. subst d1 d2 d3.
  destruct (0 <? length (DaysOfMonth task))%nat;
    destruct (0 <? length (WeeksOfMonth task))%nat;
    destruct (0 <? length (Tags task))%nat; split; reflexivity.
Qed.

Lemma habit_updateModelFromTask_clean model task diags :
  (habit_updateModelFromTask List ListNull_String ListValueFrom_String
     model task diags).2 = diags /\
  hm_ID (habit_updateModelFromTask List ListNull_String ListValueFrom_String
           model task diags).1 = hm_ID model.
Proof.
  destruct made_clean as [_ Hs]. unfold habit_updateModelFromTask.
  pose proof (Hs (Tags task)) as H3.
  destruct (ListValueFrom_String (Tags task)) as [l3 d3].
  simpl in H3. subst d3.
  destruct (0 <? length (Tags task))%nat; split; reflexivity.
Qed.


End TaskResourceReports.


(* ===================================================================== *)
(** ** The tests of the resources, replayed                               *)
(* ===================================================================== *)

(** The four cases of the test of [getBoolWithDefault]. *)
Example test_getBoolWithDefault :
  getBoolWithDefault types.Null true = true /\
  getBoolWithDefault types.Unknown false = false /\
  getBoolWithDefault (types.Known true) false = true /\
  getBoolWithDefault (types.Known false) true = false.
Proof. repeat split. Qed.

(** The plan of the examples names Monday (off) and Saturday (on) and
    leaves the other days null or unknown: they take their defaults.  The
    same plan without its repeat block repeats Monday to Friday. *)
Example test_repeat_defaults :
  Repeat (ex_modelToTask example_daily_plan []).1
  = Some {| Monday := false; Tuesday := true; Wednesday := true;
            Thursday := true; Friday := true; Saturday := true;
            Sunday := false |} /\
  Tags (ex_modelToTask example_daily_plan []).1 = ["tag-1"] /\
  (ex_modelToTask example_daily_plan []).2 = [].
Proof. repeat split. Qed.

(** A daily created against the service of the examples: one POST, and the
    state takes the id and the text the service answered with. *)
Example test_daily_create :
  let out := ex_daily_Create (toy_runtime habitica) (New (test_config 3))
               (fresh_world 0) context.Background [] example_daily_plan in
  sent (world_of out) = [("POST", "https://habitica.com/api/v3/tasks/user")] /\
  res_Diagnostics (result_of out) = [] /\
  (dm_ID <$> res_State (result_of out)) = Some (types.Known "task-1") /\
  (dm_Text <$> res_State (result_of out)) = Some (types.Known "Exercise") /\
  taskCache (client_of out) = None.
Proof. vm_compute. repeat split. Qed.

(** The data source on the service of the examples: two GET requests, the
    tasks first, and the habit and the daily of the list sorted by type. *)
Example test_user_tasks_read :
  let out := userTasks_Read (fun _ => false)
               (fun o => Ok (pretty (length (Dailies o)) +:+ " dailies, "
                             +:+ pretty (length (Habits o)) +:+ " habits, "
                             +:+ pretty (length (Todos o)) +:+ " todos"))
               (fun _ => [])
               (toy_runtime habitica) (New (test_config 3)) (fresh_world 0)
               context.Background in
  sent (world_of out)
  = [("GET", "https://habitica.com/api/v3/tags");
     ("GET", "https://habitica.com/api/v3/tasks/user")] /\
  result_of out
  = {| Diagnostics := []; State := Some "1 dailies, 1 habits, 0 todos" |}.
Proof. vm_compute. repeat split. Qed.

(* ===================================================================== *)
(** ** The webhook resource                                               *)
(* ===================================================================== *)

Section WebhookResourceFacts.

Variable decode : string -> result (APIResponse (list Webhook)).
Variable State_Set : webhookResourceModel -> diag.Diagnostics.

Lemma GetWebhook_sends R c w ctx id :
  sends_only c w (world_of (GetWebhook decode R c w ctx id)) "GET" "/user/webhook".
Proof.
  unfold GetWebhook, GetWebhooks, Get. by_do.
  destruct r as [resp|err]; [destruct (decode resp) as [apiResp|err]|]; try exact Hsends.
  destruct (find _ (Data apiResp)); exact Hsends.
Qed.

Lemma DeleteWebhook_sends R c w ctx id :
  sends_only c w (world_of (DeleteWebhook R c w ctx id))
    "DELETE" ("/user/webhook/" +:+ id).
Proof. unfold DeleteWebhook, Delete. by_do. exact Hsends. Qed.

(** X29.  [Read] and [Delete] of the webhook resource.  [Read] sends
    nothing but GET requests to [/user/webhook] and is all-or-nothing; the
    state it sets keeps the id of the prior state and takes every other
    attribute from the webhook the service listed, so that it converts back
    to that webhook; and it sets a state only after a request of its own
    was answered: a webhook is never read from a cache.  [Delete] sends
    nothing but DELETE requests to [/user/webhook/] followed by the id of
    the state, and sets no state. *)
Theorem webhook_resource_read_delete R c w ctx got state :
  (let out := webhook_Read decode State_Set R c w ctx got state in
   sends_only c w (world_of out) "GET" "/user/webhook" /\
   all_or_nothing State_Set (result_of out) /\
   forall st, res_State (result_of out) = Some st ->
     wm_ID st = wm_ID state /\
     (exists wh,
         result_of (GetWebhook decode R c w ctx (types.ValueString (wm_ID state)))
         = Ok wh /\
         modelToWebhook st = without_id wh) /\
     exists ex l, made w (world_of out) (ex :: l)) /\
  (let out := webhook_Delete R c w ctx got state in
   sends_only c w (world_of out)
     "DELETE" ("/user/webhook/" +:+ types.ValueString (wm_ID state)) /\
   res_State (result_of out) = None).
Proof.
  split.
  - unfold webhook_Read, all_or_nothing. cbv zeta.
    destruct (diag.HasError (diag.Append [] got)) eqn:Hgot.
    { unfold result_of, world_of. simpl.
      split; [apply sends_only_refl|]. split; [exact Hgot | discriminate]. }
    pose proof (GetWebhook_sends R c w ctx (types.ValueString (wm_ID state))) as Hsends.
    destruct (GetWebhook decode R c w ctx (types.ValueString (wm_ID state)))
      as [[r c1] w1] eqn:Hcall.
    unfold result_of, world_of, client_of in *. simpl in Hsends.
    destruct r as [wh|err]; simpl.
    + split; [exact Hsends|].
      split; [eexists; split; [exact Hgot | reflexivity]|].
      intros st [= <-]. split; [reflexivity|]. split.
      * exists wh. split; [reflexivity|].
        unfold modelToWebhook, updateModelFromWebhook, without_id. simpl.
        destruct wh as [id url label type enabled [cr up de sc ch]]. reflexivity.
      * exact (GetWebhook_Ok_sent decode R c w ctx _ wh c1 w1 Hcall).
    + split; [exact Hsends|]. split; [apply diag_AddError_HasError | discriminate].
  - unfold webhook_Delete. cbv zeta.
    destruct (diag.HasError (diag.Append [] got)).
    { unfold result_of, world_of. simpl. split; [apply sends_only_refl | reflexivity]. }
    pose proof (DeleteWebhook_sends R c w ctx (types.ValueString (wm_ID state))) as Hsends.
    destruct (DeleteWebhook R c w ctx (types.ValueString (wm_ID state))) as [[r c1] w1].
    unfold result_of, world_of in *. simpl in Hsends.
    destruct r; simpl; split; try exact Hsends; reflexivity.
Qed.

End WebhookResourceFacts.
